(** * The real-time gateway of the chat server (server/src/sockets/io.js)

    A shallow embedding of the Socket.IO gateway: the presence registry
    [onlineUsers], the room table of the adapter, the in-memory call
    registry [activeCalls] and the message handlers working on the stored
    documents, followed by the properties of the specification that concern
    them.

    Conventions of the embedding.
    - Ids (users, sockets, chats, messages, calls) are strings, as after the
      [String(...)] coercions of the source.
    - A JavaScript [Map] is a [gmap], a [Set] a [gset]; an emission to the
      members of a [Set] lists them in the order of [elements].  Mongoose
      arrays ([participants], [reactions], [deliveredTo], ...) are lists.
    - A handler is a function from the state to the new state and the list
      of emitted events, each event paired with the socket that receives it.
      A handler runs to completion on the state it is given: the sections of
      an [async] handler separated by an [await] are not interleaved with
      other handlers.  The connection handler, [call:start] and the
      [disconnect] listener touch the registries on both sides of an
      [await]; [Server] and its steps take them apart, for the properties
      that depend on what happens in between.
    - What the source draws from the clock, the random generator or the
      store's id generator ([Date.now()], [new Date()], [Math.random()],
      [ObjectId]) is an argument of the handler. *)

From stdpp Require Import base option strings list gmap sets pretty.

Open Scope string_scope.
Open Scope list_scope.
Open Scope nat_scope.

Set Warnings "-clear-no-such-hyp".

Abbreviation UserId := string (only parsing).
Abbreviation SocketId := string (only parsing).
Abbreviation ChatId := string (only parsing).
Abbreviation MessageId := string (only parsing).
Abbreviation CallId := string (only parsing).

(** ** Exceptions: [throw new Error(message)] inside a [try] block *)

Inductive result (A : Type) : Type :=
| Ok (a : A)
| Throw (message : string).
Arguments Ok {A} a.
Arguments Throw {A} message.

Global Instance result_bind : MBind result := λ A B k r,
  match r with
  | Ok a => k a
  | Throw message => Throw message
  end.

(** [for (const x of l) { ... may throw ... }] *)
Fixpoint for_each {A : Type} (body : A → result unit) (l : list A)
    : result unit :=
  match l with
  | [] => Ok tt
  | x :: l' => body x;; for_each body l'
  end.

(** [if (cond) throw new Error(message)] *)
Definition throw_if (cond : bool) (message : string) : result unit :=
  if cond then Throw message else Ok tt.

(** A string argument is falsy when it is undefined or empty
    ([clientId], [replyToId || undefined], [!emoji]). *)
Definition truthy (s : option string) : option string :=
  match s with
  | Some EmptyString => None
  | _ => s
  end.

(** ** Presence registry: [onlineUsers : Map(userId -> Set(socketId))] *)

Module Presence.

Abbreviation Registry := (gmap UserId (gset SocketId)) (only parsing).

(** [if (!onlineUsers.has(userId)) onlineUsers.set(userId, new Set());
     onlineUsers.get(userId).add(sid);]
    The set is updated in place ([alter]); it is always present at that
    point because of the line before. *)
Definition register (userId : UserId) (sid : SocketId)
    (onlineUsers : Registry) : Registry :=
  let onlineUsers1 :=
    if decide (is_Some (onlineUsers !! userId)) then onlineUsers
    else <[userId := ∅]> onlineUsers in
  alter (λ set, set ∪ {[sid]}) userId onlineUsers1.

(** [const set = onlineUsers.get(userId);
     if (set) { set.delete(sid);
                if (set.size === 0) onlineUsers.delete(userId); }] *)
Definition unregister (userId : UserId) (sid : SocketId)
    (onlineUsers : Registry) : Registry :=
  match onlineUsers !! userId with
  | Some set =>
      let set' := set ∖ {[sid]} in
      let onlineUsers1 := <[userId := set']> onlineUsers in
      if decide (size set' = 0) then delete userId onlineUsers1
      else onlineUsers1
  | None => onlineUsers
  end.

(** [onlineUsers.has(userId)], the value sent in [presence:update]. *)
Definition isOnline (onlineUsers : Registry) (userId : UserId) : bool :=
  bool_decide (is_Some (onlineUsers !! userId)).

(** [onlineUsers.get(userId)], read as the empty set when undefined
    (every reader guards with [if (set)]). *)
Definition sessionsOf (onlineUsers : Registry) (userId : UserId)
    : gset SocketId :=
  default ∅ (onlineUsers !! userId).

(** Connection and disconnection of a session, as seen by the registry. *)
Inductive event :=
| Connect (userId : UserId) (sid : SocketId)
| Disconnect (userId : UserId) (sid : SocketId).

Definition apply (e : event) (onlineUsers : Registry) : Registry :=
  match e with
  | Connect u s => register u s onlineUsers
  | Disconnect u s => unregister u s onlineUsers
  end.

(** The registry after a sequence of events, the first event first. *)
Definition run (evs : list event) (onlineUsers : Registry) : Registry :=
  foldl (λ reg e, apply e reg) onlineUsers evs.

(** No user is mapped to an empty set. *)
Definition no_empty_entry (onlineUsers : Registry) : Prop :=
  ∀ u set, onlineUsers !! u = Some set → set ≠ ∅.

End Presence.

(** ** Stored documents (models/Chat.js, models/Message.js, models/User.js)

    Only the fields that the gateway reads or writes. *)

Record User := {
  user_name : string;
  user_blocked : list UserId;
  user_lastSeen : N;
}.

Record ChatSettings := {
  onlyAdminsCanMessage : bool;
  onlyAdminsCanEditInfo : bool;
  isPublic : bool;
}.

Record Chat := {
  chat_isGroup : bool;
  chat_participants : list UserId;
  chat_admins : list UserId;
  chat_settings : option ChatSettings;
  chat_lastMessageAt : option N;
}.

(** [type: { enum: ["text", "image", "video", "audio", "file"] }] *)
Inductive MessageType := TText | TImage | TVideo | TAudio | TFile.

(** [status: { enum: ["sent", "delivered", "read"], default: "sent" }] *)
Inductive Status := Sent | Delivered | Read.

(** [ReactionSchema]: [emoji], [by], [at] (default [Date.now]). *)
Record Reaction := {
  r_emoji : string;
  r_by : UserId;
  r_at : N;
}.

Record Message := {
  msg_id : MessageId;
  msg_chat : ChatId;
  msg_sender : UserId;
  msg_type : MessageType;
  msg_text : option string;
  msg_mediaUrl : option string;
  msg_mediaName : option string;
  msg_mediaSize : option N;
  msg_mediaDuration : option N;
  msg_replyTo : option MessageId;
  msg_forwardOf : option MessageId;
  msg_reactions : list Reaction;
  msg_editedAt : option N;
  msg_pinnedAt : option N;
  msg_pinnedBy : option UserId;
  msg_starredBy : list UserId;
  msg_status : Status;
  msg_deliveredTo : list UserId;
  msg_readBy : list UserId;
  msg_deletedFor : list UserId;
  msg_deletedForAllAt : option N;
}.

Record Store := {
  chats : gmap ChatId Chat;
  users : gmap UserId User;
  messages : gmap MessageId Message;
}.

Global Instance MessageType_eq_dec : EqDecision MessageType.
Proof. solve_decision. Defined.
Global Instance Status_eq_dec : EqDecision Status.
Proof. solve_decision. Defined.

(** Field updates of a message document. *)
Definition set_status (s : Status) (m : Message) : Message :=
  {| msg_id := msg_id m; msg_chat := msg_chat m; msg_sender := msg_sender m;
     msg_type := msg_type m; msg_text := msg_text m;
     msg_mediaUrl := msg_mediaUrl m; msg_mediaName := msg_mediaName m;
     msg_mediaSize := msg_mediaSize m;
     msg_mediaDuration := msg_mediaDuration m;
     msg_replyTo := msg_replyTo m; msg_forwardOf := msg_forwardOf m;
     msg_reactions := msg_reactions m; msg_editedAt := msg_editedAt m;
     msg_pinnedAt := msg_pinnedAt m; msg_pinnedBy := msg_pinnedBy m;
     msg_starredBy := msg_starredBy m; msg_status := s;
     msg_deliveredTo := msg_deliveredTo m; msg_readBy := msg_readBy m;
     msg_deletedFor := msg_deletedFor m;
     msg_deletedForAllAt := msg_deletedForAllAt m |}.

Definition set_deliveredTo (l : list UserId) (m : Message) : Message :=
  {| msg_id := msg_id m; msg_chat := msg_chat m; msg_sender := msg_sender m;
     msg_type := msg_type m; msg_text := msg_text m;
     msg_mediaUrl := msg_mediaUrl m; msg_mediaName := msg_mediaName m;
     msg_mediaSize := msg_mediaSize m;
     msg_mediaDuration := msg_mediaDuration m;
     msg_replyTo := msg_replyTo m; msg_forwardOf := msg_forwardOf m;
     msg_reactions := msg_reactions m; msg_editedAt := msg_editedAt m;
     msg_pinnedAt := msg_pinnedAt m; msg_pinnedBy := msg_pinnedBy m;
     msg_starredBy := msg_starredBy m; msg_status := msg_status m;
     msg_deliveredTo := l; msg_readBy := msg_readBy m;
     msg_deletedFor := msg_deletedFor m;
     msg_deletedForAllAt := msg_deletedForAllAt m |}.

Definition set_readBy (l : list UserId) (m : Message) : Message :=
  {| msg_id := msg_id m; msg_chat := msg_chat m; msg_sender := msg_sender m;
     msg_type := msg_type m; msg_text := msg_text m;
     msg_mediaUrl := msg_mediaUrl m; msg_mediaName := msg_mediaName m;
     msg_mediaSize := msg_mediaSize m;
     msg_mediaDuration := msg_mediaDuration m;
     msg_replyTo := msg_replyTo m; msg_forwardOf := msg_forwardOf m;
     msg_reactions := msg_reactions m; msg_editedAt := msg_editedAt m;
     msg_pinnedAt := msg_pinnedAt m; msg_pinnedBy := msg_pinnedBy m;
     msg_starredBy := msg_starredBy m; msg_status := msg_status m;
     msg_deliveredTo := msg_deliveredTo m; msg_readBy := l;
     msg_deletedFor := msg_deletedFor m;
     msg_deletedForAllAt := msg_deletedForAllAt m |}.

Definition set_reactions (l : list Reaction) (m : Message) : Message :=
  {| msg_id := msg_id m; msg_chat := msg_chat m; msg_sender := msg_sender m;
     msg_type := msg_type m; msg_text := msg_text m;
     msg_mediaUrl := msg_mediaUrl m; msg_mediaName := msg_mediaName m;
     msg_mediaSize := msg_mediaSize m;
     msg_mediaDuration := msg_mediaDuration m;
     msg_replyTo := msg_replyTo m; msg_forwardOf := msg_forwardOf m;
     msg_reactions := l; msg_editedAt := msg_editedAt m;
     msg_pinnedAt := msg_pinnedAt m; msg_pinnedBy := msg_pinnedBy m;
     msg_starredBy := msg_starredBy m; msg_status := msg_status m;
     msg_deliveredTo := msg_deliveredTo m; msg_readBy := msg_readBy m;
     msg_deletedFor := msg_deletedFor m;
     msg_deletedForAllAt := msg_deletedForAllAt m |}.

Definition set_messages (ms : gmap MessageId Message) (db : Store) : Store :=
  {| chats := chats db; users := users db; messages := ms |}.

Definition set_chats (cs : gmap ChatId Chat) (db : Store) : Store :=
  {| chats := cs; users := users db; messages := messages db |}.

Definition set_users (us : gmap UserId User) (db : Store) : Store :=
  {| chats := chats db; users := us; messages := messages db |}.

(** [User.findByIdAndUpdate(userId, { lastSeen: new Date() })] *)
Definition touch_lastSeen (userId : UserId) (now : N) (db : Store) : Store :=
  set_users
    (alter (λ u, {| user_name := user_name u; user_blocked := user_blocked u;
                    user_lastSeen := now |}) userId (users db)) db.

(** [Chat.findByIdAndUpdate(chatId, { lastMessageAt: new Date() })] *)
Definition touch_lastMessageAt (chatId : ChatId) (now : N) (db : Store)
    : Store :=
  set_chats
    (alter (λ c, {| chat_isGroup := chat_isGroup c;
                    chat_participants := chat_participants c;
                    chat_admins := chat_admins c;
                    chat_settings := chat_settings c;
                    chat_lastMessageAt := Some now |}) chatId (chats db)) db.

(** ** What the server sends to the clients *)

(** [replyTo] after [populate]: [_id type text mediaName sender] (the
    sender is null when its document is missing), and the [senderName]
    added by the hydration helper. *)
Record ReplyInfo := {
  reply_id : MessageId;
  reply_type : MessageType;
  reply_text : option string;
  reply_mediaName : option string;
  reply_sender : option UserId;
  reply_senderName : option string;
}.

(** The object built by [hydrateMessageForClient], with the [clientId]
    that [message:send] may add to it. *)
Record ClientMessage := {
  cm_doc : Message;
  cm_replyTo : option ReplyInfo;
  cm_clientId : option string;
}.

Inductive ServerEvent :=
| PresenceUpdate (userId : UserId) (online : bool)
| MessageNew (out : ClientMessage)
| MessageUpdate (out : ClientMessage)
| ErrorEvent (where_ : string) (message : string)
| CallError (message : string)
| CallCreated (callId : CallId) (chatId : ChatId) (kind : string)
    (host : UserId) (members : list UserId)
| CallRing (callId : CallId) (chatId : ChatId) (kind : string)
    (from : UserId) (isGroup : bool)
| CallParticipants (callId : CallId) (members : list UserId)
    (host : UserId) (kind : string)
| CallJoined (callId : CallId) (userId : UserId)
| CallRejected (callId : CallId) (userId : UserId)
| CallLeft (callId : CallId) (userId : UserId)
| CallEnded (callId : CallId) (reason : string)
| CallSignal (callId : CallId) (fromUserId : UserId) (data : string).

(** An emitted event with the socket that receives it. *)
Abbreviation Emit := (SocketId * ServerEvent)%type (only parsing).

(** ** State of the gateway *)

(** An entry of [activeCalls]:
    [{ id, chatId, kind, host, members: Set<userId>, createdAt }]. *)
Record Call := {
  call_id : CallId;
  call_chatId : ChatId;
  call_kind : string;
  call_host : UserId;
  call_members : gset UserId;
  call_createdAt : N;
}.

Definition set_members (ms : gset UserId) (c : Call) : Call :=
  {| call_id := call_id c; call_chatId := call_chatId c;
     call_kind := call_kind c; call_host := call_host c;
     call_members := ms; call_createdAt := call_createdAt c |}.

(** [sockets]: the connected sockets with their [socket.userId];
    [rooms]: [io.sockets.adapter.rooms], where an empty room stands for a
    missing one (every reader guards with [if (room)]). *)
Record State := {
  sockets : gmap SocketId UserId;
  onlineUsers : gmap UserId (gset SocketId);
  rooms : gmap string (gset SocketId);
  activeCalls : gmap CallId Call;
  store : Store;
}.

Definition set_sockets (x : gmap SocketId UserId) (st : State) : State :=
  {| sockets := x; onlineUsers := onlineUsers st; rooms := rooms st;
     activeCalls := activeCalls st; store := store st |}.

Definition set_onlineUsers (x : gmap UserId (gset SocketId)) (st : State)
    : State :=
  {| sockets := sockets st; onlineUsers := x; rooms := rooms st;
     activeCalls := activeCalls st; store := store st |}.

Definition set_rooms (x : gmap string (gset SocketId)) (st : State) : State :=
  {| sockets := sockets st; onlineUsers := onlineUsers st; rooms := x;
     activeCalls := activeCalls st; store := store st |}.

Definition set_activeCalls (x : gmap CallId Call) (st : State) : State :=
  {| sockets := sockets st; onlineUsers := onlineUsers st; rooms := rooms st;
     activeCalls := x; store := store st |}.

Definition set_store (x : Store) (st : State) : State :=
  {| sockets := sockets st; onlineUsers := onlineUsers st; rooms := rooms st;
     activeCalls := activeCalls st; store := x |}.

(** The state of a freshly started server over a given store. *)
Definition initial (db : Store) : State :=
  {| sockets := ∅; onlineUsers := ∅; rooms := ∅; activeCalls := ∅;
     store := db |}.

(** ** Rooms and emissions *)

Definition chat_room (chatId : ChatId) : string := "chat:" +:+ chatId.
Definition call_room (callId : CallId) : string := "call:" +:+ callId.

Definition room_of (rooms : gmap string (gset SocketId)) (name : string)
    : gset SocketId :=
  default ∅ (rooms !! name).

(** [socket.join(name)] *)
Definition socket_join (sid : SocketId) (name : string)
    (rooms : gmap string (gset SocketId)) : gmap string (gset SocketId) :=
  <[name := room_of rooms name ∪ {[sid]}]> rooms.

(** [socket.leave(name)] *)
Definition socket_leave (sid : SocketId) (name : string)
    (rooms : gmap string (gset SocketId)) : gmap string (gset SocketId) :=
  <[name := room_of rooms name ∖ {[sid]}]> rooms.

(** A disconnecting socket leaves every room before its [disconnect]
    listeners run. *)
Definition leave_all (sid : SocketId) (rooms : gmap string (gset SocketId))
    : gmap string (gset SocketId) :=
  (λ set, set ∖ {[sid]}) <$> rooms.

(** [for (const rsid of target) io.to(rsid).emit(event, payload)] *)
Definition emit_each (target : gset SocketId) (ev : ServerEvent)
    : list Emit :=
  (λ rsid, (rsid, ev)) <$> elements target.

(** [io.to(sid).emit(event, payload)] *)
Definition io_to_sid (sid : SocketId) (ev : ServerEvent) : list Emit :=
  [(sid, ev)].

(** [io.to(room).emit(event, payload)] *)
Definition io_to_room (rooms : gmap string (gset SocketId)) (name : string)
    (ev : ServerEvent) : list Emit :=
  emit_each (room_of rooms name) ev.

(** [socket.to(room).emit(event, payload)]: the room without the socket. *)
Definition socket_to_room (rooms : gmap string (gset SocketId))
    (sid : SocketId) (name : string) (ev : ServerEvent) : list Emit :=
  emit_each (room_of rooms name ∖ {[sid]}) ev.

(** [io.emit(event, payload)]: every connected socket. *)
Definition io_emit (sockets : gmap SocketId UserId) (ev : ServerEvent)
    : list Emit :=
  emit_each (dom sockets) ev.

(** [function emitToUser(io, userId, event, payload)] *)
Definition emitToUser (onlineUsers : gmap UserId (gset SocketId))
    (userId : UserId) (ev : ServerEvent) : list Emit :=
  emit_each (Presence.sessionsOf onlineUsers userId) ev.

(** The sessions of all the users of a list: the loop
    [for (const u of participants) { const set = onlineUsers.get(u);
       if (set) for (const rsid of set) target.add(rsid); }]. *)
Definition sessions_of_all (onlineUsers : gmap UserId (gset SocketId))
    (us : list UserId) : gset SocketId :=
  ⋃ (Presence.sessionsOf onlineUsers <$> us).

(** ** Reading the store *)

(** [value] when it is there, otherwise [throw new Error(message)]. *)
Definition or_throw {A : Type} (o : option A) (message : string) : result A :=
  match o with
  | Some a => Ok a
  | None => Throw message
  end.

(** [e?.message || fallback] in a [catch (e)] clause. *)
Definition message_or (message fallback : string) : string :=
  default fallback (truthy (Some message)).

(** A participant after [.populate('participants', '_id blocked')]. *)
Record Participant := {
  p_id : UserId;
  p_blocked : list UserId;
}.

(** Population replaces each id by the selected fields of the user
    document; an id without a document is dropped from the array. *)
Definition populate_participants (db : Store) (ids : list UserId)
    : list Participant :=
  omap (λ id, (λ u, {| p_id := id; p_blocked := user_blocked u |})
                <$> users db !! id) ids.

(** [async function hydrateMessageForClient(msgDoc)] *)
Definition hydrateMessageForClient (db : Store) (msgDoc : Message)
    : ClientMessage :=
  {| cm_doc := msgDoc;
     cm_replyTo :=
       r ← msg_replyTo msgDoc ≫= (λ id, messages db !! id);
       let sender := users db !! msg_sender r in
       Some {| reply_id := msg_id r; reply_type := msg_type r;
               reply_text := msg_text r;
               reply_mediaName := msg_mediaName r;
               reply_sender := (λ _, msg_sender r) <$> sender;
               reply_senderName := truthy (user_name <$> sender) |};
     cm_clientId := None |}.

(** [if (clientId) out.clientId = clientId;] *)
Definition with_clientId (clientId : option string) (out : ClientMessage)
    : ClientMessage :=
  match truthy clientId with
  | Some c => {| cm_doc := cm_doc out; cm_replyTo := cm_replyTo out;
                 cm_clientId := Some c |}
  | None => out
  end.

(** [async function emitMessageUpdate(io, msgDoc)] *)
Definition emitMessageUpdate (st : State) (db : Store) (msgDoc : Message)
    : list Emit :=
  let chatId := msg_chat msgDoc in
  let room := room_of (rooms st) (chat_room chatId) in
  let online :=
    match chats db !! chatId with
    | Some chat => sessions_of_all (onlineUsers st) (chat_participants chat)
    | None => ∅
    end in
  emit_each (room ∪ online) (MessageUpdate (hydrateMessageForClient db msgDoc)).

(** ** Connection lifecycle *)

(** [io.on('connection', async (socket) => { ... })]: the presence part.
    The socket is entered in [sockets] by the transport.  The handler is
    taken in one piece, as it runs when nothing else happens while it waits
    for the store; [connect_begin] and [connect_end] below are its two
    halves, which the steps of [Server] take apart. *)
Definition on_connection (userId : UserId) (sid : SocketId) (now : N)
    (st : State) : State * list Emit :=
  let st0 := set_sockets (<[sid := userId]> (sockets st)) st in
  let st1 := set_onlineUsers (Presence.register userId sid (onlineUsers st0))
               st0 in
  let st2 := set_store (touch_lastSeen userId now (store st1)) st1 in
  (st2, io_emit (sockets st2) (PresenceUpdate userId true)).

(** One entry of [activeCalls] in the loop of the [disconnect] listener:
    the entry afterwards ([None] when [activeCalls.delete(id)] ran). *)
Definition sweep_call (userId : UserId) (call : Call) : option Call :=
  if decide (userId ∈ call_members call) then
    let call' := set_members (call_members call ∖ {[userId]}) call in
    if decide (call_host call' = userId ∨ size (call_members call') = 0)
    then None
    else Some call'
  else Some call.

(** ... and what the loop emits for that entry. *)
Definition sweep_events (rooms : gmap string (gset SocketId))
    (userId : UserId) (id : CallId) (call : Call) : list Emit :=
  if decide (userId ∈ call_members call) then
    let call' := set_members (call_members call ∖ {[userId]}) call in
    io_to_room rooms (call_room id) (CallLeft id userId) ++
    (if decide (call_host call' = userId ∨ size (call_members call') = 0)
     then io_to_room rooms (call_room id) (CallEnded id "host_left")
     else [])
  else [].

(** [for (const [id, call] of activeCalls.entries()) { ... }] *)
Definition call_sweep (userId : UserId) (st : State) : State * list Emit :=
  (set_activeCalls (omap (sweep_call userId) (activeCalls st)) st,
   '(id, call) ← map_to_list (activeCalls st);
   sweep_events (rooms st) userId id call).

(** [socket.on('disconnect', async () => { ... })].  The transport has
    removed the socket from [sockets] and from every room before. *)
Definition on_disconnect (userId : UserId) (sid : SocketId) (now : N)
    (st : State) : State * list Emit :=
  let st0 := set_rooms (leave_all sid (rooms st))
               (set_sockets (delete sid (sockets st)) st) in
  let st1 := set_onlineUsers
               (Presence.unregister userId sid (onlineUsers st0)) st0 in
  let st2 := set_store (touch_lastSeen userId now (store st1)) st1 in
  let presence :=
    io_emit (sockets st2)
      (PresenceUpdate userId (Presence.isOnline (onlineUsers st2) userId)) in
  let '(st3, swept) := call_sweep userId st2 in
  (st3, presence ++ swept).

(** [socket.on('chat:join', (chatId) => socket.join(`chat:${chatId}`))] *)
Definition on_chat_join (sid : SocketId) (chatId : ChatId) (st : State)
    : State * list Emit :=
  (set_rooms (socket_join sid (chat_room chatId) (rooms st)) st, []).

(** [socket.on('chat:leave', (chatId) => socket.leave(`chat:${chatId}`))] *)
Definition on_chat_leave (sid : SocketId) (chatId : ChatId) (st : State)
    : State * list Emit :=
  (set_rooms (socket_leave sid (chat_room chatId) (rooms st)) st, []).

(** ** Message delivery pipeline *)

(** The payload of [message:send]. *)
Record SendPayload := {
  send_chatId : ChatId;
  send_text : option string;
  send_type : option string;
  send_mediaUrl : option string;
  send_mediaName : option string;
  send_mediaSize : option N;
  send_mediaDuration : option N;
  send_clientId : option string;
  send_replyToId : option string;
}.

(** Validation of [type] against the enum of the schema.  [Message.create]
    rejects any other value with the validation error of the store, which
    stands below as "Message validation failed". *)
Definition cast_type (s : string) : option MessageType :=
  if decide (s = "text") then Some TText
  else if decide (s = "image") then Some TImage
  else if decide (s = "video") then Some TVideo
  else if decide (s = "audio") then Some TAudio
  else if decide (s = "file") then Some TFile
  else None.

(** The document built by [Message.create({ ..., status: 'sent', ... })]:
    the given fields, the defaults of the schema for the others. *)
Definition new_message (id : MessageId) (chat : ChatId) (sender : UserId)
    (type : MessageType) (text mediaUrl mediaName : option string)
    (mediaSize mediaDuration : option N)
    (replyTo forwardOf : option MessageId) : Message :=
  {| msg_id := id; msg_chat := chat; msg_sender := sender;
     msg_type := type; msg_text := text;
     msg_mediaUrl := mediaUrl; msg_mediaName := mediaName;
     msg_mediaSize := mediaSize; msg_mediaDuration := mediaDuration;
     msg_replyTo := replyTo; msg_forwardOf := forwardOf;
     msg_reactions := []; msg_editedAt := None;
     msg_pinnedAt := None; msg_pinnedBy := None;
     msg_starredBy := []; msg_status := Sent;
     msg_deliveredTo := []; msg_readBy := [];
     msg_deletedFor := []; msg_deletedForAllAt := None |}.

(** [msg.save()] and the insertion of [Message.create]: the document is
    written under the id it was created with or found by. *)
Definition save_message (id : MessageId) (msg : Message) (db : Store)
    : Store :=
  set_messages (<[id := msg]> (messages db)) db.

(** The guards of [message:send] between [Chat.findById] and
    [Message.create]: admins only when enabled, blocks both ways in a DM. *)
Definition send_guards (chat : Chat) (participants : list Participant)
    (userId : UserId) : result unit :=
  (if chat_isGroup chat &&
      default false (onlyAdminsCanMessage <$> chat_settings chat)
   then
     let isAdmin := bool_decide (userId ∈ chat_admins chat) in
     throw_if (negb isAdmin) "Only group admins can send messages"
   else Ok tt);;
  (if negb (chat_isGroup chat) then
     let others := filter (λ u, p_id u ≠ userId) participants in
     let meDoc := snd <$> list_find (λ u, p_id u = userId) participants in
     let myBlocks := default [] (p_blocked <$> meDoc) in
     for_each (λ p, throw_if (bool_decide (p_id p ∈ myBlocks))
                      "You blocked this contact") others;;
     for_each (λ p, throw_if (bool_decide (userId ∈ p_blocked p))
                      "Recipient blocked you") others
   else Ok tt).

(** The sockets that receive [message:new] after a send: the room of the
    chat, the sessions of the participants, the sending socket. *)
Definition send_target (st : State) (chatId : ChatId)
    (participants : list Participant) (sid : SocketId) : gset SocketId :=
  room_of (rooms st) (chat_room chatId)
  ∪ sessions_of_all (onlineUsers st) (p_id <$> participants)
  ∪ {[sid]}.

(** The [try] block of [message:send]. *)
Definition message_send_try (userId : UserId) (sid : SocketId)
    (p : SendPayload) (newId : MessageId) (now : N) (st : State)
    : result (State * list Emit) :=
  let chatId := send_chatId p in
  chat ← or_throw (chats (store st) !! chatId) "Chat not found";
  let participants := populate_participants (store st) (chat_participants chat) in
  send_guards chat participants userId;;
  type ← or_throw (cast_type (default "text" (send_type p)))
           "Message validation failed";
  let msg := new_message newId chatId userId type (send_text p)
               (send_mediaUrl p) (send_mediaName p) (send_mediaSize p)
               (send_mediaDuration p) (truthy (send_replyToId p)) None in
  let db := touch_lastMessageAt chatId now (save_message newId msg (store st)) in
  let out := with_clientId (send_clientId p) (hydrateMessageForClient db msg) in
  let target := send_target st chatId participants sid in
  Ok (set_store db st, emit_each target (MessageNew out)).

(** [socket.on('message:send', async ({...}) => { try {...} catch (err)
    { io.to(sid).emit('error', {...}) } })] *)
Definition on_message_send (userId : UserId) (sid : SocketId)
    (p : SendPayload) (newId : MessageId) (now : N) (st : State)
    : State * list Emit :=
  match message_send_try userId sid p newId now st with
  | Ok r => r
  | Throw message =>
      (st, io_to_sid sid
             (ErrorEvent "message:send" (message_or message "Failed to send")))
  end.

(** ** Message mutations *)

(** [if (!msg.deliveredTo.map(String).includes(userId))
       msg.deliveredTo.push(userId);
     if (msg.status !== 'read') msg.status = 'delivered';] *)
Definition mark_delivered (userId : UserId) (msg : Message) : Message :=
  let msg1 :=
    if bool_decide (userId ∈ msg_deliveredTo msg) then msg
    else set_deliveredTo (msg_deliveredTo msg ++ [userId]) msg in
  if decide (msg_status msg1 ≠ Read) then set_status Delivered msg1
  else msg1.

(** [if (!msg.readBy.map(String).includes(userId)) msg.readBy.push(userId);
     msg.status = 'read';] *)
Definition mark_read (userId : UserId) (msg : Message) : Message :=
  let msg1 :=
    if bool_decide (userId ∈ msg_readBy msg) then msg
    else set_readBy (msg_readBy msg ++ [userId]) msg in
  set_status Read msg1.

(** The common shape of the two acknowledgement listeners: find, change,
    save, hydrate, emit [message:update] to the room of the chat. *)
Definition on_message_ack (change : Message → Message)
    (messageId : MessageId) (st : State) : State * list Emit :=
  match messages (store st) !! messageId with
  | None => (st, [])
  | Some msg =>
      let msg' := change msg in
      let db := save_message messageId msg' (store st) in
      (set_store db st,
       io_to_room (rooms st) (chat_room (msg_chat msg'))
         (MessageUpdate (hydrateMessageForClient db msg')))
  end.

(** [socket.on('message:delivered', async ({ messageId }) => {...})] *)
Definition on_message_delivered (userId : UserId) (messageId : MessageId)
    (st : State) : State * list Emit :=
  on_message_ack (mark_delivered userId) messageId st.

(** [socket.on('message:read', async ({ messageId }) => {...})] *)
Definition on_message_read (userId : UserId) (messageId : MessageId)
    (st : State) : State * list Emit :=
  on_message_ack (mark_read userId) messageId st.

(** The selection of [findIndex] in [message:react]:
    [r => String(r.by) === String(userId) && r.emoji === emoji]. *)
Definition reacted (userId : UserId) (emoji : string) (r : Reaction) : Prop :=
  r_by r = userId ∧ r_emoji r = emoji.

Global Instance reacted_dec userId emoji r : Decision (reacted userId emoji r).
Proof. unfold reacted. apply _. Defined.

(** [const i = (msg.reactions || []).findIndex(...);
     if (i >= 0) msg.reactions.splice(i, 1);
     else msg.reactions.push({ emoji, by: userId });]
    The pushed entry takes the default of [at], the current time. *)
Definition toggle_reaction (userId : UserId) (emoji : string) (now : N)
    (reactions : list Reaction) : list Reaction :=
  match list_find (reacted userId emoji) reactions with
  | Some (i, _) => delete i reactions
  | None => reactions ++ [{| r_emoji := emoji; r_by := userId; r_at := now |}]
  end.

(** [socket.on('message:react', async ({ messageId, emoji }) => {...})] *)
Definition on_message_react (userId : UserId) (messageId : MessageId)
    (emoji : option string) (now : N) (st : State) : State * list Emit :=
  match truthy emoji with
  | None => (st, [])
  | Some emoji =>
      match messages (store st) !! messageId with
      | None => (st, [])
      | Some msg =>
          let msg' :=
            set_reactions (toggle_reaction userId emoji now (msg_reactions msg))
              msg in
          let db := save_message messageId msg' (store st) in
          (set_store db st, emitMessageUpdate st db msg')
      end
  end.

(** The [try] block of [message:forward]. *)
Definition message_forward_try (userId : UserId) (sid : SocketId)
    (messageId : MessageId) (toChatId : ChatId) (newId : MessageId)
    (st : State) : result (State * list Emit) :=
  src ← or_throw (messages (store st) !! messageId) "Source message not found";
  targetChat ← or_throw (chats (store st) !! toChatId) "Target chat not found";
  throw_if (negb (bool_decide (userId ∈ chat_participants targetChat)))
    "Not a participant of target chat";;
  let copy :=
    new_message newId toChatId userId (msg_type src)
      (if decide (msg_type src = TText) then msg_text src else None)
      (msg_mediaUrl src) (msg_mediaName src) (msg_mediaSize src)
      (msg_mediaDuration src) None (Some (msg_id src)) in
  let db := save_message newId copy (store st) in
  let outSelf := hydrateMessageForClient db copy in
  let targetSockets :=
    room_of (rooms st) (chat_room toChatId)
    ∪ sessions_of_all (onlineUsers st) (chat_participants targetChat) in
  let outOthers := hydrateMessageForClient db copy in
  Ok (set_store db st,
      io_to_sid sid (MessageNew outSelf)
      ++ emit_each targetSockets (MessageNew outOthers)).

(** [socket.on('message:forward', async ({ messageId, toChatId }) => {...})] *)
Definition on_message_forward (userId : UserId) (sid : SocketId)
    (messageId : MessageId) (toChatId : ChatId) (newId : MessageId)
    (st : State) : State * list Emit :=
  match message_forward_try userId sid messageId toChatId newId st with
  | Ok r => r
  | Throw message =>
      (st, io_to_sid sid
             (ErrorEvent "message:forward" (message_or message "Forward failed")))
  end.

(** ** Call session coordinator *)

(** [function makeId()]: ['call_' + Date.now() + '_' + <random suffix>]. *)
Definition makeId (now : N) (rnd : string) : CallId :=
  "call_" +:+ pretty now +:+ "_" +:+ rnd.

(** [async function getChatParticipants(chatId)] *)
Definition getChatParticipants (db : Store) (chatId : ChatId)
    : result (Chat * list UserId) :=
  chat ← or_throw (chats db !! chatId) "Chat not found";
  Ok (chat, chat_participants chat).

(** The [try] block of [call:start]. *)
Definition call_start_try (userId : UserId) (sid : SocketId)
    (chatId : ChatId) (kind : option string) (now : N) (rnd : string)
    (createdAt : N) (st : State) : result (State * list Emit) :=
  '(chat, participants) ← getChatParticipants (store st) chatId;
  throw_if (negb (bool_decide (userId ∈ participants))) "Not a participant";;
  let id := makeId now rnd in
  let kind := default "audio" kind in
  let call := {| call_id := id; call_chatId := chatId; call_kind := kind;
                 call_host := userId; call_members := {[userId]};
                 call_createdAt := createdAt |} in
  let st1 := set_activeCalls (<[id := call]> (activeCalls st)) st in
  let st2 := set_rooms (socket_join sid (call_room id) (rooms st1)) st1 in
  Ok (st2,
      io_to_sid sid
        (CallCreated id chatId kind userId (elements (call_members call)))
      ++ (p ← participants;
          if decide (p = userId) then []
          else emitToUser (onlineUsers st2) p
                 (CallRing id chatId kind userId (chat_isGroup chat)))).

(** [socket.on('call:start', async ({ chatId, kind = 'audio' }) => {...})] *)
Definition on_call_start (userId : UserId) (sid : SocketId)
    (chatId : ChatId) (kind : option string) (now : N) (rnd : string)
    (createdAt : N) (st : State) : State * list Emit :=
  match call_start_try userId sid chatId kind now rnd createdAt st with
  | Ok r => r
  | Throw message =>
      (st, io_to_sid sid (CallError (message_or message "Failed to start call")))
  end.

(** The [try] block of [call:accept]. *)
Definition call_accept_try (userId : UserId) (sid : SocketId)
    (callId : CallId) (st : State) : result (State * list Emit) :=
  call ← or_throw (activeCalls st !! callId) "Call not found";
  let call' := set_members (call_members call ∪ {[userId]}) call in
  let st1 := set_activeCalls (<[callId := call']> (activeCalls st)) st in
  let st2 := set_rooms (socket_join sid (call_room callId) (rooms st1)) st1 in
  Ok (st2,
      io_to_sid sid
        (CallParticipants callId (elements (call_members call'))
           (call_host call') (call_kind call'))
      ++ socket_to_room (rooms st2) sid (call_room callId)
           (CallJoined callId userId)).

(** [socket.on('call:accept', async ({ callId }) => {...})] *)
Definition on_call_accept (userId : UserId) (sid : SocketId)
    (callId : CallId) (st : State) : State * list Emit :=
  match call_accept_try userId sid callId st with
  | Ok r => r
  | Throw message =>
      (st, io_to_sid sid (CallError (message_or message "Failed to join call")))
  end.

(** [socket.on('call:reject', ({ callId }) => {...})] *)
Definition on_call_reject (userId : UserId) (callId : CallId) (st : State)
    : State * list Emit :=
  match activeCalls st !! callId with
  | None => (st, [])
  | Some call =>
      (st, emitToUser (onlineUsers st) (call_host call)
             (CallRejected callId userId))
  end.

(** [socket.on('call:leave', ({ callId }) => {...})] *)
Definition on_call_leave (userId : UserId) (sid : SocketId)
    (callId : CallId) (st : State) : State * list Emit :=
  match activeCalls st !! callId with
  | None => (st, [])
  | Some call =>
      let call' := set_members (call_members call ∖ {[userId]}) call in
      let st1 := set_activeCalls (<[callId := call']> (activeCalls st)) st in
      let st2 := set_rooms (socket_leave sid (call_room callId) (rooms st1))
                   st1 in
      let left := io_to_room (rooms st2) (call_room callId)
                    (CallLeft callId userId) in
      if decide (call_host call' = userId ∨ size (call_members call') = 0)
      then
        (set_activeCalls (delete callId (activeCalls st2)) st2,
         left ++ io_to_room (rooms st2) (call_room callId)
                   (CallEnded callId "host_left"))
      else (st2, left)
  end.

(** [socket.on('call:end', ({ callId }) => {...})] *)
Definition on_call_end (userId : UserId) (callId : CallId) (st : State)
    : State * list Emit :=
  match activeCalls st !! callId with
  | None => (st, [])
  | Some call =>
      if decide (call_host call ≠ userId) then (st, [])
      else
        (set_activeCalls (delete callId (activeCalls st)) st,
         io_to_room (rooms st) (call_room callId)
           (CallEnded callId "ended_by_host"))
  end.

(** [socket.on('call:signal', ({ callId, toUserId, data }) => {...})] *)
Definition on_call_signal (userId : UserId) (callId : CallId)
    (toUserId : UserId) (data : string) (st : State) : State * list Emit :=
  match activeCalls st !! callId with
  | None => (st, [])
  | Some call =>
      (st, emitToUser (onlineUsers st) toUserId
             (CallSignal callId userId data))
  end.

(** ** The gateway as a transition system *)

(** What happens to the gateway: a connection (the transport gives the new
    socket a fresh id), an event of a connected socket, a disconnection, or
    a write to the store by the REST controllers or by a listener that is
    not described here ([messages:fetch], [message:edit], [message:delete],
    [message:star], [message:pin], [typing]: none of them touches the
    registries or the rooms of the calls). *)
Inductive Input :=
| Connection (userId : UserId) (sid : SocketId) (now : N)
| Disconnected (sid : SocketId) (now : N)
| ChatJoin (sid : SocketId) (chatId : ChatId)
| ChatLeave (sid : SocketId) (chatId : ChatId)
| MessageSend (sid : SocketId) (p : SendPayload) (newId : MessageId) (now : N)
| MessageDelivered (sid : SocketId) (messageId : MessageId)
| MessageRead (sid : SocketId) (messageId : MessageId)
| MessageReact (sid : SocketId) (messageId : MessageId)
    (emoji : option string) (now : N)
| MessageForward (sid : SocketId) (messageId : MessageId) (toChatId : ChatId)
    (newId : MessageId)
| CallStart (sid : SocketId) (chatId : ChatId) (kind : option string)
    (now : N) (rnd : string) (createdAt : N)
| CallAccept (sid : SocketId) (callId : CallId)
| CallReject (sid : SocketId) (callId : CallId)
| CallLeave (sid : SocketId) (callId : CallId)
| CallEnd (sid : SocketId) (callId : CallId)
| CallSignalTo (sid : SocketId) (callId : CallId) (toUserId : UserId)
    (data : string)
| StoreWrite (db : Store).

(** The listeners of a socket close over its [socket.userId] and
    [socket.id]; a socket that is not connected raises no event. *)
Definition with_socket (sid : SocketId) (st : State)
    (listener : UserId → State * list Emit) : State * list Emit :=
  match sockets st !! sid with
  | Some userId => listener userId
  | None => (st, [])
  end.

Definition handle (i : Input) (st : State) : State * list Emit :=
  match i with
  | Connection userId sid now =>
      if decide (is_Some (sockets st !! sid)) then (st, [])
      else on_connection userId sid now st
  | Disconnected sid now =>
      with_socket sid st (λ userId, on_disconnect userId sid now st)
  | ChatJoin sid chatId =>
      with_socket sid st (λ _, on_chat_join sid chatId st)
  | ChatLeave sid chatId =>
      with_socket sid st (λ _, on_chat_leave sid chatId st)
  | MessageSend sid p newId now =>
      with_socket sid st (λ userId, on_message_send userId sid p newId now st)
  | MessageDelivered sid messageId =>
      with_socket sid st (λ userId, on_message_delivered userId messageId st)
  | MessageRead sid messageId =>
      with_socket sid st (λ userId, on_message_read userId messageId st)
  | MessageReact sid messageId emoji now =>
      with_socket sid st
        (λ userId, on_message_react userId messageId emoji now st)
  | MessageForward sid messageId toChatId newId =>
      with_socket sid st
        (λ userId, on_message_forward userId sid messageId toChatId newId st)
  | CallStart sid chatId kind now rnd createdAt =>
      with_socket sid st
        (λ userId, on_call_start userId sid chatId kind now rnd createdAt st)
  | CallAccept sid callId =>
      with_socket sid st (λ userId, on_call_accept userId sid callId st)
  | CallReject sid callId =>
      with_socket sid st (λ userId, on_call_reject userId callId st)
  | CallLeave sid callId =>
      with_socket sid st (λ userId, on_call_leave userId sid callId st)
  | CallEnd sid callId =>
      with_socket sid st (λ userId, on_call_end userId callId st)
  | CallSignalTo sid callId toUserId data =>
      with_socket sid st
        (λ userId, on_call_signal userId callId toUserId data st)
  | StoreWrite db => (set_store db st, [])
  end.

(** The states the gateway can be in when every listener runs in one
    piece; [server_reachable] below adds the states in between, where a
    handler waits for the store and others run. *)
Inductive reachable : State → Prop :=
| reachable_initial db : reachable (initial db)
| reachable_handle i st : reachable st → reachable (handle i st).1.

(** The state after a sequence of inputs, the first one first. *)
Definition run (inputs : list Input) (st : State) : State :=
  foldl (λ st i, (handle i st).1) st inputs.

(** The input is a [call:start] for which [makeId()] returns [callId]. *)
Definition creates (callId : CallId) (i : Input) : Prop :=
  match i with
  | CallStart _ _ _ now rnd _ => makeId now rnd = callId
  | _ => False
  end.

(** In every active call the host is a member, and every member has a
    connected socket in the room of the call. *)
Definition calls_ok (st : State) : Prop :=
  ∀ id c, activeCalls st !! id = Some c →
    call_host c ∈ call_members c ∧
    ∀ u, u ∈ call_members c →
      ∃ s, s ∈ room_of (rooms st) (call_room id) ∧ sockets st !! s = Some u.

(** The two states differ at most in the store. *)
Definition same_registries (st st' : State) : Prop :=
  sockets st' = sockets st ∧ onlineUsers st' = onlineUsers st
  ∧ rooms st' = rooms st ∧ activeCalls st' = activeCalls st.

(** ** Counting what a socket receives *)

Definition is_call_ended (callId : CallId) (ev : ServerEvent) : bool :=
  match ev with
  | CallEnded id _ => bool_decide (id = callId)
  | _ => false
  end.

(** [message:new] for the stored message [id]. *)
Definition is_message_new (id : MessageId) (ev : ServerEvent) : bool :=
  match ev with
  | MessageNew out => bool_decide (msg_id (cm_doc out) = id)
  | _ => false
  end.

(** [message:new] carrying the correlation id [c]. *)
Definition is_message_new_for (c : string) (ev : ServerEvent) : bool :=
  match ev with
  | MessageNew out => bool_decide (cm_clientId out = Some c)
  | _ => false
  end.

Definition is_error (ev : ServerEvent) : bool :=
  match ev with
  | ErrorEvent _ _ | CallError _ => true
  | _ => false
  end.

(** How many of the emitted events that satisfy [select] go to [sid]. *)
Definition received (select : ServerEvent → bool) (sid : SocketId)
    (evs : list Emit) : nat :=
  length (filter (λ e, e.1 = sid ∧ select e.2 = true) evs).

(** ** Delivery status and reactions: the vocabulary of the properties *)


(** The two status updates a client can send, [message:delivered] and
    [message:read], with the status each one asks for. *)
Inductive Ack := AckDelivered | AckRead.


Definition apply_ack (a : Ack) (userId : UserId) (msg : Message) : Message :=
  match a with
  | AckDelivered => mark_delivered userId msg
  | AckRead => mark_read userId msg
  end.



(** A reaction without its timestamp. *)
Definition reaction_key (r : Reaction) : string * UserId :=
  (r_emoji r, r_by r).

(** ** Sample states for the examples *)

Module Sample.

Definition alice : UserId := "alice".
Definition bob : UserId := "bob".
Definition carol : UserId := "carol".

Definition user (name : string) (blocked : list UserId) : User :=
  {| user_name := name; user_blocked := blocked; user_lastSeen := 0%N |}.

(** A text message of [sender] in [chat] with the given reactions. *)
Definition text_message (id : MessageId) (chat : ChatId) (sender : UserId)
    (text : string) (reactions : list Reaction) : Message :=
  set_reactions reactions
    (new_message id chat sender TText (Some text) None None None None
       None None).

(** Alice and Bob have both reacted to [m1] with the same emoji. *)
Definition liked : list Reaction :=
  [ {| r_emoji := "like"; r_by := alice; r_at := 10%N |};
    {| r_emoji := "like"; r_by := bob; r_at := 20%N |} ].

(** A direct chat [dm] of Alice and Bob, and a group [team] of the same
    two; Carol is a user but in neither chat. *)
Definition db : Store :=
  {| chats :=
       {[ "dm" := {| chat_isGroup := false;
                     chat_participants := [alice; bob];
                     chat_admins := []; chat_settings := None;
                     chat_lastMessageAt := None |};
          "team" := {| chat_isGroup := true;
                       chat_participants := [alice; bob];
                       chat_admins := [alice];
                       chat_settings :=
                         Some {| onlyAdminsCanMessage := false;
                                 onlyAdminsCanEditInfo := true;
                                 isPublic := false |};
                       chat_lastMessageAt := None |} ]};
     users :=
       {[ alice := user "Alice" [];
          bob := user "Bob" [];
          carol := user "Carol" [] ]};
     messages :=
       {[ "m1" := text_message "m1" "team" bob "hello" liked ]} |}.

(** Three sockets are connected, [s1] of Alice, [s2] of Bob and [s3] of
    Carol, and [s2] is viewing [team]. *)
Definition st : State :=
  run [ Connection alice "s1" 1%N; Connection bob "s2" 2%N;
        Connection carol "s3" 3%N; ChatJoin "s2" "team" ]
    (initial db).

(** Alice opens a second socket [s4], starts a call in [dm] from [s1], and
    Bob accepts it from [s2]. *)
Definition in_call : State :=
  run [ Connection alice "s4" 4%N;
        CallStart "s1" "dm" None 7%N "abc" 7%N;
        CallAccept "s2" "call_7_abc" ]
    st.

Definition the_call : Call :=
  {| call_id := "call_7_abc"; call_chatId := "dm"; call_kind := "audio";
     call_host := alice; call_members := {[ alice; bob ]};
     call_createdAt := 7%N |}.

(** The same store after Alice has blocked Bob. *)
Definition db_blocked : Store :=
  set_users (<[alice := user "Alice" [bob]]> (users db)) db.

Definition st_blocked : State := run [ StoreWrite db_blocked ] st.

(** A text message for [chatId] with the correlation id [clientId]. *)
Definition text_payload (chatId : ChatId) (text clientId : string)
    : SendPayload :=
  {| send_chatId := chatId; send_text := Some text; send_type := None;
     send_mediaUrl := None; send_mediaName := None; send_mediaSize := None;
     send_mediaDuration := None; send_clientId := Some clientId;
     send_replyToId := None |}.

End Sample.

(** ** The other listeners of the gateway *)

(** Events that carry no message and no call: [typing] and
    [group:refresh]. *)
Inductive SignalEvent :=
| Typing (chatId : ChatId) (userId : UserId) (typing : bool)
| GroupRefresh (chatId : ChatId).

(** [for (const rsid of target) io.to(rsid).emit(...)] for these events. *)
Definition signal_each (target : gset SocketId) (ev : SignalEvent)
    : list (SocketId * SignalEvent) :=
  (λ rsid, (rsid, ev)) <$> elements target.

(** [socket.on('typing', ({ chatId, typing }) => socket.to(`chat:${chatId}`)
      .emit('typing', { chatId, userId, typing: !!typing }))];
    [typing] is the truth value of the field of the payload. *)
Definition on_typing (userId : UserId) (sid : SocketId) (chatId : ChatId)
    (typing : bool) (st : State) : list (SocketId * SignalEvent) :=
  signal_each (room_of (rooms st) (chat_room chatId) ∖ {[sid]})
    (Typing chatId userId typing).

(** [socket.on('typing:start', ({ chatId }) => ...typing: true...)] *)
Definition on_typing_start (userId : UserId) (sid : SocketId)
    (chatId : ChatId) (st : State) : list (SocketId * SignalEvent) :=
  signal_each (room_of (rooms st) (chat_room chatId) ∖ {[sid]})
    (Typing chatId userId true).

(** [socket.on('typing:stop', ({ chatId }) => ...typing: false...)] *)
Definition on_typing_stop (userId : UserId) (sid : SocketId)
    (chatId : ChatId) (st : State) : list (SocketId * SignalEvent) :=
  signal_each (room_of (rooms st) (chat_room chatId) ∖ {[sid]})
    (Typing chatId userId false).


(** [function broadcastGroup(io, chatId, event, payload)] *)
Definition broadcastGroup (rooms : gmap string (gset SocketId))
    (chatId : ChatId) (ev : ServerEvent) : list Emit :=
  io_to_room rooms (chat_room chatId) ev.

(** More field updates of a message document. *)
Definition set_text (text : option string) (editedAt : option N)
    (m : Message) : Message :=
  {| msg_id := msg_id m; msg_chat := msg_chat m; msg_sender := msg_sender m;
     msg_type := msg_type m; msg_text := text;
     msg_mediaUrl := msg_mediaUrl m; msg_mediaName := msg_mediaName m;
     msg_mediaSize := msg_mediaSize m;
     msg_mediaDuration := msg_mediaDuration m;
     msg_replyTo := msg_replyTo m; msg_forwardOf := msg_forwardOf m;
     msg_reactions := msg_reactions m; msg_editedAt := editedAt;
     msg_pinnedAt := msg_pinnedAt m; msg_pinnedBy := msg_pinnedBy m;
     msg_starredBy := msg_starredBy m; msg_status := msg_status m;
     msg_deliveredTo := msg_deliveredTo m; msg_readBy := msg_readBy m;
     msg_deletedFor := msg_deletedFor m;
     msg_deletedForAllAt := msg_deletedForAllAt m |}.

(** [msg.deletedForAllAt = new Date(); msg.text = ''; msg.mediaUrl = '';
     msg.mediaName = ''; msg.mediaSize = undefined;] *)
Definition tombstone (now : N) (m : Message) : Message :=
  {| msg_id := msg_id m; msg_chat := msg_chat m; msg_sender := msg_sender m;
     msg_type := msg_type m; msg_text := Some EmptyString;
     msg_mediaUrl := Some EmptyString; msg_mediaName := Some EmptyString;
     msg_mediaSize := None;
     msg_mediaDuration := msg_mediaDuration m;
     msg_replyTo := msg_replyTo m; msg_forwardOf := msg_forwardOf m;
     msg_reactions := msg_reactions m; msg_editedAt := msg_editedAt m;
     msg_pinnedAt := msg_pinnedAt m; msg_pinnedBy := msg_pinnedBy m;
     msg_starredBy := msg_starredBy m; msg_status := msg_status m;
     msg_deliveredTo := msg_deliveredTo m; msg_readBy := msg_readBy m;
     msg_deletedFor := msg_deletedFor m;
     msg_deletedForAllAt := Some now |}.

Definition set_deletedFor (l : list UserId) (m : Message) : Message :=
  {| msg_id := msg_id m; msg_chat := msg_chat m; msg_sender := msg_sender m;
     msg_type := msg_type m; msg_text := msg_text m;
     msg_mediaUrl := msg_mediaUrl m; msg_mediaName := msg_mediaName m;
     msg_mediaSize := msg_mediaSize m;
     msg_mediaDuration := msg_mediaDuration m;
     msg_replyTo := msg_replyTo m; msg_forwardOf := msg_forwardOf m;
     msg_reactions := msg_reactions m; msg_editedAt := msg_editedAt m;
     msg_pinnedAt := msg_pinnedAt m; msg_pinnedBy := msg_pinnedBy m;
     msg_starredBy := msg_starredBy m; msg_status := msg_status m;
     msg_deliveredTo := msg_deliveredTo m; msg_readBy := msg_readBy m;
     msg_deletedFor := l;
     msg_deletedForAllAt := msg_deletedForAllAt m |}.

Definition set_starredBy (l : list UserId) (m : Message) : Message :=
  {| msg_id := msg_id m; msg_chat := msg_chat m; msg_sender := msg_sender m;
     msg_type := msg_type m; msg_text := msg_text m;
     msg_mediaUrl := msg_mediaUrl m; msg_mediaName := msg_mediaName m;
     msg_mediaSize := msg_mediaSize m;
     msg_mediaDuration := msg_mediaDuration m;
     msg_replyTo := msg_replyTo m; msg_forwardOf := msg_forwardOf m;
     msg_reactions := msg_reactions m; msg_editedAt := msg_editedAt m;
     msg_pinnedAt := msg_pinnedAt m; msg_pinnedBy := msg_pinnedBy m;
     msg_starredBy := l; msg_status := msg_status m;
     msg_deliveredTo := msg_deliveredTo m; msg_readBy := msg_readBy m;
     msg_deletedFor := msg_deletedFor m;
     msg_deletedForAllAt := msg_deletedForAllAt m |}.

Definition set_pinned (pinnedAt : option N) (pinnedBy : option UserId)
    (m : Message) : Message :=
  {| msg_id := msg_id m; msg_chat := msg_chat m; msg_sender := msg_sender m;
     msg_type := msg_type m; msg_text := msg_text m;
     msg_mediaUrl := msg_mediaUrl m; msg_mediaName := msg_mediaName m;
     msg_mediaSize := msg_mediaSize m;
     msg_mediaDuration := msg_mediaDuration m;
     msg_replyTo := msg_replyTo m; msg_forwardOf := msg_forwardOf m;
     msg_reactions := msg_reactions m; msg_editedAt := msg_editedAt m;
     msg_pinnedAt := pinnedAt; msg_pinnedBy := pinnedBy;
     msg_starredBy := msg_starredBy m; msg_status := msg_status m;
     msg_deliveredTo := msg_deliveredTo m; msg_readBy := msg_readBy m;
     msg_deletedFor := msg_deletedFor m;
     msg_deletedForAllAt := msg_deletedForAllAt m |}.

(** [s.slice(0, n)], a string being the sequence of its code units. *)
Fixpoint slice_to (n : nat) (s : string) : string :=
  match n, s with
  | S n', String c s' => String c (slice_to n' s')
  | _, _ => EmptyString
  end.

(** The [try] block of [message:edit], after the message was found. *)
Definition message_edit_try (userId : UserId) (text : option string)
    (now : N) (msg : Message) : result Message :=
  throw_if (negb (bool_decide (msg_sender msg = userId)))
    "Only sender can edit";;
  throw_if (negb (bool_decide (msg_type msg = TText)))
    "Only text can be edited";;
  throw_if (bool_decide (is_Some (msg_deletedForAllAt msg)))
    "Message was deleted";;
  Ok (set_text (Some (slice_to 5000 (default EmptyString (truthy text))))
        (Some now) msg).

(** [socket.on('message:edit', async ({ messageId, text }) => {...})] *)
Definition on_message_edit (userId : UserId) (sid : SocketId)
    (messageId : MessageId) (text : option string) (now : N) (st : State)
    : State * list Emit :=
  match messages (store st) !! messageId with
  | None => (st, [])
  | Some msg =>
      match message_edit_try userId text now msg with
      | Ok msg' =>
          let db := save_message messageId msg' (store st) in
          (set_store db st, emitMessageUpdate st db msg')
      | Throw message =>
          (st, io_to_sid sid
                 (ErrorEvent "message:edit"
                    (message_or message "Failed to edit")))
      end
  end.

(** [chat?.isGroup && (chat.admins || []).some(a => String(a) ===
    String(userId))], for the chat of the message; false when the chat is
    missing. *)
Definition is_group_admin (db : Store) (chatId : ChatId) (userId : UserId)
    : bool :=
  match chats db !! chatId with
  | Some chat => chat_isGroup chat && bool_decide (userId ∈ chat_admins chat)
  | None => false
  end.

(** The branch [if (forEveryone)] of [message:delete]. *)
Definition delete_for_everyone_try (db : Store) (userId : UserId) (now : N)
    (msg : Message) : result Message :=
  let isAdmin := is_group_admin db (msg_chat msg) userId in
  let can := bool_decide (msg_sender msg = userId) || isAdmin in
  throw_if (negb can) "Not allowed";;
  Ok (if decide (is_Some (msg_deletedForAllAt msg)) then msg
      else tombstone now msg).

(** [socket.on('message:delete', async ({ messageId, forEveryone }) =>
    {...})] *)
Definition on_message_delete (userId : UserId) (sid : SocketId)
    (messageId : MessageId) (forEveryone : bool) (now : N) (st : State)
    : State * list Emit :=
  match messages (store st) !! messageId with
  | None => (st, [])
  | Some msg =>
      if forEveryone then
        match delete_for_everyone_try (store st) userId now msg with
        | Ok msg' =>
            let db := save_message messageId msg' (store st) in
            (set_store db st, emitMessageUpdate st db msg')
        | Throw message =>
            (st, io_to_sid sid
                   (ErrorEvent "message:delete"
                      (message_or message "Delete failed")))
        end
      else
        let '(msg', db) :=
          if bool_decide (userId ∈ msg_deletedFor msg) then (msg, store st)
          else
            let msg' := set_deletedFor (msg_deletedFor msg ++ [userId]) msg in
            (msg', save_message messageId msg' (store st)) in
        (set_store db st,
         io_to_sid sid (MessageUpdate (hydrateMessageForClient db msg')))
  end.

(** [Array.from(new Set(l))]: the first occurrence of each element, in
    order. *)
Definition set_of_array (l : list string) : list string :=
  foldl (λ set x, if decide (x ∈ set) then set else set ++ [x]) [] l.

(** [set.add(x)] and [set.delete(x)] on such a sequence. *)
Definition set_add (x : string) (set : list string) : list string :=
  if decide (x ∈ set) then set else set ++ [x].

Definition set_delete (x : string) (set : list string) : list string :=
  filter (λ y, y ≠ x) set.

(** [const set = new Set((msg.starredBy || []).map(String));
     star ? set.add(String(userId)) : set.delete(String(userId));
     msg.starredBy = Array.from(set);] *)
Definition toggle_star (userId : UserId) (star : bool)
    (starredBy : list UserId) : list UserId :=
  let set := set_of_array starredBy in
  if star then set_add userId set else set_delete userId set.

(** [socket.on('message:star', async ({ messageId, star }) => {...})] *)
Definition on_message_star (userId : UserId) (messageId : MessageId)
    (star : bool) (st : State) : State * list Emit :=
  match messages (store st) !! messageId with
  | None => (st, [])
  | Some msg =>
      let msg' := set_starredBy (toggle_star userId star (msg_starredBy msg))
                    msg in
      let db := save_message messageId msg' (store st) in
      (set_store db st, emitMessageUpdate st db msg')
  end.

(** [chat?.isGroup ? (chat.admins || []).some(...) : true] *)
Definition may_pin (db : Store) (chatId : ChatId) (userId : UserId) : bool :=
  match chats db !! chatId with
  | Some chat =>
      if chat_isGroup chat then bool_decide (userId ∈ chat_admins chat)
      else true
  | None => true
  end.

(** [socket.on('message:pin', async ({ messageId, pin }) => {...})] *)
Definition on_message_pin (userId : UserId) (sid : SocketId)
    (messageId : MessageId) (pin : bool) (now : N) (st : State)
    : State * list Emit :=
  match messages (store st) !! messageId with
  | None => (st, [])
  | Some msg =>
      if may_pin (store st) (msg_chat msg) userId then
        let msg' :=
          set_pinned (if pin then Some now else None)
            (if pin then Some userId else None) msg in
        let db := save_message messageId msg' (store st) in
        (set_store db st, emitMessageUpdate st db msg')
      else
        (st, io_to_sid sid
               (ErrorEvent "message:pin" (message_or "Admins only"
                                            "Failed to pin")))
  end.

(** [function previewFor(msg)] of the chat list projection. *)
Definition previewFor (msg : option Message) : string :=
  match msg with
  | None => EmptyString
  | Some msg =>
      match msg_type msg with
      | TText => default EmptyString (truthy (msg_text msg))
      | TImage => "Photo"
      | TVideo => "Video"
      | TAudio => "Audio"
      | TFile =>
          match truthy (msg_mediaName msg) with
          | Some name => "File: " +:+ name
          | None => "File"
          end
      end
  end.

(** ** Invariants of the registries and more counting *)

(** The presence registry holds exactly the connected sockets, each under
    its user, and the rooms hold connected sockets only.  This holds of the
    states reached when every listener runs in one piece; [server_ok] below
    is what holds also while a handler waits. *)
Definition registries_ok (st : State) : Prop :=
  (∀ u s, s ∈ Presence.sessionsOf (onlineUsers st) u
          ↔ sockets st !! s = Some u)
  ∧ (∀ name s, s ∈ room_of (rooms st) name → is_Some (sockets st !! s)).

(** The character [_] that [makeId] puts between the clock and the
    suffix. *)
Definition underscore : Ascii.ascii :=
  Ascii.Ascii true true true true true false true false.

(** The character [c] does not occur in the string. *)
Fixpoint no_char (c : Ascii.ascii) (s : string) : Prop :=
  match s with
  | EmptyString => True
  | String a s' => a ≠ c ∧ no_char c s'
  end.

(** Every entry of the call table is filed under its own id. *)
Definition calls_keyed (st : State) : Prop :=
  ∀ id c, activeCalls st !! id = Some c → call_id c = id.

(** How many of the emitted signals that satisfy [select] go to [sid]. *)
Definition signalled (select : SignalEvent → bool) (sid : SocketId)
    (evs : list (SocketId * SignalEvent)) : nat :=
  length (filter (λ e, e.1 = sid ∧ select e.2 = true) evs).

Definition is_typing (ev : SignalEvent) : bool :=
  match ev with
  | Typing _ _ _ => true
  | _ => false
  end.



Definition is_call_left (callId : CallId) (ev : ServerEvent) : bool :=
  match ev with
  | CallLeft id _ => bool_decide (id = callId)
  | _ => false
  end.

Definition is_call_signal (ev : ServerEvent) : bool :=
  match ev with
  | CallSignal _ _ _ => true
  | _ => false
  end.

Definition is_call_rejected (ev : ServerEvent) : bool :=
  match ev with
  | CallRejected _ _ => true
  | _ => false
  end.

Definition is_message_update (id : MessageId) (ev : ServerEvent) : bool :=
  match ev with
  | MessageUpdate out => bool_decide (msg_id (cm_doc out) = id)
  | _ => false
  end.

Definition is_presence (userId : UserId) (online : bool) (ev : ServerEvent)
    : bool :=
  match ev with
  | PresenceUpdate u o => bool_decide (u = userId ∧ o = online)
  | _ => false
  end.

Definition is_any (ev : ServerEvent) : bool := true.

(** ** More sample states *)

Module Scene.

(** The store of [Sample] where [team] lets only admins send, and with a
    picture [m5] of Bob in [team] next to the text [m1]. *)
Definition db_strict : Store :=
  {| chats :=
       <["team" := {| chat_isGroup := true;
                      chat_participants := [Sample.alice; Sample.bob];
                      chat_admins := [Sample.alice];
                      chat_settings :=
                        Some {| onlyAdminsCanMessage := true;
                                onlyAdminsCanEditInfo := true;
                                isPublic := false |};
                      chat_lastMessageAt := None |}]> (chats Sample.db);
     users := users Sample.db;
     messages :=
       <["m5" := new_message "m5" "team" Sample.bob TImage (Some "caption")
                   (Some "/uploads/a.png") (Some "a.png") (Some 10%N) None
                   None None]> (messages Sample.db) |}.

Definition strict_settings : ChatSettings :=
  {| onlyAdminsCanMessage := true; onlyAdminsCanEditInfo := true;
     isPublic := false |}.

Definition strict_team : Chat :=
  {| chat_isGroup := true;
     chat_participants := [Sample.alice; Sample.bob];
     chat_admins := [Sample.alice];
     chat_settings := Some strict_settings;
     chat_lastMessageAt := None |}.

Definition dm : Chat :=
  {| chat_isGroup := false;
     chat_participants := [Sample.alice; Sample.bob];
     chat_admins := []; chat_settings := None;
     chat_lastMessageAt := None |}.

(** The state of [Sample.in_call] over that store. *)
Definition st : State := run [ StoreWrite db_strict ] Sample.in_call.

End Scene.

(** ** Counting what a user receives *)

(** How many of the emitted events that satisfy [select] go to a socket of
    the user, the sockets being those of [st]. *)
Definition received_by_user (select : ServerEvent → bool) (st : State)
    (userId : UserId) (evs : list Emit) : nat :=
  length (filter (λ e, sockets st !! e.1 = Some userId ∧ select e.2 = true)
            evs).

(** The sockets of a set that belong to the user. *)
Definition sockets_of_user (st : State) (userId : UserId)
    (set : gset SocketId) : gset SocketId :=
  filter (λ s, sockets st !! s = Some userId) set.

(** ** The listeners between their awaits *)

(** Three handlers wait for the store before they touch the registries,
    and other listeners run during these waits:

    - [io.on('connection', ...)] registers the socket in [onlineUsers],
      then waits ([await User.findByIdAndUpdate]), and only then emits
      [presence:update] and attaches the listeners of the socket, the
      [disconnect] listener among them.  What a client sends before is not
      heard, and a socket that closes before has no listener to unregister
      it.
    - [socket.on('disconnect', ...)] unregisters the socket, then waits
      ([await User.findByIdAndUpdate]), and only then emits
      [presence:update] and sweeps the calls.
    - [socket.on('call:start', ...)] first waits
      ([await getChatParticipants]), and only then enters the call in
      [activeCalls] and joins its room, whether its socket is still
      connected or not.

    The other listeners touch the registries, the rooms and the calls in
    one piece: [chat:join], [chat:leave] and the other [call:] listeners
    do not wait at all, and the [message:] listeners only read the rooms
    and [onlineUsers], after their last wait, when they emit.

    [on_connection], [on_disconnect] and [on_call_start] above are these
    handlers when nothing happens during the wait.  The server below takes
    the halves as separate steps: [connecting] holds the connection
    handlers that are waiting, by socket; [starting] the user and the
    socket of the [call:start] listeners that are waiting; [closing] the
    users of the [disconnect] listeners that are waiting. *)
Record Server := {
  gateway : State;
  connecting : gmap SocketId UserId;
  starting : list (UserId * SocketId);
  closing : list UserId;
}.

(** [if (!onlineUsers.has(userId)) onlineUsers.set(userId, new Set());
     onlineUsers.get(userId).add(sid);] for a socket the transport has just
    connected. *)
Definition connect_begin (userId : UserId) (sid : SocketId) (st : State)
    : State :=
  let st0 := set_sockets (<[sid := userId]> (sockets st)) st in
  set_onlineUsers (Presence.register userId sid (onlineUsers st0)) st0.

(** [await User.findByIdAndUpdate(userId, { lastSeen: new Date() });
     io.emit('presence:update', { userId, online: true });] *)
Definition connect_end (userId : UserId) (now : N) (st : State)
    : State * list Emit :=
  let st2 := set_store (touch_lastSeen userId now (store st)) st in
  (st2, io_emit (sockets st2) (PresenceUpdate userId true)).

(** The transport closes a socket: it is connected no more and has left
    every room. *)
Definition transport_close (sid : SocketId) (st : State) : State :=
  set_rooms (leave_all sid (rooms st))
    (set_sockets (delete sid (sockets st)) st).

(** [const set = onlineUsers.get(userId); if (set) { set.delete(sid);
     if (set.size === 0) onlineUsers.delete(userId); }] after the transport
    has closed the socket. *)
Definition disconnect_begin (userId : UserId) (sid : SocketId) (st : State)
    : State :=
  let st0 := transport_close sid st in
  set_onlineUsers (Presence.unregister userId sid (onlineUsers st0)) st0.

(** [await User.findByIdAndUpdate(userId, { lastSeen: new Date() });
     io.emit('presence:update', { userId, online: onlineUsers.has(userId) });
     for (const [id, call] of activeCalls.entries()) { ... }] *)
Definition disconnect_end (userId : UserId) (now : N) (st : State)
    : State * list Emit :=
  let st2 := set_store (touch_lastSeen userId now (store st)) st in
  let presence :=
    io_emit (sockets st2)
      (PresenceUpdate userId (Presence.isOnline (onlineUsers st2) userId)) in
  let '(st3, swept) := call_sweep userId st2 in
  (st3, presence ++ swept).

(** The socket an input comes from, or is about. *)
Definition input_socket (i : Input) : option SocketId :=
  match i with
  | Connection _ sid _ | Disconnected sid _ | ChatJoin sid _
  | ChatLeave sid _ | MessageSend sid _ _ _ | MessageDelivered sid _
  | MessageRead sid _ | MessageReact sid _ _ _ | MessageForward sid _ _ _
  | CallStart sid _ _ _ _ _ | CallAccept sid _ | CallReject sid _
  | CallLeave sid _ | CallEnd sid _ | CallSignalTo sid _ _ _ => Some sid
  | StoreWrite _ => None
  end.

(** The sockets found in some room, and those registered for some user. *)
Definition all_joined (rooms : gmap string (gset SocketId))
    : gset SocketId :=
  ⋃ (snd <$> map_to_list rooms).

Definition all_registered (onlineUsers : gmap UserId (gset SocketId))
    : gset SocketId :=
  ⋃ (snd <$> map_to_list onlineUsers).

(** The id of a socket that connects is new to the server: the transport
    draws the ids at random and does not give one twice, so no socket, room,
    registry entry or waiting handler has it. *)
Definition fresh (sv : Server) (sid : SocketId) : Prop :=
  sockets (gateway sv) !! sid = None
  ∧ connecting sv !! sid = None
  ∧ (sid ∉ all_joined (rooms (gateway sv)))
  ∧ (sid ∉ all_registered (onlineUsers (gateway sv)))
  ∧ (sid ∉ snd <$> starting sv).

Global Instance fresh_dec sv sid : Decision (fresh sv sid).
Proof. unfold fresh. apply _. Defined.

(** The input can be taken: a connection has a new id; for the other
    inputs the listeners of the socket are attached, that is, its
    connection handler is not waiting. *)
Definition heard (sv : Server) (i : Input) : bool :=
  match i with
  | Connection _ sid _ => bool_decide (fresh sv sid)
  | _ =>
      match input_socket i with
      | Some sid => bool_decide (connecting sv !! sid = None)
      | None => true
      end
  end.

Inductive Step :=
| Connect (userId : UserId) (sid : SocketId)
| Ready (sid : SocketId) (now : N)
| Drop (sid : SocketId)
| Listen (i : Input)
| StartBegin (sid : SocketId)
| StartEnd (k : nat) (chatId : ChatId) (kind : option string) (now : N)
    (rnd : string) (createdAt : N)
| Close (sid : SocketId)
| Sweep (k : nat) (now : N).

(** One step of the server.
    - [Connect]: a socket with a new id connects and its connection handler
      runs up to its wait.
    - [Ready]: a waiting connection handler resumes, whether its socket is
      still connected or not.
    - [Drop]: the transport closes a socket whose connection handler is
      waiting; no listener runs.
    - [Listen]: an input of the gateway from a socket whose listeners are
      attached, handled in one piece by [handle]; this includes a
      connection, a disconnection and a [call:start] during whose wait
      nothing happens, and, as [StoreWrite], what a [message:] listener
      writes when it resumes after its socket has closed.
    - [StartBegin]: [call:start] arrives from a socket whose listeners are
      attached, and the listener waits.
    - [StartEnd]: the [k]-th waiting [call:start] listener resumes, with the
      user and the socket it was started for.
    - [Close]: the transport closes a socket whose listeners are attached,
      and its [disconnect] listener runs up to its wait.
    - [Sweep]: the [k]-th waiting [disconnect] listener resumes.
    A step that cannot be taken leaves the server as it is. *)
Definition step (a : Step) (sv : Server) : Server * list Emit :=
  match a with
  | Connect userId sid =>
      if decide (fresh sv sid)
      then ({| gateway := connect_begin userId sid (gateway sv);
               connecting := <[sid := userId]> (connecting sv);
               starting := starting sv;
               closing := closing sv |}, [])
      else (sv, [])
  | Ready sid now =>
      match connecting sv !! sid with
      | Some userId =>
          let r := connect_end userId now (gateway sv) in
          ({| gateway := r.1;
              connecting := delete sid (connecting sv);
              starting := starting sv;
              closing := closing sv |}, r.2)
      | None => (sv, [])
      end
  | Drop sid =>
      if decide (is_Some (connecting sv !! sid))
      then ({| gateway := transport_close sid (gateway sv);
               connecting := connecting sv;
               starting := starting sv;
               closing := closing sv |}, [])
      else (sv, [])
  | Listen i =>
      if heard sv i
      then let r := handle i (gateway sv) in
           ({| gateway := r.1;
               connecting := connecting sv;
               starting := starting sv;
               closing := closing sv |}, r.2)
      else (sv, [])
  | StartBegin sid =>
      match sockets (gateway sv) !! sid with
      | Some userId =>
          if decide (connecting sv !! sid = None)
          then ({| gateway := gateway sv;
                   connecting := connecting sv;
                   starting := starting sv ++ [(userId, sid)];
                   closing := closing sv |}, [])
          else (sv, [])
      | None => (sv, [])
      end
  | StartEnd k chatId kind now rnd createdAt =>
      match starting sv !! k with
      | Some (userId, sid) =>
          let r := on_call_start userId sid chatId kind now rnd createdAt
                     (gateway sv) in
          ({| gateway := r.1;
              connecting := connecting sv;
              starting := delete k (starting sv);
              closing := closing sv |}, r.2)
      | None => (sv, [])
      end
  | Close sid =>
      match sockets (gateway sv) !! sid with
      | Some userId =>
          if decide (connecting sv !! sid = None)
          then ({| gateway := disconnect_begin userId sid (gateway sv);
                   connecting := connecting sv;
                   starting := starting sv;
                   closing := closing sv ++ [userId] |}, [])
          else (sv, [])
      | None => (sv, [])
      end
  | Sweep k now =>
      match closing sv !! k with
      | Some userId =>
          let r := disconnect_end userId now (gateway sv) in
          ({| gateway := r.1;
              connecting := connecting sv;
              starting := starting sv;
              closing := delete k (closing sv) |}, r.2)
      | None => (sv, [])
      end
  end.

(** The server at its start, over a store. *)
Definition server_initial (db : Store) : Server :=
  {| gateway := initial db; connecting := ∅; starting := [];
     closing := [] |}.

(** The states the server can be in, the waits included. *)
Inductive server_reachable : Server → Prop :=
| server_reachable_initial db : server_reachable (server_initial db)
| server_reachable_step a sv :
    server_reachable sv → server_reachable (step a sv).1.

(** The server after a sequence of steps, the first one first. *)
Definition steps (l : list Step) (sv : Server) : Server :=
  foldl (λ sv a, (step a sv).1) sv l.

(** The step enters a call under the id [callId]: [makeId()] returns it
    to a [call:start]. *)
Definition step_creates (callId : CallId) (a : Step) : Prop :=
  match a with
  | Listen i => creates callId i
  | StartEnd _ _ _ now rnd _ => makeId now rnd = callId
  | _ => False
  end.

(** The steps by which the user [host] leaves a call or disconnects, each
    with the sockets that are gone from the rooms once it is taken:
    [call:leave] from a socket of the user; the disconnection of a socket of
    the user, its listener running in one piece; the sweep of a waiting
    [disconnect] listener of the user, whose socket has left the rooms when
    the transport closed it. *)
Inductive host_exit (sv : Server) (host : UserId) (callId : CallId)
    : Step → gset SocketId → Prop :=
| exit_leave sid :
    sockets (gateway sv) !! sid = Some host → connecting sv !! sid = None →
    host_exit sv host callId (Listen (CallLeave sid callId)) {[sid]}
| exit_disconnect sid now :
    sockets (gateway sv) !! sid = Some host → connecting sv !! sid = None →
    host_exit sv host callId (Listen (Disconnected sid now)) {[sid]}
| exit_sweep k now :
    closing sv !! k = Some host →
    host_exit sv host callId (Sweep k now) ∅.

(** What an input of the gateway does to the sockets, the presence
    registry and the rooms. *)
Inductive registry_change (i : Input) (st st' : State) : Prop :=
| change_none :
    sockets st' = sockets st → onlineUsers st' = onlineUsers st →
    rooms st' = rooms st → registry_change i st st'
| change_join sid name :
    input_socket i = Some sid → is_Some (sockets st !! sid) →
    sockets st' = sockets st → onlineUsers st' = onlineUsers st →
    rooms st' = socket_join sid name (rooms st) → registry_change i st st'
| change_leave sid name :
    sockets st' = sockets st → onlineUsers st' = onlineUsers st →
    rooms st' = socket_leave sid name (rooms st) → registry_change i st st'
| change_connect userId sid now :
    i = Connection userId sid now → sockets st !! sid = None →
    sockets st' = <[sid := userId]> (sockets st) →
    onlineUsers st' = Presence.register userId sid (onlineUsers st) →
    rooms st' = rooms st → registry_change i st st'
| change_disconnect userId sid :
    sockets st !! sid = Some userId →
    sockets st' = delete sid (sockets st) →
    onlineUsers st' = Presence.unregister userId sid (onlineUsers st) →
    rooms st' = leave_all sid (rooms st) → registry_change i st st'.

(** The table of calls: the host of a call is one of its members, and a
    member other than the host has a connected socket in the room of the
    call, unless the member is excused. *)
Definition calls_ok_upto (excused : UserId → Prop) (st : State) : Prop :=
  ∀ id c, activeCalls st !! id = Some c →
    call_host c ∈ call_members c ∧
    ∀ u, u ∈ call_members c →
      (∃ s, s ∈ room_of (rooms st) (call_room id) ∧ sockets st !! s = Some u)
      ∨ excused u ∨ u = call_host c.

(** What holds of the server at every moment: a connected socket is
    registered under its user; the connection handler of a socket found in
    a room, or of a socket with a waiting [call:start], is not waiting; the
    sockets in the room of a chat are connected; a call is filed under its
    id, its host is a member, and each other member has a socket in its
    room unless a [disconnect] listener of the member is waiting. *)
Definition server_ok (sv : Server) : Prop :=
  let st := gateway sv in
  (∀ s u, sockets st !! s = Some u →
          s ∈ Presence.sessionsOf (onlineUsers st) u)
  ∧ (∀ name s, s ∈ room_of (rooms st) name → connecting sv !! s = None)
  ∧ (∀ chatId s, s ∈ room_of (rooms st) (chat_room chatId) →
                 is_Some (sockets st !! s))
  ∧ (∀ u s, (u, s) ∈ starting sv → connecting sv !! s = None)
  ∧ calls_keyed st
  ∧ calls_ok_upto (λ u, u ∈ closing sv) st.

(** ** Sample runs of the server *)

Module Run.

Definition start : Server := server_initial Sample.db.

(** A socket [s9] of Alice closes while its connection handler waits. *)
Definition ghost : Server :=
  steps [ Connect Sample.alice "s9"; Drop "s9"; Ready "s9" 2%N ] start.

(** ... and later Alice connects with [s1] and disconnects. *)
Definition after_ghost : Server :=
  steps [ Connect Sample.alice "s1"; Ready "s1" 3%N; Close "s1";
          Sweep 0 4%N ] ghost.

(** Alice on [s1] and Bob on [s2] are in a call in [dm] that Alice has
    started. *)
Definition in_call : Server :=
  steps [ Connect Sample.alice "s1"; Ready "s1" 1%N;
          Connect Sample.bob "s2"; Ready "s2" 2%N;
          Listen (CallStart "s1" "dm" None 7%N "abc" 7%N);
          Listen (CallAccept "s2" "call_7_abc") ]
    start.

(** ... and the transport has closed [s1]. *)
Definition alice_closing : Server := steps [ Close "s1" ] in_call.

(** Alice on [s1] and Bob on [s2] are in a call in [dm], and the transport
    has closed [s2]. *)
Definition bob_closing : Server :=
  steps [ Connect Sample.alice "s1"; Ready "s1" 1%N;
          Connect Sample.bob "s2"; Ready "s2" 2%N;
          Listen (ChatJoin "s1" "team");
          Listen (CallStart "s1" "dm" None 7%N "abc" 7%N);
          Listen (CallAccept "s2" "call_7_abc");
          Close "s2" ]
    start.

(** Alice sends [call:start] from [s1]; the socket closes and its
    [disconnect] listener finishes while the [call:start] listener
    waits. *)
Definition orphan : Server :=
  steps [ Connect Sample.alice "s1"; Ready "s1" 1%N;
          StartBegin "s1"; Close "s1"; Sweep 0 2%N;
          StartEnd 0 "dm" None 7%N "abc" 7%N ]
    start.

(** Bob has accepted the call of [Sample.in_call] from a second device
    [s5] as well. *)
Definition two_devices : State :=
  run [ Connection Sample.bob "s5" 5%N; CallAccept "s5" "call_7_abc" ]
    Sample.in_call.

End Run.

(** * Properties *)

(** ** Presence *)

Section presence_facts.
Import Presence.
Implicit Types reg : gmap string (gset string).

Lemma register_lookup u s reg u' :
  register u s reg !! u' =
    if decide (u = u') then Some (sessionsOf reg u ∪ {[s]}) else reg !! u'.
Proof.
  unfold register, sessionsOf.
  destruct (decide (is_Some (reg !! u))) as [[set Hset]|Hnone].
  - rewrite lookup_alter. case_decide; subst; by rewrite ?Hset.
  - apply eq_None_not_Some in Hnone.
    rewrite lookup_alter. case_decide; subst.
    + by rewrite lookup_insert_eq, Hnone.
    + by rewrite lookup_insert_ne.
Qed.

Lemma unregister_lookup u s reg u' :
  unregister u s reg !! u' =
    if decide (u = u') then
      match reg !! u with
      | Some set => if decide (set ∖ {[s]} = ∅) then None
                    else Some (set ∖ {[s]})
      | None => None
      end
    else reg !! u'.
Proof.
  unfold unregister.
  destruct (reg !! u) as [set|] eqn:Hset.
  - destruct (decide (size (set ∖ {[s]}) = 0)) as [Hz|Hnz].
    + apply size_empty_inv in Hz. apply leibniz_equiv in Hz.
      case_decide; subst.
      * rewrite lookup_delete_eq. by rewrite decide_True.
      * by rewrite lookup_delete_ne, lookup_insert_ne.
    + case_decide; subst.
      * rewrite lookup_insert_eq. rewrite decide_False; [done|].
        intros He. apply Hnz. rewrite He. apply size_empty.
      * by rewrite lookup_insert_ne.
  - case_decide; subst; [by rewrite Hset|done].
Qed.

Lemma register_no_empty u s reg :
  no_empty_entry reg → no_empty_entry (register u s reg).
Proof.
  intros Hinv u' set. rewrite register_lookup.
  case_decide; [|by apply Hinv].
  intros [= <-]. set_solver.
Qed.

Lemma unregister_no_empty u s reg :
  no_empty_entry reg → no_empty_entry (unregister u s reg).
Proof.
  intros Hinv u' set. rewrite unregister_lookup.
  case_decide; [|by apply Hinv].
  destruct (reg !! u); [|done].
  case_decide; [done|]. by intros [= <-].
Qed.

Lemma run_no_empty evs reg :
  no_empty_entry reg → no_empty_entry (run evs reg).
Proof.
  revert reg. induction evs as [|e evs IH]; intros reg Hinv; [done|].
  apply IH. destruct e; [by apply register_no_empty|by apply unregister_no_empty].
Qed.

Lemma empty_no_empty : no_empty_entry ∅.
Proof. intros u set. by rewrite lookup_empty. Qed.

Lemma online_iff_sessions reg u :
  no_empty_entry reg → isOnline reg u = true ↔ sessionsOf reg u ≠ ∅.
Proof.
  intros Hinv. unfold isOnline, sessionsOf.
  rewrite bool_decide_eq_true.
  destruct (reg !! u) as [set|] eqn:Hset; simpl.
  - split; [intros _; by eapply Hinv|by eauto].
  - split; [by intros [? ?]|done].
Qed.

End presence_facts.

(** ** Delivery status *)

Section status_facts.
Implicit Types (m : Message) (u : UserId) (a : Ack).









End status_facts.

(** ** Reactions *)

Section reaction_facts.
Implicit Types (rs : list Reaction) (u : UserId) (e : string) (t : N).

Lemma toggle_reaction_absent u e t rs :
  list_find (reacted u e) rs = None →
  toggle_reaction u e t rs
    = rs ++ [{| r_emoji := e; r_by := u; r_at := t |}].
Proof. unfold toggle_reaction. by intros ->. Qed.

Lemma toggle_reaction_present u e t rs i r :
  list_find (reacted u e) rs = Some (i, r) →
  toggle_reaction u e t rs = delete i rs.
Proof. unfold toggle_reaction. by intros ->. Qed.

(** Toggling a reaction that was not there, then toggling again. *)
Lemma toggle_twice_absent u e t1 t2 rs :
  list_find (reacted u e) rs = None →
  toggle_reaction u e t2 (toggle_reaction u e t1 rs) = rs.
Proof.
  intros Hnone. rewrite (toggle_reaction_absent _ _ t1) by done.
  set (new := {| r_emoji := e; r_by := u; r_at := t1 |}).
  assert (list_find (reacted u e) (rs ++ [new]) = Some (length rs, new))
    as Hfind.
  { rewrite list_find_app_r by done. simpl.
    rewrite decide_True by done. done. }
  rewrite (toggle_reaction_present _ _ _ _ _ _ Hfind).
  rewrite delete_middle. apply app_nil_r.
Qed.

(** Toggling a reaction that was there once, then toggling again: the
    entry goes to the end, with the time of the second toggle. *)
Lemma toggle_twice_present u e t1 t2 rs i r :
  list_find (reacted u e) rs = Some (i, r) →
  length (filter (reacted u e) rs) ≤ 1 →
  toggle_reaction u e t2 (toggle_reaction u e t1 rs)
    = delete i rs ++ [{| r_emoji := e; r_by := u; r_at := t2 |}].
Proof.
  intros Hfind Hone.
  rewrite (toggle_reaction_present _ _ _ _ _ _ Hfind).
  apply toggle_reaction_absent.
  apply list_find_Some in Hfind as (Hi & Hr & Hleast).
  rewrite <-(take_drop_middle rs i r Hi) in Hone.
  rewrite filter_app, filter_cons_True, length_app in Hone by done.
  simpl in Hone.
  rewrite delete_take_drop. apply list_find_app_None. split.
  - apply list_find_None, Forall_lookup. intros j y Hj.
    apply lookup_take_Some in Hj as [Hj Hlt]. by eapply Hleast.
  - apply list_find_None, Forall_forall. intros y Hy Hp.
    assert (y ∈ filter (reacted u e) (drop (S i) rs)) as Hin
      by (by apply list_elem_of_filter).
    destruct (filter (reacted u e) (drop (S i) rs)); [|simpl in Hone; lia].
    by apply not_elem_of_nil in Hin.
Qed.

(** The listener never leaves two entries of one user with one emoji. *)
Lemma toggle_reaction_at_most_one u e t rs u' e' :
  length (filter (reacted u' e') rs) ≤ 1 →
  length (filter (reacted u' e') (toggle_reaction u e t rs)) ≤ 1.
Proof.
  intros Hone. unfold toggle_reaction.
  destruct (list_find _ rs) as [[i r]|] eqn:Hfind.
  - apply list_find_Some in Hfind as (Hi & _ & _).
    rewrite <-(take_drop_middle rs i r Hi) in Hone.
    rewrite delete_take_drop.
    rewrite filter_app, filter_cons, length_app in Hone.
    rewrite filter_app, length_app.
    case_decide; simpl in Hone; lia.
  - rewrite filter_app, length_app.
    destruct (decide (reacted u' e' {| r_emoji := e; r_by := u; r_at := t |}))
      as [[Hu He]|Hno]; simpl in *.
    + subst u' e'. apply list_find_None in Hfind.
      assert (filter (reacted u e) rs = []) as ->.
      { clear Hone. induction Hfind as [|x l Hx _ IH]; [done|].
        rewrite filter_cons_False; [exact IH|exact Hx]. }
      rewrite filter_cons_True by done. simpl. lia.
    + rewrite filter_cons_False by done. simpl. lia.
Qed.

Lemma on_message_react_stored u id e t st m :
  e ≠ EmptyString →
  messages (store st) !! id = Some m →
  messages (store (on_message_react u id (Some e) t st).1) !! id
    = Some (set_reactions (toggle_reaction u e t (msg_reactions m)) m).
Proof.
  intros He Hm. unfold on_message_react.
  destruct e; [done|]. simpl. rewrite Hm. simpl. by rewrite lookup_insert_eq.
Qed.

Lemma on_message_react_empty u id t st :
  on_message_react u id (Some EmptyString) t st = (st, []).
Proof. done. Qed.

Lemma set_reactions_same m rs :
  msg_reactions m = rs → set_reactions rs m = m.
Proof. intros <-. by destruct m. Qed.

Lemma set_reactions_twice m rs rs' :
  set_reactions rs (set_reactions rs' m) = set_reactions rs m.
Proof. done. Qed.

(** C8, as the code has it — toggling twice.  When a user sends
    [message:react] twice in a row with the same emoji on a message on which
    that user has at most one reaction with that emoji, the message
    afterwards has the same (emoji, user) reactions as before, up to their
    order.  When the user had no such reaction, the message is exactly as
    before; when the user had one, it has been removed from its place and a
    new one, with the time of the second toggle, is at the end. *)
Theorem react_twice (u : UserId) (id : MessageId) (e : string) (t1 t2 : N)
    (st : State) (m : Message) :
  messages (store st) !! id = Some m →
  length (filter (reacted u e) (msg_reactions m)) ≤ 1 →
  let st1 := (on_message_react u id (Some e) t1 st).1 in
  let st2 := (on_message_react u id (Some e) t2 st1).1 in
  ∃ m2, messages (store st2) !! id = Some m2
    ∧ reaction_key <$> msg_reactions m2 ≡ₚ reaction_key <$> msg_reactions m
    ∧ match list_find (reacted u e) (msg_reactions m) with
      | None => m2 = m
      | Some (i, _) =>
          e ≠ EmptyString →
          msg_reactions m2
            = delete i (msg_reactions m)
              ++ [{| r_emoji := e; r_by := u; r_at := t2 |}]
      end.
Proof.
  intros Hm Hone st1 st2. subst st1 st2.
  destruct (decide (e = EmptyString)) as [->|He].
  { rewrite !on_message_react_empty. simpl. exists m. split_and!; [done..|].
    by destruct (list_find _ _) as [[i r]|]. }
  pose proof (on_message_react_stored u id e t1 st m He Hm) as Hm1.
  pose proof (on_message_react_stored u id e t2 _ _ He Hm1) as Hm2.
  eexists. split; [exact Hm2|]. simpl.
  destruct (list_find (reacted u e) (msg_reactions m)) as [[i r]|] eqn:Hfind.
  - rewrite (toggle_twice_present _ _ _ _ _ _ _ Hfind Hone).
    split; [|done].
    apply list_find_Some in Hfind as (Hi & [Hu Hr] & _).
    rewrite delete_take_drop.
    rewrite <-(take_drop_middle _ i r Hi) at 3.
    rewrite !fmap_app, fmap_cons. simpl.
    assert (reaction_key r = (e, u)) as ->
      by (unfold reaction_key; congruence).
    rewrite <-app_assoc.
    apply Permutation_app_head. symmetry. apply Permutation_cons_append.
  - rewrite (toggle_twice_absent _ _ _ _ _ Hfind).
    split; [done|]. rewrite set_reactions_twice. by apply set_reactions_same.
Qed.

(** C8, as stated, fails: Alice and Bob have reacted with the same emoji, in
    that order; after Alice has toggled hers twice the list has Bob first,
    and Alice's entry carries the time of the second toggle. *)
Lemma react_twice_not_restored :
  let st1 := (on_message_react Sample.alice "m1" (Some "like") 30%N Sample.st).1 in
  let st2 := (on_message_react Sample.alice "m1" (Some "like") 40%N st1).1 in
  msg_reactions <$> messages (store Sample.st) !! "m1" = Some Sample.liked
  ∧ msg_reactions <$> messages (store st2) !! "m1"
      = Some [ {| r_emoji := "like"; r_by := Sample.bob; r_at := 20%N |};
               {| r_emoji := "like"; r_by := Sample.alice; r_at := 40%N |} ]
  ∧ msg_reactions <$> messages (store st2) !! "m1"
      ≠ msg_reactions <$> messages (store Sample.st) !! "m1".
Proof. vm_compute. split_and!; [done|done|discriminate]. Qed.

Lemma react_twice_witness :
  messages (store Sample.st) !! "m1"
    = Some (Sample.text_message "m1" "team" Sample.bob "hello" Sample.liked)
  ∧ ∃ m2,
      messages
        (store (on_message_react Sample.alice "m1" (Some "like") 40%N
                  (on_message_react Sample.alice "m1" (Some "like") 30%N
                     Sample.st).1).1) !! "m1" = Some m2
      ∧ reaction_key <$> msg_reactions m2
          ≡ₚ reaction_key <$> Sample.liked.
Proof.
  split; [by vm_compute|].
  destruct (react_twice Sample.alice "m1" "like" 30%N 40%N Sample.st
              (Sample.text_message "m1" "team" Sample.bob "hello" Sample.liked))
    as (m2 & Hm2 & Hperm & _).
  - by vm_compute.
  - vm_compute. lia.
  - exists m2. split; [exact Hm2|exact Hperm].
Defined.

End reaction_facts.

(** ** Emissions *)

Section emission_facts.
Implicit Types (select : ServerEvent → bool) (s sid : SocketId).
Implicit Types (evs : list (string * ServerEvent)) (target : gset string).

Lemma received_app select s evs1 evs2 :
  received select s (evs1 ++ evs2)
    = received select s evs1 + received select s evs2.
Proof. unfold received. by rewrite filter_app, length_app. Qed.

Lemma received_nil select s : received select s [] = 0.
Proof. done. Qed.

Lemma received_perm select s evs1 evs2 :
  evs1 ≡ₚ evs2 → received select s evs1 = received select s evs2.
Proof. unfold received. by intros ->. Qed.

Lemma received_io_to_sid select s sid ev :
  received select s (io_to_sid sid ev)
    = if decide (sid = s ∧ select ev = true) then 1 else 0.
Proof.
  unfold received, io_to_sid. rewrite filter_cons. simpl.
  by repeat case_decide.
Qed.

Lemma received_fmap_not select s ev (l : list string) :
  s ∉ l ∨ select ev = false →
  received select s ((λ rsid, (rsid, ev)) <$> l) = 0.
Proof.
  intros Hno. unfold received.
  induction l as [|x l IH]; [done|].
  rewrite fmap_cons, filter_cons. simpl.
  rewrite decide_False.
  - apply IH. destruct Hno as [Hno|Hno]; [left|by right].
    by apply not_elem_of_cons in Hno as [_ ?].
  - intros [-> Hsel]. destruct Hno as [Hno|Hno]; [|congruence].
    apply Hno. by left.
Qed.

Lemma received_fmap_once select s ev (l : list string) :
  NoDup l → s ∈ l → select ev = true →
  received select s ((λ rsid, (rsid, ev)) <$> l) = 1.
Proof.
  intros Hnd Hin Hsel. induction Hnd as [|x l Hx Hnd IH].
  { by apply not_elem_of_nil in Hin. }
  unfold received. rewrite fmap_cons, filter_cons. simpl.
  apply elem_of_cons in Hin as [->|Hin].
  - rewrite decide_True by done. simpl. f_equal.
    apply (received_fmap_not select x ev l). by left.
  - rewrite decide_False.
    + by apply IH.
    + intros [-> _]. done.
Qed.

(** An emission to the members of a set reaches each of them once. *)
Lemma received_emit_each select s target ev :
  received select s (emit_each target ev)
    = if decide (s ∈ target ∧ select ev = true) then 1 else 0.
Proof.
  unfold emit_each. case_decide as Hc.
  - destruct Hc as [Hin Hsel].
    apply received_fmap_once; [|by apply elem_of_elements|done].
    apply NoDup_elements.
  - apply received_fmap_not.
    destruct (select ev) eqn:Hsel; [left|by right].
    rewrite elem_of_elements. intros Hin. by apply Hc.
Qed.

Lemma chat_room_ne_call_room chatId callId :
  chat_room chatId ≠ call_room callId.
Proof. unfold chat_room, call_room. cbn. intros [=]. Qed.

Lemma call_room_inj callId callId' :
  call_room callId = call_room callId' → callId = callId'.
Proof. unfold call_room. cbn. by intros [=]. Qed.

Lemma room_of_join sid name rooms name' :
  room_of (socket_join sid name rooms) name'
    = if decide (name = name') then room_of rooms name ∪ {[sid]}
      else room_of rooms name'.
Proof.
  unfold socket_join, room_of at 1. rewrite lookup_insert.
  by case_decide; subst.
Qed.

Lemma room_of_leave sid name rooms name' :
  room_of (socket_leave sid name rooms) name'
    = if decide (name = name') then room_of rooms name ∖ {[sid]}
      else room_of rooms name'.
Proof.
  unfold socket_leave, room_of at 1. rewrite lookup_insert.
  by case_decide; subst.
Qed.

Lemma room_of_leave_all sid rooms name :
  room_of (leave_all sid rooms) name = room_of rooms name ∖ {[sid]}.
Proof.
  unfold leave_all, room_of. rewrite lookup_fmap.
  destruct (rooms !! name); simpl; [done|set_solver].
Qed.

End emission_facts.

(** ** Delivery status: the property *)

Section status_claim.
Implicit Types (m : Message) (u : UserId) (a : Ack).





End status_claim.

(** ** Calls: an id that is not in [activeCalls] *)

Section unknown_call.
Context (st : State) (callId : CallId).
Hypothesis Hunknown : activeCalls st !! callId = None.

Lemma on_call_accept_unknown userId sid :
  on_call_accept userId sid callId st
    = (st, [(sid, CallError "Call not found")]).
Proof using Hunknown.
  unfold on_call_accept, call_accept_try. by rewrite Hunknown.
Qed.

Lemma on_call_reject_unknown userId :
  on_call_reject userId callId st = (st, []).
Proof using Hunknown. unfold on_call_reject. by rewrite Hunknown. Qed.

Lemma on_call_leave_unknown userId sid :
  on_call_leave userId sid callId st = (st, []).
Proof using Hunknown. unfold on_call_leave. by rewrite Hunknown. Qed.

Lemma on_call_end_unknown userId :
  on_call_end userId callId st = (st, []).
Proof using Hunknown. unfold on_call_end. by rewrite Hunknown. Qed.

Lemma on_call_signal_unknown userId toUserId data :
  on_call_signal userId callId toUserId data st = (st, []).
Proof using Hunknown. unfold on_call_signal. by rewrite Hunknown. Qed.

End unknown_call.

(** C6, as the code has it — operations on an unknown call id.  When the
    call id is not in the table of active calls, each of accept, reject,
    leave, end and signal returns normally and leaves the whole state as it
    is (the registries, the rooms, the store and the set of connected
    sockets).  Accept reports the error to the invoking socket, as one
    [call:error] event with the message "Call not found"; reject, leave,
    end and signal emit nothing at all. *)
Theorem unknown_call_is_noop (st : State) (callId : CallId)
    (userId : UserId) (sid : SocketId) (toUserId : UserId) (data : string) :
  activeCalls st !! callId = None →
  on_call_accept userId sid callId st
    = (st, [(sid, CallError "Call not found")])
  ∧ on_call_reject userId callId st = (st, [])
  ∧ on_call_leave userId sid callId st = (st, [])
  ∧ on_call_end userId callId st = (st, [])
  ∧ on_call_signal userId callId toUserId data st = (st, []).
Proof.
  intros Hunknown. split_and!.
  - by apply on_call_accept_unknown.
  - by apply on_call_reject_unknown.
  - by apply on_call_leave_unknown.
  - by apply on_call_end_unknown.
  - by apply on_call_signal_unknown.
Qed.

(** C6, as stated, fails: Alice's socket sends [call:leave] (and likewise
    [call:end], [call:signal], [call:reject]) with an id that no call has;
    nothing is emitted, so no error is reported to that socket. *)
Lemma unknown_call_leave_reports_nothing :
  activeCalls Sample.st !! "call_0_none" = None
  ∧ (handle (CallLeave "s1" "call_0_none") Sample.st).2 = []
  ∧ (handle (CallEnd "s1" "call_0_none") Sample.st).2 = []
  ∧ (handle (CallSignalTo "s1" "call_0_none" Sample.bob "offer") Sample.st).2
      = []
  ∧ received is_error "s1"
      (handle (CallLeave "s1" "call_0_none") Sample.st).2 = 0.
Proof. by vm_compute. Qed.

Lemma unknown_call_is_noop_witness :
  activeCalls Sample.st !! "call_0_none" = None
  ∧ on_call_accept Sample.alice "s1" "call_0_none" Sample.st
      = (Sample.st, [("s1", CallError "Call not found")])
  ∧ on_call_leave Sample.alice "s1" "call_0_none" Sample.st = (Sample.st, []).
Proof.
  split; [by vm_compute|].
  destruct (unknown_call_is_noop Sample.st "call_0_none" Sample.alice "s1"
              Sample.bob "offer") as (Ha & _ & Hl & _).
  - by vm_compute.
  - by split.
Defined.

(** ** Listeners that only write to the store *)

Section store_only.

(** Unfolds the binds of a [try] block, one case per possible throw. *)
Ltac try_cases :=
  repeat match goal with
    | |- context [mbind _ ?r] =>
        let H := fresh "Hr" in
        destruct r eqn:H; unfold mbind at 1, result_bind at 1; cbn beta iota
    | |- context [match ?r with Ok _ => _ | Throw _ => _ end] =>
        let H := fresh "Hr" in destruct r eqn:H
    end.

Lemma same_registries_refl st : same_registries st st.
Proof. done. Qed.

Lemma same_registries_set_store db st : same_registries st (set_store db st).
Proof. done. Qed.

Lemma on_message_send_registries userId sid p newId now st :
  same_registries st (on_message_send userId sid p newId now st).1.
Proof.
  unfold on_message_send, message_send_try.
  try_cases; simpl; done.
Qed.

Lemma on_message_ack_registries change messageId st :
  same_registries st (on_message_ack change messageId st).1.
Proof. unfold on_message_ack. by destruct (messages _ !! _). Qed.

Lemma on_message_react_registries userId messageId emoji now st :
  same_registries st (on_message_react userId messageId emoji now st).1.
Proof.
  unfold on_message_react.
  destruct (truthy emoji); [|done]. by destruct (messages _ !! _).
Qed.

Lemma on_message_forward_registries userId sid messageId toChatId newId st :
  same_registries st
    (on_message_forward userId sid messageId toChatId newId st).1.
Proof.
  unfold on_message_forward, message_forward_try.
  try_cases; simpl; done.
Qed.

End store_only.

(** ** Presence in the gateway *)

Section presence_gateway.

Lemma no_empty_same_registries st st' :
  same_registries st st' →
  Presence.no_empty_entry (onlineUsers st) →
  Presence.no_empty_entry (onlineUsers st').
Proof. by intros (_ & -> & _). Qed.

Lemma handle_no_empty i st :
  Presence.no_empty_entry (onlineUsers st) →
  Presence.no_empty_entry (onlineUsers (handle i st).1).
Proof.
  intros Hinv. destruct i; simpl; unfold with_socket;
    try (destruct (sockets st !! sid) as [userId|] eqn:Hsid; [|done]).
  - case_decide; [done|]. simpl. by apply register_no_empty.
  - simpl. by apply unregister_no_empty.
  - done.
  - done.
  - eapply no_empty_same_registries; [apply on_message_send_registries|done].
  - eapply no_empty_same_registries; [apply on_message_ack_registries|done].
  - eapply no_empty_same_registries; [apply on_message_ack_registries|done].
  - eapply no_empty_same_registries; [apply on_message_react_registries|done].
  - eapply no_empty_same_registries; [apply on_message_forward_registries|done].
  - unfold on_call_start, call_start_try, getChatParticipants.
    destruct (chats (store st) !! chatId) as [chat|]; simpl; [|done].
    by destruct (bool_decide (userId ∈ chat_participants chat)).
  - unfold on_call_accept, call_accept_try.
    by destruct (activeCalls st !! callId).
  - unfold on_call_reject. by destruct (activeCalls st !! callId).
  - unfold on_call_leave.
    destruct (activeCalls st !! callId); [|done]. simpl. by case_decide.
  - unfold on_call_end.
    destruct (activeCalls st !! callId); [|done]. by case_decide.
  - unfold on_call_signal. by destruct (activeCalls st !! callId).
  - done.
Qed.

Lemma gateway_run_no_empty inputs st :
  Presence.no_empty_entry (onlineUsers st) →
  Presence.no_empty_entry (onlineUsers (run inputs st)).
Proof.
  revert st. induction inputs as [|i inputs IH]; intros st Hinv; [done|].
  simpl. by apply IH, handle_no_empty.
Qed.

(** C2 — presence invariant.  Starting from the empty registry, after any
    sequence of connections and disconnections (of any sessions of any
    users, in any order), a user is reported online exactly when the set
    of the sessions registered for that user is not empty.  The same holds
    in the gateway after any sequence of inputs, whatever the clients send
    between the connections and the disconnections. *)
Theorem presence_invariant (evs : list Presence.event) (inputs : list Input)
    (db : Store) (U : UserId) :
  (Presence.isOnline (Presence.run evs ∅) U = true
   ↔ Presence.sessionsOf (Presence.run evs ∅) U ≠ ∅)
  ∧ (Presence.isOnline (onlineUsers (run inputs (initial db))) U = true
     ↔ Presence.sessionsOf (onlineUsers (run inputs (initial db))) U ≠ ∅).
Proof.
  split.
  - apply online_iff_sessions, run_no_empty, empty_no_empty.
  - apply online_iff_sessions, gateway_run_no_empty, empty_no_empty.
Qed.

End presence_gateway.

(** ** Calls: the invariant of the table *)

Section calls_invariant.
Implicit Types (st : State) (u userId : UserId) (s sid : SocketId).

Lemma calls_ok_same_registries st st' :
  same_registries st st' → calls_ok st → calls_ok st'.
Proof.
  intros (Hs & _ & Hr & Hc) Hok id c. rewrite Hc, Hr, Hs. apply Hok.
Qed.

Lemma calls_ok_initial db : calls_ok (initial db).
Proof. intros id c. simpl. by rewrite lookup_empty. Qed.

Lemma calls_ok_connection userId sid now st :
  sockets st !! sid = None →
  calls_ok st → calls_ok (on_connection userId sid now st).1.
Proof.
  intros Hfresh Hok id c Hc. simpl in *.
  destruct (Hok id c Hc) as [Hhost Hmem]. split; [done|].
  intros u Hu. destruct (Hmem u Hu) as (s & Hs & Hsock).
  exists s. split; [done|].
  rewrite lookup_insert_ne; [done|]. intros ->. congruence.
Qed.

Lemma on_disconnect_state userId sid now st :
  let st' := (on_disconnect userId sid now st).1 in
  sockets st' = delete sid (sockets st)
  ∧ onlineUsers st' = Presence.unregister userId sid (onlineUsers st)
  ∧ rooms st' = leave_all sid (rooms st)
  ∧ activeCalls st' = omap (sweep_call userId) (activeCalls st).
Proof. done. Qed.

Lemma calls_ok_disconnect userId sid now st :
  sockets st !! sid = Some userId →
  calls_ok st → calls_ok (on_disconnect userId sid now st).1.
Proof.
  intros Hsid Hok id c'.
  destruct (on_disconnect_state userId sid now st) as (-> & _ & -> & ->).
  rewrite lookup_omap.
  destruct (activeCalls st !! id) as [c|] eqn:Hc; simpl; [|done].
  destruct (Hok id c Hc) as [Hhost Hmem].
  assert (∀ u, u ∈ call_members c → u ≠ userId →
            ∃ s, s ∈ room_of (leave_all sid (rooms st)) (call_room id)
                 ∧ delete sid (sockets st) !! s = Some u) as Hkeep.
  { intros u Hu Hne. destruct (Hmem u Hu) as (s & Hs & Hsock).
    assert (s ≠ sid) by (intros ->; congruence).
    exists s. rewrite room_of_leave_all, lookup_delete_ne by done.
    split; [set_solver|done]. }
  unfold sweep_call. case_decide as Hin.
  - case_decide as Hend; [done|]. intros [= <-]. simpl in *.
    split.
    + apply elem_of_difference. split; [done|].
      rewrite elem_of_singleton. intros Hh. apply Hend. by left.
    + intros u [Hu Hne%not_elem_of_singleton]%elem_of_difference. by apply Hkeep.
  - intros [= <-]. split; [done|].
    intros u Hu. apply Hkeep; [done|]. by intros ->.
Qed.

Lemma calls_ok_chat_join sid chatId st :
  calls_ok st → calls_ok (on_chat_join sid chatId st).1.
Proof.
  intros Hok id c Hc. simpl in *. rewrite room_of_join.
  rewrite decide_False by apply chat_room_ne_call_room. by apply Hok.
Qed.

Lemma calls_ok_chat_leave sid chatId st :
  calls_ok st → calls_ok (on_chat_leave sid chatId st).1.
Proof.
  intros Hok id c Hc. simpl in *. rewrite room_of_leave.
  rewrite decide_False by apply chat_room_ne_call_room. by apply Hok.
Qed.

Lemma calls_ok_call_start userId sid chatId kind now rnd createdAt st :
  sockets st !! sid = Some userId →
  calls_ok st →
  calls_ok (on_call_start userId sid chatId kind now rnd createdAt st).1.
Proof.
  intros Hsid Hok. unfold on_call_start, call_start_try, getChatParticipants.
  destruct (chats (store st) !! chatId) as [chat|]; simpl; [|done].
  destruct (bool_decide (userId ∈ chat_participants chat)); simpl; [|done].
  intros id c. simpl. rewrite lookup_insert, room_of_join.
  case_decide as Hid.
  - intros [= <-]. simpl. rewrite decide_True by (by rewrite Hid).
    split; [set_solver|].
    intros u ->%elem_of_singleton. exists sid. split; [set_solver|done].
  - intros Hc. rewrite decide_False by (by intros ?%call_room_inj).
    by apply Hok.
Qed.

Lemma calls_ok_call_accept userId sid callId st :
  sockets st !! sid = Some userId →
  calls_ok st → calls_ok (on_call_accept userId sid callId st).1.
Proof.
  intros Hsid Hok. unfold on_call_accept, call_accept_try.
  destruct (activeCalls st !! callId) as [c0|] eqn:Hc0; simpl; [|done].
  destruct (Hok callId c0 Hc0) as [Hhost Hmem].
  intros id c. simpl. rewrite lookup_insert, room_of_join.
  case_decide as Hid.
  - intros [= <-]. simpl. subst id. rewrite decide_True by done.
    split; [set_solver|].
    intros u [Hu| ->%elem_of_singleton]%elem_of_union.
    + destruct (Hmem u Hu) as (s & Hs & Hsock). exists s. split; [set_solver|done].
    + exists sid. split; [set_solver|done].
  - intros Hc. rewrite decide_False by (by intros ?%call_room_inj).
    by apply Hok.
Qed.

Lemma calls_ok_call_leave userId sid callId st :
  sockets st !! sid = Some userId →
  calls_ok st → calls_ok (on_call_leave userId sid callId st).1.
Proof.
  intros Hsid Hok. unfold on_call_leave.
  destruct (activeCalls st !! callId) as [c0|] eqn:Hc0; simpl; [|done].
  destruct (Hok callId c0 Hc0) as [Hhost Hmem].
  case_decide as Hend; intros id c; simpl.
  - rewrite lookup_delete, room_of_leave.
    case_decide as Hid; [done|]. rewrite lookup_insert_ne by done.
    intros Hc. rewrite decide_False by (by intros ?%call_room_inj).
    by apply Hok.
  - rewrite lookup_insert, room_of_leave.
    case_decide as Hid.
    + intros [= <-]. simpl. subst id. rewrite decide_True by done.
      split.
      * apply elem_of_difference. split; [done|].
        rewrite elem_of_singleton. intros Hh. apply Hend. by left.
      * intros u [Hu Hne%not_elem_of_singleton]%elem_of_difference.
        destruct (Hmem u Hu) as (s & Hs & Hsock).
        assert (s ≠ sid) by (intros ->; congruence).
        exists s. split; [set_solver|done].
    + intros Hc. rewrite decide_False by (by intros ?%call_room_inj).
      by apply Hok.
Qed.

Lemma calls_ok_call_end userId callId st :
  calls_ok st → calls_ok (on_call_end userId callId st).1.
Proof.
  intros Hok. unfold on_call_end.
  destruct (activeCalls st !! callId) as [c0|] eqn:Hc0; simpl; [|done].
  case_decide; [done|]. intros id c. simpl. rewrite lookup_delete.
  case_decide; [done|]. by apply Hok.
Qed.

Lemma on_call_reject_state userId callId st :
  (on_call_reject userId callId st).1 = st.
Proof. unfold on_call_reject. by destruct (activeCalls st !! callId). Qed.

Lemma on_call_signal_state userId callId toUserId data st :
  (on_call_signal userId callId toUserId data st).1 = st.
Proof. unfold on_call_signal. by destruct (activeCalls st !! callId). Qed.

Lemma calls_ok_handle i st : calls_ok st → calls_ok (handle i st).1.
Proof.
  intros Hok. destruct i; simpl; unfold with_socket;
    try (destruct (sockets st !! sid) as [userId|] eqn:Hsid; [|done]).
  - case_decide as Hcon; [done|].
    apply calls_ok_connection; [|done]. by apply eq_None_not_Some.
  - by apply calls_ok_disconnect.
  - by apply calls_ok_chat_join.
  - by apply calls_ok_chat_leave.
  - eapply calls_ok_same_registries; [apply on_message_send_registries|done].
  - eapply calls_ok_same_registries; [apply on_message_ack_registries|done].
  - eapply calls_ok_same_registries; [apply on_message_ack_registries|done].
  - eapply calls_ok_same_registries; [apply on_message_react_registries|done].
  - eapply calls_ok_same_registries; [apply on_message_forward_registries|done].
  - by apply calls_ok_call_start.
  - by apply calls_ok_call_accept.
  - by rewrite on_call_reject_state.
  - by apply calls_ok_call_leave.
  - by apply calls_ok_call_end.
  - by rewrite on_call_signal_state.
  - eapply calls_ok_same_registries; [apply same_registries_set_store|done].
Qed.

Lemma reachable_calls_ok st : reachable st → calls_ok st.
Proof.
  induction 1 as [db|i st _ IH]; [apply calls_ok_initial|by apply calls_ok_handle].
Qed.

End calls_invariant.

(** ** Calls: who receives [call:ended] *)

Section call_ended_facts.
Implicit Types (st : State) (u userId : UserId) (s sid : SocketId).
Implicit Types (c : Call) (id callId : CallId).

Lemma size_zero_iff (X : gset string) : size X = 0 ↔ X = ∅.
Proof. rewrite size_empty_iff. apply leibniz_equiv_iff. Qed.

Lemma received_io_to_room select s rooms name ev :
  received select s (io_to_room rooms name ev)
    = if decide (s ∈ room_of rooms name ∧ select ev = true) then 1 else 0.
Proof. apply received_emit_each. Qed.

Lemma sweep_events_other rooms userId id id' c s :
  id' ≠ id →
  received (is_call_ended id) s (sweep_events rooms userId id' c) = 0.
Proof.
  intros Hne. unfold sweep_events.
  case_decide; [|done].
  rewrite received_app, received_io_to_room. simpl.
  rewrite decide_False by (by intros [_ ?]).
  case_decide; [|done].
  rewrite received_io_to_room. simpl.
  rewrite decide_False; [done|].
  intros [_ Hb]. by apply bool_decide_eq_true in Hb.
Qed.

Lemma sweep_events_ended rooms userId id c s :
  userId ∈ call_members c →
  call_host c = userId ∨ call_members c ∖ {[userId]} = ∅ →
  received (is_call_ended id) s (sweep_events rooms userId id c)
    = if decide (s ∈ room_of rooms (call_room id)) then 1 else 0.
Proof.
  intros Hin Hend. unfold sweep_events.
  rewrite decide_True by done.
  rewrite received_app, received_io_to_room. simpl.
  rewrite decide_False by (by intros [_ ?]).
  rewrite decide_True.
  - rewrite received_io_to_room. simpl.
    rewrite bool_decide_eq_true_2 by done.
    repeat case_decide; naive_solver.
  - destruct Hend as [?|He]; [by left|right]. simpl. by apply size_zero_iff.
Qed.



Lemma received_sweep rooms userId id s (calls : gmap string Call) :
  received (is_call_ended id) s
    ('(id', call) ← map_to_list calls; sweep_events rooms userId id' call)
  = match calls !! id with
    | Some c => received (is_call_ended id) s (sweep_events rooms userId id c)
    | None => 0
    end.
Proof.
  induction calls as [|id' c calls Hfresh IH] using map_ind.
  { by rewrite map_to_list_empty, lookup_empty. }
  rewrite (received_perm _ _ _
             ('(id0, call) ← (id', c) :: map_to_list calls;
              sweep_events rooms userId id0 call)).
  2:{ apply bind_Permutation. by apply map_to_list_insert. }
  rewrite bind_cons, received_app, IH, lookup_insert.
  case_decide as Hid.
  - subst id'. rewrite Hfresh. lia.
  - by rewrite sweep_events_other.
Qed.

Lemma received_presence id s sockets userId online :
  received (is_call_ended id) s
    (io_emit sockets (PresenceUpdate userId online)) = 0.
Proof.
  unfold io_emit. rewrite received_emit_each.
  rewrite decide_False; [done|]. by intros [_ ?].
Qed.

(** The host leaves with [call:leave]. *)
Lemma host_leave_ends st id c sid :
  activeCalls st !! id = Some c →
  let r := on_call_leave (call_host c) sid id st in
  activeCalls r.1 !! id = None
  ∧ ∀ s, received (is_call_ended id) s r.2
         = if decide (s ∈ room_of (rooms st) (call_room id) ∖ {[sid]})
           then 1 else 0.
Proof.
  intros Hc. unfold on_call_leave. rewrite Hc. simpl.
  rewrite decide_True by (by left). simpl.
  split; [by rewrite lookup_delete_eq|].
  intros s. rewrite received_app, !received_io_to_room. simpl.
  rewrite decide_False by (by intros [_ ?]).
  rewrite room_of_leave.
  destruct (decide (call_room id = call_room id)) as [_|?]; [|done].
  rewrite bool_decide_eq_true_2 by done.
  repeat case_decide; naive_solver.
Qed.

(** A socket of the host disconnects. *)
Lemma host_disconnect_ends st id c sid now :
  activeCalls st !! id = Some c →
  call_host c ∈ call_members c →
  let r := on_disconnect (call_host c) sid now st in
  activeCalls r.1 !! id = None
  ∧ ∀ s, received (is_call_ended id) s r.2
         = if decide (s ∈ room_of (rooms st) (call_room id) ∖ {[sid]})
           then 1 else 0.
Proof.
  intros Hc Hhost. simpl. split.
  - rewrite lookup_omap, Hc. simpl. unfold sweep_call.
    rewrite decide_True by done. by rewrite decide_True by (by left).
  - intros s. unfold on_disconnect, call_sweep. simpl.
    rewrite received_app, received_presence, received_sweep, Hc.
    rewrite sweep_events_ended by (done || by left).
    by rewrite room_of_leave_all.
Qed.

(** An unknown id stays unknown until [makeId()] returns it again. *)
Lemma handle_keeps_unknown id i st :
  activeCalls st !! id = None → ¬ creates id i →
  activeCalls (handle i st).1 !! id = None.
Proof.
  intros Hid Hcr. destruct i; simpl in *; unfold with_socket;
    try (destruct (sockets st !! sid) as [userId|] eqn:Hsid; [|done]).
  - by case_decide.
  - simpl. by rewrite lookup_omap, Hid.
  - done.
  - done.
  - by destruct (on_message_send_registries userId sid p newId now st)
      as (_ & _ & _ & ->).
  - unfold on_message_delivered.
    by destruct (on_message_ack_registries (mark_delivered userId) messageId st)
      as (_ & _ & _ & ->).
  - unfold on_message_read.
    by destruct (on_message_ack_registries (mark_read userId) messageId st)
      as (_ & _ & _ & ->).
  - by destruct (on_message_react_registries userId messageId emoji now st)
      as (_ & _ & _ & ->).
  - by destruct (on_message_forward_registries userId sid messageId toChatId
                   newId st) as (_ & _ & _ & ->).
  - unfold on_call_start, call_start_try, getChatParticipants.
    destruct (chats (store st) !! chatId) as [chat|]; simpl; [|done].
    destruct (bool_decide (userId ∈ chat_participants chat)); simpl; [|done].
    by rewrite lookup_insert_ne.
  - unfold on_call_accept, call_accept_try.
    destruct (activeCalls st !! callId) as [c0|] eqn:Hc0; simpl; [|done].
    rewrite lookup_insert_ne; [done|congruence].
  - by rewrite on_call_reject_state.
  - unfold on_call_leave.
    destruct (activeCalls st !! callId) as [c0|] eqn:Hc0; simpl; [|done].
    assert (callId ≠ id) by congruence.
    case_decide; simpl.
    + by rewrite lookup_delete_ne, lookup_insert_ne.
    + by rewrite lookup_insert_ne.
  - unfold on_call_end.
    destruct (activeCalls st !! callId) as [c0|] eqn:Hc0; simpl; [|done].
    case_decide; simpl; [done|].
    rewrite lookup_delete_ne; [done|congruence].
  - by rewrite on_call_signal_state.
  - done.
Qed.

Lemma reachable_run inputs st : reachable st → reachable (run inputs st).
Proof.
  revert st. induction inputs as [|i inputs IH]; intros st Hst; [done|].
  simpl. apply IH. by constructor.
Qed.

(** The sockets that receive a selected event, one entry per event. *)
Lemma received_as_count select s (evs : list (string * ServerEvent)) :
  received select s evs
    = length (filter (λ x, x = s)
                (fst <$> filter (λ e, select e.2 = true) evs)).
Proof.
  unfold received. induction evs as [|[s' ev] evs IH]; [done|].
  rewrite !filter_cons. simpl.
  destruct (decide (select ev = true)) as [Hsel|Hsel].
  - rewrite fmap_cons, filter_cons. simpl.
    destruct (decide (s' = s)) as [->|Hne].
    + rewrite decide_True by done. simpl. by rewrite IH.
    + rewrite decide_False by (by intros [? _]). done.
  - rewrite decide_False by (by intros [_ ?]). done.
Qed.

Lemma received_by_user_as_count select st u
    (evs : list (string * ServerEvent)) :
  received_by_user select st u evs
    = length (filter (λ x, sockets st !! x = Some u)
                (fst <$> filter (λ e, select e.2 = true) evs)).
Proof.
  unfold received_by_user. induction evs as [|[s' ev] evs IH]; [done|].
  rewrite !filter_cons. simpl.
  destruct (decide (select ev = true)) as [Hsel|Hsel].
  - rewrite fmap_cons, filter_cons. simpl.
    destruct (decide (sockets st !! s' = Some u)) as [Hs|Hs].
    + rewrite decide_True by done. simpl. by rewrite IH.
    + rewrite decide_False by (by intros [? _]). done.
  - rewrite decide_False by (by intros [_ ?]). done.
Qed.

Lemma count_elem_of (x : string) (l : list string) :
  x ∈ l ↔ 0 < length (filter (λ y, y = x) l).
Proof.
  induction l as [|y l IH].
  - split; [by intros ?%not_elem_of_nil|simpl; lia].
  - rewrite filter_cons, elem_of_cons.
    destruct (decide (y = x)) as [->|Hne]; simpl.
    + split; [lia|by left].
    + rewrite <-IH. naive_solver.
Qed.

Lemma count_NoDup (l : list string) :
  (∀ x, length (filter (λ y, y = x) l) ≤ 1) → NoDup l.
Proof.
  induction l as [|y l IH]; intros Hcount; [constructor|].
  constructor.
  - intros Hin%count_elem_of. specialize (Hcount y).
    rewrite filter_cons, decide_True in Hcount by done. simpl in Hcount. lia.
  - apply IH. intros x. specialize (Hcount x).
    rewrite filter_cons in Hcount. case_decide; simpl in Hcount; lia.
Qed.

(** When the sockets of a set receive one selected event each and nobody
    else any, a user receives as many as the user has sockets in the set. *)
Lemma received_by_user_exact select st u
    (evs : list (string * ServerEvent)) (J : gset string) :
  (∀ s, received select s evs = if decide (s ∈ J) then 1 else 0) →
  received_by_user select st u evs = size (sockets_of_user st u J).
Proof.
  intros Hrecv. rewrite received_by_user_as_count.
  set (l := fst <$> filter (λ e, select e.2 = true) evs).
  assert (∀ s, length (filter (λ y, y = s) l)
               = if decide (s ∈ J) then 1 else 0) as Hcount.
  { intros s. rewrite <-Hrecv. symmetry. apply received_as_count. }
  assert (l ≡ₚ elements J) as Hperm.
  { apply NoDup_Permutation.
    - apply count_NoDup. intros x. rewrite Hcount. case_decide; lia.
    - apply NoDup_elements.
    - intros x. rewrite count_elem_of, Hcount, elem_of_elements.
      case_decide; [split; [done|lia]|]. split; [lia|done]. }
  rewrite Hperm. unfold sockets_of_user, size, set_size. simpl.
  apply Permutation_length. apply NoDup_Permutation.
  - apply NoDup_filter, NoDup_elements.
  - apply NoDup_elements.
  - intros x. rewrite list_elem_of_filter, !elem_of_elements, elem_of_filter.
    done.
Qed.

End call_ended_facts.

(** ** Calls: the properties *)





(** ** Sending a message *)

Section send_facts.
Implicit Types (st : State) (u userId : UserId) (s sid : SocketId).

Lemma for_each_throw_if {A : Type} (cond : A → bool) (message : string)
    (l : list A) :
  for_each (λ x, throw_if (cond x) message) l
    = if existsb cond l then Throw message else Ok tt.
Proof.
  induction l as [|x l IH]; [done|]. simpl.
  destruct (cond x); simpl; [done|]. exact IH.
Qed.

Lemma populate_participants_elem db ids id doc :
  id ∈ ids → users db !! id = Some doc →
  {| p_id := id; p_blocked := user_blocked doc |}
    ∈ populate_participants db ids.
Proof.
  intros Hin Hdoc. unfold populate_participants.
  apply list_elem_of_omap. exists id. split; [done|]. by rewrite Hdoc.
Qed.

(** In a direct chat with a participant who has blocked the sender, the
    guards throw, with one of the two messages about blocking. *)
Lemma send_guards_blocked chat participants userId p :
  chat_isGroup chat = false →
  p ∈ participants → p_id p ≠ userId → userId ∈ p_blocked p →
  send_guards chat participants userId = Throw "You blocked this contact"
  ∨ send_guards chat participants userId = Throw "Recipient blocked you".
Proof.
  intros Hdm Hp Hne Hblocked. unfold send_guards. rewrite Hdm. simpl.
  unfold mbind, result_bind. rewrite !for_each_throw_if.
  destruct (existsb _ _); [by left|right].
  assert (existsb (λ p0, bool_decide (userId ∈ p_blocked p0))
            (filter (λ q, p_id q ≠ userId) participants) = true) as ->; [|done].
  apply existsb_exists. exists p. split.
  - apply list_elem_of_In, list_elem_of_filter. by split.
  - by apply bool_decide_eq_true.
Qed.

(** A send that goes through: what is stored and what is emitted. *)
Lemma message_send_try_Ok userId sid p newId now st st' evs :
  message_send_try userId sid p newId now st = Ok (st', evs) →
  ∃ chat type,
    chats (store st) !! send_chatId p = Some chat
    ∧ messages (store st') !! newId
        = Some (new_message newId (send_chatId p) userId type (send_text p)
                  (send_mediaUrl p) (send_mediaName p) (send_mediaSize p)
                  (send_mediaDuration p) (truthy (send_replyToId p)) None)
    ∧ ∃ out,
        msg_id (cm_doc out) = newId
        ∧ cm_clientId out = truthy (send_clientId p)
        ∧ evs = emit_each
                  (send_target st (send_chatId p)
                     (populate_participants (store st) (chat_participants chat))
                     sid)
                  (MessageNew out).
Proof.
  unfold message_send_try.
  destruct (chats (store st) !! send_chatId p) as [chat|]; simpl; [|done].
  unfold mbind at 1, result_bind at 1.
  destruct (send_guards _ _ _); [|done].
  destruct (cast_type _) as [type|]; simpl; [|done].
  intros [= <- <-]. exists chat, type. split; [done|]. split.
  { simpl. by rewrite lookup_insert_eq. }
  eexists. split_and!; [..|reflexivity].
  - unfold with_clientId. by destruct (truthy (send_clientId p)).
  - unfold with_clientId. by destruct (truthy (send_clientId p)).
Qed.

(** The originating socket of a send that goes through receives
    [message:new] with its correlation id once, and no socket receives
    [message:new] for the new message more than once. *)
Lemma send_reconciles_once userId sid p newId now st st' evs C :
  message_send_try userId sid p newId now st = Ok (st', evs) →
  truthy (send_clientId p) = Some C →
  received (is_message_new_for C) sid evs = 1
  ∧ ∀ s, received (is_message_new newId) s evs ≤ 1.
Proof.
  intros Hok HC.
  apply message_send_try_Ok in Hok as (chat & type & _ & _ & out & Hid & Hc & ->).
  split.
  - rewrite received_emit_each. rewrite decide_True; [done|].
    split; [unfold send_target; set_solver|].
    simpl. apply bool_decide_eq_true. congruence.
  - intros s. rewrite received_emit_each. case_decide; lia.
Qed.

End send_facts.

(** C7 — blocked direct message.  In a direct chat one of whose
    participants, A, has blocked user B, a [message:send] from a socket of
    B changes nothing in the state of the server (no message is stored) and
    emits exactly one event: an [error] for [message:send], to the sending
    socket, saying that the recipient blocked the sender (or, if B has also
    blocked a participant, that B blocked the contact).  No [message:new]
    goes to any socket. *)
Theorem blocked_dm_send_rejected (st : State) (A B : UserId) (sid : SocketId)
    (p : SendPayload) (newId : MessageId) (now : N) (chat : Chat)
    (a_doc : User) :
  sockets st !! sid = Some B →
  chats (store st) !! send_chatId p = Some chat →
  chat_isGroup chat = false →
  A ∈ chat_participants chat →
  A ≠ B →
  users (store st) !! A = Some a_doc →
  B ∈ user_blocked a_doc →
  let r := handle (MessageSend sid p newId now) st in
  r.1 = st
  ∧ (r.2 = [(sid, ErrorEvent "message:send" "Recipient blocked you")]
     ∨ r.2 = [(sid, ErrorEvent "message:send" "You blocked this contact")])
  ∧ ∀ s id, received (is_message_new id) s r.2 = 0.
Proof.
  intros Hsid Hchat Hdm HA Hne Hdoc Hblocked r.
  assert (r = (st, [(sid, ErrorEvent "message:send" "Recipient blocked you")])
          ∨ r = (st, [(sid, ErrorEvent "message:send"
                              "You blocked this contact")])) as Hr.
  { subst r. simpl. unfold with_socket. rewrite Hsid.
    unfold on_message_send, message_send_try. rewrite Hchat. simpl.
    destruct (send_guards_blocked chat
                (populate_participants (store st) (chat_participants chat)) B
                {| p_id := A; p_blocked := user_blocked a_doc |})
      as [-> | ->]; [done|by apply populate_participants_elem|done|done|..].
    - by right.
    - by left. }
  assert (∀ message s id,
            received (is_message_new id) s
              [(sid, ErrorEvent "message:send" message)] = 0) as Hnone.
  { intros message s id.
    rewrite (received_io_to_sid _ s sid (ErrorEvent "message:send" message)).
    rewrite decide_False; [done|]. by intros [_ ?]. }
  clearbody r. destruct Hr as [-> | ->]; simpl.
  - split_and!; [done|by left|apply Hnone].
  - split_and!; [done|by right|apply Hnone].
Qed.

Lemma blocked_dm_send_rejected_witness :
  sockets Sample.st_blocked !! "s2" = Some Sample.bob
  ∧ Sample.bob ∈ user_blocked (Sample.user "Alice" [Sample.bob])
  ∧ handle (MessageSend "s2" (Sample.text_payload "dm" "hi" "c1") "m2" 5%N)
      Sample.st_blocked
    = (Sample.st_blocked,
       [("s2", ErrorEvent "message:send" "Recipient blocked you")]).
Proof.
  assert (sockets Sample.st_blocked !! "s2" = Some Sample.bob) as Hsid
    by (by vm_compute).
  assert (Sample.bob ∈ user_blocked (Sample.user "Alice" [Sample.bob]))
    as Hblocked by (simpl; by left).
  destruct (blocked_dm_send_rejected Sample.st_blocked Sample.alice Sample.bob
              "s2" (Sample.text_payload "dm" "hi" "c1") "m2" 5%N
              {| chat_isGroup := false;
                 chat_participants := [Sample.alice; Sample.bob];
                 chat_admins := []; chat_settings := None;
                 chat_lastMessageAt := None |}
              (Sample.user "Alice" [Sample.bob]))
    as (Hst & Hevs & _);
    [done|by vm_compute|done|by left|done|by vm_compute|done|].
  split_and!; [done..|].
  destruct Hevs as [Hevs|Hevs].
  - by apply injective_projections.
  - exfalso. revert Hevs. by vm_compute.
Defined.

(** C1 — the membership of the sender is not checked.  Carol is a user but
    not a participant of the group [team] (which does not restrict sending
    to admins).  Her [message:send] to [team] goes through: the message is
    stored with her as sender, [message:new] goes to the sockets of the
    participants and to her own, and no error is emitted. *)
Theorem send_by_non_participant :
  let p := Sample.text_payload "team" "hi all" "c1" in
  let r := handle (MessageSend "s3" p "m2" 5%N) Sample.st in
  (chat_participants <$> (chats (store Sample.st) !! "team"))
    = Some [Sample.alice; Sample.bob]
  ∧ sockets Sample.st !! "s3" = Some Sample.carol
  ∧ messages (store Sample.st) !! "m2" = None
  ∧ messages (store r.1) !! "m2"
      = Some (new_message "m2" "team" Sample.carol TText (Some "hi all")
                None None None None None None)
  ∧ received (is_message_new "m2") "s1" r.2 = 1
  ∧ received (is_message_new "m2") "s2" r.2 = 1
  ∧ received (is_message_new "m2") "s3" r.2 = 1
  ∧ received is_error "s3" r.2 = 0.
Proof. by vm_compute. Qed.

(** The same for every user and every chat that exists: when the chat is a
    group that does not restrict sending to admins, the guards pass
    whoever the sender is. *)
Lemma send_guards_open_group chat participants userId :
  chat_isGroup chat = true →
  default false (onlyAdminsCanMessage <$> chat_settings chat) = false →
  send_guards chat participants userId = Ok tt.
Proof. intros Hg Ha. unfold send_guards. by rewrite Hg, Ha. Qed.

(** C5 — the forwarding socket receives the copy twice.  Alice, a
    participant of [dm], forwards [m1] to [dm] from her socket [s1]: the
    copy [m3] is emitted to [s1] by [io.to(sid)], and again by the loop over
    the sockets of the participants, which has [s1] in it.  Bob's socket
    receives it once. *)
Theorem forward_reaches_sender_twice :
  let r := handle (MessageForward "s1" "m1" "dm" "m3") Sample.st in
  sockets Sample.st !! "s1" = Some Sample.alice
  ∧ (msg_forwardOf <$> (messages (store r.1) !! "m3")) = Some (Some "m1")
  ∧ received (is_message_new "m3") "s1" r.2 = 2
  ∧ received (is_message_new "m3") "s2" r.2 = 1.
Proof. by vm_compute. Qed.

(** The same for every forward that goes through from a socket that is
    registered for its user, as every connected socket is. *)
Lemma forward_sender_receives_twice userId sid messageId toChatId newId st
    st' evs :
  message_forward_try userId sid messageId toChatId newId st = Ok (st', evs) →
  sid ∈ Presence.sessionsOf (onlineUsers st) userId →
  received (is_message_new newId) sid evs = 2.
Proof.
  unfold message_forward_try.
  destruct (messages (store st) !! messageId) as [src|]; simpl; [|done].
  destruct (chats (store st) !! toChatId) as [targetChat|]; simpl; [|done].
  destruct (bool_decide (userId ∈ chat_participants targetChat)) eqn:Hpart;
    simpl; [|done].
  intros [= <- <-] Hsid.
  match goal with
  | |- received ?f ?s (?e :: ?l) = _ =>
      change (received f s (e :: l)) with (received f s (io_to_sid sid e.2 ++ l))
  end.
  rewrite received_app, received_io_to_sid, received_emit_each. simpl.
  rewrite bool_decide_eq_true_2 by done.
  rewrite !decide_True; [done| |done].
  split; [|done]. apply elem_of_union. right.
  unfold sessions_of_all. apply elem_of_union_list.
  exists (Presence.sessionsOf (onlineUsers st) userId). split; [|done].
  apply list_elem_of_fmap. exists userId. split; [done|].
  by apply bool_decide_eq_true in Hpart.
Qed.

(** * Further properties of the gateway *)

(** ** The registries when every listener runs in one piece *)

Section registries_invariant.
Implicit Types (st : State) (u userId : UserId) (s sid : SocketId).

Lemma sessionsOf_register u s (reg : gmap string (gset string)) u' :
  Presence.sessionsOf (Presence.register u s reg) u'
    = if decide (u = u') then Presence.sessionsOf reg u ∪ {[s]}
      else Presence.sessionsOf reg u'.
Proof.
  unfold Presence.sessionsOf at 1. rewrite register_lookup.
  by case_decide.
Qed.

Lemma sessionsOf_unregister u s (reg : gmap string (gset string)) u' :
  Presence.sessionsOf (Presence.unregister u s reg) u'
    = if decide (u = u') then Presence.sessionsOf reg u ∖ {[s]}
      else Presence.sessionsOf reg u'.
Proof.
  unfold Presence.sessionsOf. rewrite unregister_lookup.
  case_decide; [|done].
  destruct (reg !! u) as [set|]; simpl; [|set_solver].
  by case_decide.
Qed.

Lemma registries_ok_same st st' :
  same_registries st st' → registries_ok st → registries_ok st'.
Proof. intros (Hs & Ho & Hr & _) Hok. unfold registries_ok. by rewrite Hs, Ho, Hr. Qed.

Lemma registries_ok_initial db : registries_ok (initial db).
Proof.
  split.
  - intros u s. unfold Presence.sessionsOf. simpl.
    rewrite !lookup_empty. simpl. set_solver.
  - intros name s. unfold room_of. simpl. rewrite lookup_empty. set_solver.
Qed.

Lemma registries_ok_connection userId sid now st :
  sockets st !! sid = None →
  registries_ok st → registries_ok (on_connection userId sid now st).1.
Proof.
  intros Hfresh [Hpres Hrooms]. split; simpl.
  - intros u s. rewrite sessionsOf_register, lookup_insert.
    case_decide as Hu; case_decide as Hs; subst.
    + set_solver.
    + rewrite elem_of_union, Hpres. set_solver.
    + rewrite Hpres. split; [congruence|]. by intros [= ->].
    + apply Hpres.
  - intros name s Hs. rewrite lookup_insert. case_decide; [done|].
    by eapply Hrooms.
Qed.

Lemma registries_ok_disconnect userId sid now st :
  sockets st !! sid = Some userId →
  registries_ok st → registries_ok (on_disconnect userId sid now st).1.
Proof.
  intros Hsid [Hpres Hrooms].
  destruct (on_disconnect_state userId sid now st) as (Hs & Ho & Hr & _).
  split.
  - intros u s. rewrite Hs, Ho, sessionsOf_unregister, lookup_delete.
    case_decide as Hu; case_decide as Hsd; subst.
    + set_solver.
    + rewrite elem_of_difference, Hpres. set_solver.
    + rewrite Hpres. split; [congruence|done].
    + apply Hpres.
  - intros name s. rewrite Hs, Hr, room_of_leave_all, lookup_delete.
    intros [Hin Hne%not_elem_of_singleton]%elem_of_difference.
    rewrite decide_False by done. by eapply Hrooms.
Qed.

Lemma registries_ok_join sid name st :
  is_Some (sockets st !! sid) →
  registries_ok st →
  registries_ok (set_rooms (socket_join sid name (rooms st)) st).
Proof.
  intros Hsid [Hpres Hrooms]. split; [done|]. simpl.
  intros name' s. rewrite room_of_join.
  case_decide; [|by apply Hrooms].
  intros [Hin| ->%elem_of_singleton]%elem_of_union; [by eapply Hrooms|done].
Qed.

Lemma registries_ok_leave sid name st :
  registries_ok st →
  registries_ok (set_rooms (socket_leave sid name (rooms st)) st).
Proof.
  intros [Hpres Hrooms]. split; [done|]. simpl.
  intros name' s. rewrite room_of_leave.
  case_decide; [|by apply Hrooms].
  intros [Hin _]%elem_of_difference. by eapply Hrooms.
Qed.

Lemma registries_ok_set_activeCalls calls st :
  registries_ok st → registries_ok (set_activeCalls calls st).
Proof. done. Qed.

Lemma registries_ok_handle i st :
  registries_ok st → registries_ok (handle i st).1.
Proof.
  intros Hok. destruct i; simpl; unfold with_socket;
    try (destruct (sockets st !! sid) as [userId|] eqn:Hsid; [|done]).
  - case_decide as Hcon; [done|].
    apply registries_ok_connection; [|done]. by apply eq_None_not_Some.
  - by apply registries_ok_disconnect.
  - by apply registries_ok_join.
  - by apply registries_ok_leave.
  - eapply registries_ok_same; [apply on_message_send_registries|done].
  - eapply registries_ok_same; [apply on_message_ack_registries|done].
  - eapply registries_ok_same; [apply on_message_ack_registries|done].
  - eapply registries_ok_same; [apply on_message_react_registries|done].
  - eapply registries_ok_same; [apply on_message_forward_registries|done].
  - unfold on_call_start, call_start_try, getChatParticipants.
    destruct (chats (store st) !! chatId) as [chat|]; simpl; [|done].
    destruct (bool_decide (userId ∈ chat_participants chat)); simpl; [|done].
    by apply (registries_ok_join sid _ (set_activeCalls _ st)).
  - unfold on_call_accept, call_accept_try.
    destruct (activeCalls st !! callId) as [c|]; simpl; [|done].
    by apply (registries_ok_join sid _ (set_activeCalls _ st)).
  - by rewrite on_call_reject_state.
  - unfold on_call_leave.
    destruct (activeCalls st !! callId) as [c|]; simpl; [|done].
    case_decide; simpl;
      by apply (registries_ok_leave sid _ (set_activeCalls _ st)).
  - unfold on_call_end.
    destruct (activeCalls st !! callId) as [c|]; simpl; [|done].
    by case_decide.
  - by rewrite on_call_signal_state.
  - eapply registries_ok_same; [apply same_registries_set_store|done].
Qed.

Lemma reachable_registries_ok st : reachable st → registries_ok st.
Proof.
  induction 1 as [db|i st _ IH];
    [apply registries_ok_initial|by apply registries_ok_handle].
Qed.

End registries_invariant.

(** ** Membership in the targets of an emission *)

Section emission_targets.
Implicit Types (st : State) (u userId : UserId) (s sid : SocketId).
Implicit Types (evs : list (string * ServerEvent)).

Lemma elem_of_emit_each s ev' (target : gset string) ev :
  (s, ev') ∈ emit_each target ev ↔ s ∈ target ∧ ev' = ev.
Proof.
  unfold emit_each. rewrite list_elem_of_fmap. split.
  - intros (x & [= -> ->] & Hx). by apply elem_of_elements in Hx.
  - intros [Hs ->]. exists s. split; [done|]. by apply elem_of_elements.
Qed.


End emission_targets.

Section lifecycle_properties.
Implicit Types (st : State) (u userId : UserId) (s sid : SocketId).


Lemma received_io_emit select s (socks : gmap string string) ev :
  received select s (io_emit socks ev)
    = if decide (is_Some (socks !! s) ∧ select ev = true) then 1 else 0.
Proof.
  unfold io_emit. rewrite received_emit_each.
  repeat case_decide; try done; exfalso.
  - destruct H as [Hs ?]. apply elem_of_dom in Hs. naive_solver.
  - destruct H0 as [Hs ?]. apply elem_of_dom in Hs. naive_solver.
Qed.

Lemma received_none select s evs :
  (∀ ev, (s, ev) ∈ evs → select ev = false) → received select s evs = 0.
Proof.
  intros Hall. unfold received.
  induction evs as [|[s' ev] evs IH]; [done|].
  rewrite filter_cons. simpl. rewrite decide_False.
  - apply IH. intros ev' Hin. apply Hall. by right.
  - intros [-> Hsel]. rewrite (Hall ev) in Hsel; [done|by left].
Qed.

Lemma sweep_no_presence userId online s u rooms (calls : gmap string Call) :
  received (is_presence u online) s
    ('(id, call) ← map_to_list calls; sweep_events rooms userId id call) = 0.
Proof.
  apply received_none. intros ev Hin.
  apply list_elem_of_bind in Hin as ([id c] & Hin & _).
  unfold sweep_events in Hin. case_decide; [|by apply not_elem_of_nil in Hin].
  apply elem_of_app in Hin as [Hin|Hin].
  - by apply elem_of_emit_each in Hin as [_ ->].
  - case_decide; [|by apply not_elem_of_nil in Hin].
    by apply elem_of_emit_each in Hin as [_ ->].
Qed.



End lifecycle_properties.

(** ** More on calls *)

Section call_properties.
Implicit Types (st : State) (u userId : UserId) (s sid : SocketId).
Implicit Types (c : Call) (id callId : CallId).

Lemma calls_keyed_handle i st : calls_keyed st → calls_keyed (handle i st).1.
Proof.
  intros Hok. destruct i; simpl; unfold with_socket;
    try (destruct (sockets st !! sid) as [userId|] eqn:Hsid; [|done]).
  - by case_decide.
  - intros id c. simpl. rewrite lookup_omap.
    destruct (activeCalls st !! id) as [c0|] eqn:Hc0; simpl; [|done].
    unfold sweep_call. repeat case_decide; intros [= <-]; simpl; by apply Hok.
  - done.
  - done.
  - intros id c.
    destruct (on_message_send_registries userId sid p newId now st)
      as (_ & _ & _ & ->). apply Hok.
  - intros id c. unfold on_message_delivered.
    destruct (on_message_ack_registries (mark_delivered userId) messageId st)
      as (_ & _ & _ & ->). apply Hok.
  - intros id c. unfold on_message_read.
    destruct (on_message_ack_registries (mark_read userId) messageId st)
      as (_ & _ & _ & ->). apply Hok.
  - intros id c.
    destruct (on_message_react_registries userId messageId emoji now st)
      as (_ & _ & _ & ->). apply Hok.
  - intros id c.
    destruct (on_message_forward_registries userId sid messageId toChatId
                newId st) as (_ & _ & _ & ->). apply Hok.
  - unfold on_call_start, call_start_try, getChatParticipants.
    destruct (chats (store st) !! chatId) as [chat|]; simpl; [|done].
    destruct (bool_decide (userId ∈ chat_participants chat)); simpl; [|done].
    intros id c. simpl. rewrite lookup_insert.
    case_decide; [by intros [= <-]|apply Hok].
  - unfold on_call_accept, call_accept_try.
    destruct (activeCalls st !! callId) as [c0|] eqn:Hc0; simpl; [|done].
    intros id c. simpl. rewrite lookup_insert.
    case_decide; [|apply Hok]. intros [= <-]. subst id. simpl. by apply Hok.
  - by rewrite on_call_reject_state.
  - unfold on_call_leave.
    destruct (activeCalls st !! callId) as [c0|] eqn:Hc0; simpl; [|done].
    case_decide; intros id c; simpl.
    + rewrite lookup_delete. case_decide; [done|].
      rewrite lookup_insert_ne by done. apply Hok.
    + rewrite lookup_insert. case_decide; [|apply Hok].
      intros [= <-]. subst id. simpl. by apply Hok.
  - unfold on_call_end.
    destruct (activeCalls st !! callId) as [c0|] eqn:Hc0; simpl; [|done].
    case_decide; [done|]. intros id c. simpl. rewrite lookup_delete.
    case_decide; [done|apply Hok].
  - by rewrite on_call_signal_state.
  - done.
Qed.

(** X6 — only the host can end a call.  [call:end] for an active call from
    a user who is not its host changes nothing and emits nothing.  From the
    host it removes the call from the table, and every socket in the room
    of the call, the host's included, receives [call:ended] exactly once;
    no other socket receives it. *)
Theorem call_end_host_only (st : State) (id : CallId) (c : Call)
    (U : UserId) (sid s : SocketId) :
  activeCalls st !! id = Some c →
  sockets st !! sid = Some U →
  let r := handle (CallEnd sid id) st in
  if decide (call_host c = U) then
    r.1 = set_activeCalls (delete id (activeCalls st)) st
    ∧ received (is_call_ended id) s r.2
        = (if decide (s ∈ room_of (rooms st) (call_room id)) then 1 else 0)
  else r = (st, []).
Proof.
  intros Hc Hsid r. subst r. simpl. unfold with_socket. rewrite Hsid.
  unfold on_call_end. rewrite Hc.
  destruct (decide (call_host c = U)) as [Hh|Hh].
  - rewrite decide_False by (by intros ?). simpl. split; [done|].
    rewrite received_io_to_room. simpl.
    rewrite bool_decide_eq_true_2 by done. apply decide_ext. naive_solver.
  - by rewrite decide_True.
Qed.

Lemma call_end_host_only_witness :
  activeCalls Sample.in_call !! "call_7_abc" = Some Sample.the_call
  ∧ handle (CallEnd "s2" "call_7_abc") Sample.in_call = (Sample.in_call, [])
  ∧ received (is_call_ended "call_7_abc") "s2"
      (handle (CallEnd "s1" "call_7_abc") Sample.in_call).2 = 1.
Proof.
  assert (activeCalls Sample.in_call !! "call_7_abc" = Some Sample.the_call)
    as Hc by (by vm_compute).
  split_and!; [done|..].
  - assert (sockets Sample.in_call !! "s2" = Some Sample.bob) as Hsid
      by (by vm_compute).
    pose proof (call_end_host_only Sample.in_call "call_7_abc" Sample.the_call
                  Sample.bob "s2" "s2" Hc Hsid) as H.
    by rewrite decide_False in H.
  - assert (sockets Sample.in_call !! "s1" = Some Sample.alice) as Hsid
      by (by vm_compute).
    pose proof (call_end_host_only Sample.in_call "call_7_abc" Sample.the_call
                  Sample.alice "s1" "s2" Hc Hsid) as H.
    rewrite decide_True in H by done. destruct H as [_ ->]. by vm_compute.
Defined.

(** X7 — a member who is not the host leaves.  In any state the server can
    reach, when a user other than the host sends [call:leave] for an active
    call, the call stays in the table with that user taken out of its
    members, the sockets that remain in the room of the call receive
    [call:left] once each, and nobody receives [call:ended]. *)
Theorem member_leave_keeps_call (st : State) (id : CallId) (c : Call)
    (U : UserId) (sid s : SocketId) :
  reachable st →
  activeCalls st !! id = Some c →
  sockets st !! sid = Some U →
  U ≠ call_host c →
  let r := handle (CallLeave sid id) st in
  activeCalls r.1 !! id = Some (set_members (call_members c ∖ {[U]}) c)
  ∧ (sid ∉ room_of (rooms r.1) (call_room id))
  ∧ received (is_call_left id) s r.2
      = (if decide (s ∈ room_of (rooms st) (call_room id) ∖ {[sid]})
         then 1 else 0)
  ∧ received (is_call_ended id) s r.2 = 0.
Proof.
  intros Hreach Hc Hsid Hne r.
  destruct (reachable_calls_ok st Hreach id c Hc) as [Hhost _].
  subst r. simpl. unfold with_socket. rewrite Hsid.
  unfold on_call_leave. rewrite Hc. simpl.
  rewrite decide_False.
  2:{ intros [?|Hz]; [done|]. apply size_zero_iff in Hz. set_solver. }
  simpl. split_and!.
  - by rewrite lookup_insert_eq.
  - rewrite room_of_leave, decide_True by done. set_solver.
  - rewrite received_io_to_room, room_of_leave. simpl.
    destruct (decide (call_room id = call_room id)) as [_|?]; [|done].
    rewrite bool_decide_eq_true_2 by done. apply decide_ext. naive_solver.
  - rewrite received_io_to_room. simpl. rewrite decide_False; [done|].
    by intros [_ ?].
Qed.

Lemma member_leave_keeps_call_witness :
  activeCalls Sample.in_call !! "call_7_abc" = Some Sample.the_call
  ∧ call_members <$>
      (activeCalls (handle (CallLeave "s2" "call_7_abc") Sample.in_call).1
         !! "call_7_abc")
    = Some ({[ Sample.alice ]} : gset string)
  ∧ received (is_call_left "call_7_abc") "s1"
      (handle (CallLeave "s2" "call_7_abc") Sample.in_call).2 = 1.
Proof.
  assert (reachable Sample.in_call) as Hreach.
  { unfold Sample.in_call, Sample.st. do 2 apply reachable_run. constructor. }
  assert (activeCalls Sample.in_call !! "call_7_abc" = Some Sample.the_call)
    as Hc by (by vm_compute).
  assert (sockets Sample.in_call !! "s2" = Some Sample.bob) as Hsid
    by (by vm_compute).
  destruct (member_leave_keeps_call Sample.in_call "call_7_abc"
              Sample.the_call Sample.bob "s2" "s1" Hreach Hc Hsid)
    as (Hcall & _ & Hleft & _); [done|].
  split_and!; [done| |].
  - rewrite Hcall. by vm_compute.
  - rewrite Hleft. by vm_compute.
Defined.




(** X9 — relaying call signals.  [call:signal] and [call:reject] for an
    active call change nothing in the state.  The signal goes exactly once
    to every socket registered for the user named in the payload, and the
    rejection exactly once to every socket registered for the host; whether
    the sender or the recipient is a member of the call is not looked at. *)
Theorem call_relays (st : State) (id : CallId) (c : Call) (U : UserId)
    (sid s : SocketId) (toUserId : UserId) (data : string) :
  activeCalls st !! id = Some c →
  sockets st !! sid = Some U →
  let sig := handle (CallSignalTo sid id toUserId data) st in
  let rej := handle (CallReject sid id) st in
  sig.1 = st
  ∧ sig.2 = emit_each (Presence.sessionsOf (onlineUsers st) toUserId)
              (CallSignal id U data)
  ∧ received is_call_signal s sig.2
      = (if decide (s ∈ Presence.sessionsOf (onlineUsers st) toUserId)
         then 1 else 0)
  ∧ rej.1 = st
  ∧ rej.2 = emit_each (Presence.sessionsOf (onlineUsers st) (call_host c))
              (CallRejected id U)
  ∧ received is_call_rejected s rej.2
      = (if decide (s ∈ Presence.sessionsOf (onlineUsers st) (call_host c))
         then 1 else 0).
Proof.
  intros Hc Hsid sig rej. subst sig rej. simpl. unfold with_socket.
  rewrite Hsid. unfold on_call_signal, on_call_reject. rewrite Hc. simpl.
  unfold emitToUser. rewrite !received_emit_each. simpl.
  split_and!; try done; apply decide_ext; naive_solver.
Qed.

Lemma call_relays_witness :
  activeCalls Sample.in_call !! "call_7_abc" = Some Sample.the_call
  ∧ received is_call_signal "s1"
      (handle (CallSignalTo "s3" "call_7_abc" Sample.alice "offer")
         Sample.in_call).2 = 1
  ∧ received is_call_signal "s4"
      (handle (CallSignalTo "s3" "call_7_abc" Sample.alice "offer")
         Sample.in_call).2 = 1.
Proof.
  assert (activeCalls Sample.in_call !! "call_7_abc" = Some Sample.the_call)
    as Hc by (by vm_compute).
  assert (sockets Sample.in_call !! "s3" = Some Sample.carol) as Hsid
    by (by vm_compute).
  split_and!; [done|..].
  - destruct (call_relays Sample.in_call "call_7_abc" Sample.the_call
                Sample.carol "s3" "s1" Sample.alice "offer" Hc Hsid)
      as (_ & _ & -> & _). by vm_compute.
  - destruct (call_relays Sample.in_call "call_7_abc" Sample.the_call
                Sample.carol "s3" "s4" Sample.alice "offer" Hc Hsid)
      as (_ & _ & -> & _). by vm_compute.
Defined.

End call_properties.

(** ** The ids of the calls *)

Section call_ids.

Lemma pretty_N_char_not_underscore d : pretty_N_char d ≠ underscore.
Proof. unfold pretty_N_char, underscore. by repeat case_match. Qed.

Lemma pretty_N_go_no_underscore x s :
  no_char underscore s → no_char underscore (pretty_N_go x s).
Proof.
  revert s. induction (N.lt_wf_0 x) as [x _ IH]; intros s Hs.
  assert (x = 0 ∨ 0 < x)%N as [->|Hpos] by lia.
  - by rewrite pretty_N_go_0.
  - rewrite pretty_N_go_step by done. apply IH.
    + by apply N.div_lt.
    + split; [apply pretty_N_char_not_underscore|done].
Qed.

Lemma pretty_N_no_underscore (x : N) : no_char underscore (pretty x).
Proof.
  unfold pretty, pretty_N. case_decide.
  - by compute.
  - by apply pretty_N_go_no_underscore.
Qed.

(** A string is cut in one way only at the first occurrence of [c]. *)
Lemma cut_at_first c a a' r r' :
  no_char c a → no_char c a' →
  a +:+ String c r = a' +:+ String c r' → a = a' ∧ r = r'.
Proof.
  revert a'. induction a as [|x a IH]; intros [|x' a'] Ha Ha' Heq;
    simpl in *.
  - by injection Heq as ->.
  - injection Heq as <- _. by destruct Ha' as [? _].
  - injection Heq as -> _. by destruct Ha as [? _].
  - injection Heq as -> Heq. destruct Ha as [_ Ha], Ha' as [_ Ha'].
    destruct (IH a' Ha Ha' Heq) as [-> ->]. done.
Qed.

(** X10 — call ids do not collide.  [makeId()] returns the same id only
    for the same clock reading and the same random suffix: two calls
    started at different milliseconds, or with different suffixes, never
    share an id. *)
Theorem makeId_injective (now now' : N) (rnd rnd' : string) :
  makeId now rnd = makeId now' rnd' ↔ now = now' ∧ rnd = rnd'.
Proof.
  split; [|by intros [-> ->]].
  unfold makeId. intros Heq.
  change ("call_" +:+ pretty now +:+ String underscore rnd
          = "call_" +:+ pretty now' +:+ String underscore rnd') in Heq.
  simpl in Heq. injection Heq as Heq.
  apply cut_at_first in Heq as [Hnow ->];
    [|apply pretty_N_no_underscore..].
  split; [|done]. by apply (inj pretty).
Qed.

End call_ids.

(** ** More on sending *)

Section send_properties.
Implicit Types (st : State) (u userId : UserId) (s sid : SocketId).

(** X11 — a send is all or nothing.  [message:send] from a connected
    socket either fails, and then the state is unchanged and the only event
    is one [error] for [message:send] to the sending socket; or it goes
    through, and then no error is emitted to anybody, the new message is
    stored with the sender, the chat and the status sent, the sending socket
    receives it once, and the other stored messages are untouched. *)
Theorem send_all_or_nothing (st : State) (U : UserId) (sid : SocketId)
    (p : SendPayload) (newId : MessageId) (now : N) :
  sockets st !! sid = Some U →
  let r := handle (MessageSend sid p newId now) st in
  (r.1 = st ∧ ∃ message, r.2 = [(sid, ErrorEvent "message:send" message)])
  ∨ ((∀ s, received is_error s r.2 = 0)
     ∧ received (is_message_new newId) sid r.2 = 1
     ∧ (∃ msg, messages (store r.1) !! newId = Some msg
               ∧ msg_sender msg = U ∧ msg_chat msg = send_chatId p
               ∧ msg_status msg = Sent ∧ msg_reactions msg = [])
     ∧ ∀ id, id ≠ newId →
         messages (store r.1) !! id = messages (store st) !! id).
Proof.
  intros Hsid r. subst r. simpl. unfold with_socket. rewrite Hsid.
  unfold on_message_send.
  destruct (message_send_try U sid p newId now st) as [[st' evs]|message]
    eqn:Htry; simpl; [right|left; by eauto].
  pose proof Htry as Hok.
  apply message_send_try_Ok in Hok
    as (chat & type & _ & Hstored & out & Hid & _ & ->).
  split_and!.
  - intros s. rewrite received_emit_each. rewrite decide_False; [done|].
    by intros [_ ?].
  - rewrite received_emit_each. rewrite decide_True; [done|].
    split; [unfold send_target; set_solver|].
    simpl. by apply bool_decide_eq_true.
  - eexists. split; [exact Hstored|done].
  - intros id Hne. revert Htry. unfold message_send_try.
    destruct (chats (store st) !! send_chatId p); simpl; [|done].
    unfold mbind at 1, result_bind at 1.
    destruct (send_guards _ _ _); [|done].
    destruct (cast_type _); simpl; [|done].
    intros [= <- _]. simpl. by rewrite lookup_insert_ne.
Qed.

Lemma send_all_or_nothing_witness :
  sockets Sample.st !! "s1" = Some Sample.alice
  ∧ ((handle (MessageSend "s1" (Sample.text_payload "nowhere" "hi" "c1")
                "m2" 5%N) Sample.st).1 = Sample.st
     ∨ received (is_message_new "m2") "s1"
         (handle (MessageSend "s1" (Sample.text_payload "nowhere" "hi" "c1")
                    "m2" 5%N) Sample.st).2 = 1).
Proof.
  assert (sockets Sample.st !! "s1" = Some Sample.alice) as Hsid
    by (by vm_compute).
  split; [done|].
  destruct (send_all_or_nothing Sample.st Sample.alice "s1"
              (Sample.text_payload "nowhere" "hi" "c1") "m2" 5%N Hsid)
    as [[Hst _]|(_ & Hnew & _)]; [by left|by right].
Defined.



(** X13 — the admin-only gate of a group.  In a group whose setting
    [onlyAdminsCanMessage] is on, a [message:send] from a user who is not in
    the admin list is answered by the error "Only group admins can send
    messages" to the sending socket and changes nothing; for a user in the
    admin list the guards pass, whatever the block lists of the participants
    say. *)
Theorem admin_only_gate (st : State) (U : UserId) (sid : SocketId)
    (p : SendPayload) (newId : MessageId) (now : N) (chat : Chat)
    (settings : ChatSettings) (ps : list Participant) :
  sockets st !! sid = Some U →
  chats (store st) !! send_chatId p = Some chat →
  chat_isGroup chat = true →
  chat_settings chat = Some settings →
  onlyAdminsCanMessage settings = true →
  if decide (U ∈ chat_admins chat) then send_guards chat ps U = Ok tt
  else handle (MessageSend sid p newId now) st
       = (st, [(sid, ErrorEvent "message:send"
                       "Only group admins can send messages")]).
Proof.
  intros Hsid Hchat Hgroup Hsettings Honly.
  case_decide as Hadmin.
  - unfold send_guards. rewrite Hgroup, Hsettings. simpl. rewrite Honly.
    by rewrite bool_decide_eq_true_2.
  - simpl. unfold with_socket. rewrite Hsid.
    unfold on_message_send, message_send_try. rewrite Hchat. simpl.
    unfold send_guards. rewrite Hgroup, Hsettings. simpl. rewrite Honly.
    by rewrite bool_decide_eq_false_2.
Qed.

End send_properties.

Lemma admin_only_gate_witness :
  sockets Scene.st !! "s2" = Some Sample.bob
  ∧ handle (MessageSend "s2" (Sample.text_payload "team" "hi" "c1") "m2" 5%N)
      Scene.st
    = (Scene.st, [("s2", ErrorEvent "message:send"
                           "Only group admins can send messages")]).
Proof.
  assert (sockets Scene.st !! "s2" = Some Sample.bob) as Hsid
    by (by vm_compute).
  split; [done|].
  pose proof (admin_only_gate Scene.st Sample.bob "s2"
                (Sample.text_payload "team" "hi" "c1") "m2" 5%N
                Scene.strict_team Scene.strict_settings [] Hsid) as H.
  rewrite decide_False in H.
  - apply H; by vm_compute.
  - apply (bool_decide_unpack _). by vm_compute.
Defined.

Section dm_guards.
Implicit Types (ps : list Participant) (q me : Participant) (U : UserId).

Lemma existsb_false_iff {A : Type} (f : A → bool) (l : list A) :
  existsb f l = false ↔ ∀ x, x ∈ l → f x = false.
Proof.
  induction l as [|a l IH]; simpl.
  - split; [|done]. intros _ x Hx. by apply not_elem_of_nil in Hx.
  - rewrite orb_false_iff, IH. split.
    + intros [Ha Hl] x [->|Hx]%elem_of_cons; [done|by apply Hl].
    + intros Hall. split; [apply Hall; by left|].
      intros x Hx. apply Hall. by right.
Qed.

Lemma find_me ps me U :
  NoDup (p_id <$> ps) → me ∈ ps → p_id me = U →
  snd <$> list_find (λ q, p_id q = U) ps = Some me.
Proof.
  intros Hnd Hme HU.
  destruct (list_find_elem_of (λ q, p_id q = U) ps me Hme HU)
    as [[i me'] Hfind].
  rewrite Hfind. simpl. f_equal.
  apply list_find_Some in Hfind as (Hi & HU' & _).
  apply list_elem_of_lookup in Hme as [j Hj].
  assert (i = j) as ->; [|congruence].
  eapply NoDup_lookup; [exact Hnd|..].
  - rewrite list_lookup_fmap, Hi. done.
  - rewrite list_lookup_fmap, Hj. simpl. congruence.
Qed.

(** X14 — blocks in a direct chat, both ways.  In a direct chat whose
    participants are listed once each, a participant passes the guards of
    [message:send] exactly when that participant has blocked none of the
    others and none of the others has blocked that participant. *)
Theorem dm_guards_pass_iff (chat : Chat) (ps : list Participant)
    (me : Participant) (U : UserId) :
  chat_isGroup chat = false →
  NoDup (p_id <$> ps) →
  me ∈ ps →
  p_id me = U →
  send_guards chat ps U = Ok tt
  ↔ ∀ q, q ∈ ps → p_id q ≠ U →
      (p_id q ∉ p_blocked me) ∧ (U ∉ p_blocked q).
Proof.
  intros Hdm Hnd Hme HU. unfold send_guards. rewrite Hdm. simpl.
  rewrite (find_me ps me U) by done. simpl.
  unfold mbind, result_bind. rewrite !for_each_throw_if.
  remember (existsb (λ q, bool_decide (p_id q ∈ p_blocked me)) _)
    as mine eqn:Hmine.
  remember (existsb (λ q, bool_decide (U ∈ p_blocked q)) _)
    as theirs eqn:Htheirs.
  symmetry in Hmine, Htheirs.
  assert (∀ q, q ∈ filter (λ q0, p_id q0 ≠ U) ps ↔ q ∈ ps ∧ p_id q ≠ U)
    as Hothers by (intros q; rewrite list_elem_of_filter; tauto).
  destruct mine.
  { split; [done|]. intros Hall. exfalso.
    apply existsb_exists in Hmine as (q & Hq & Hb).
    apply list_elem_of_In, Hothers in Hq as [Hq Hne].
    apply bool_decide_eq_true in Hb. by destruct (Hall q Hq Hne). }
  destruct theirs.
  { split; [done|]. intros Hall. exfalso.
    apply existsb_exists in Htheirs as (q & Hq & Hb).
    apply list_elem_of_In, Hothers in Hq as [Hq Hne].
    apply bool_decide_eq_true in Hb. by destruct (Hall q Hq Hne). }
  split; [|done]. intros _ q Hq Hne.
  assert (q ∈ filter (λ q0, p_id q0 ≠ U) ps) as Hin by (by apply Hothers).
  rewrite existsb_false_iff in Hmine, Htheirs.
  specialize (Hmine q Hin). specialize (Htheirs q Hin).
  apply bool_decide_eq_false in Hmine, Htheirs. done.
Qed.

Lemma dm_guards_pass_iff_witness :
  send_guards Scene.dm
    (populate_participants Sample.db [Sample.alice; Sample.bob]) Sample.bob
    = Ok tt
  ∧ send_guards Scene.dm
      (populate_participants Sample.db_blocked [Sample.alice; Sample.bob])
      Sample.bob
    ≠ Ok tt.
Proof.
  assert (populate_participants Sample.db [Sample.alice; Sample.bob]
          = [ {| p_id := Sample.alice; p_blocked := [] |};
              {| p_id := Sample.bob; p_blocked := [] |} ]) as ->
    by (by vm_compute).
  assert (populate_participants Sample.db_blocked [Sample.alice; Sample.bob]
          = [ {| p_id := Sample.alice; p_blocked := [Sample.bob] |};
              {| p_id := Sample.bob; p_blocked := [] |} ]) as ->
    by (by vm_compute).
  split.
  - apply (dm_guards_pass_iff Scene.dm _
             {| p_id := Sample.bob; p_blocked := [] |} Sample.bob);
      [done|apply (bool_decide_unpack _); by vm_compute
      |by right; left|done|].
    intros q Hq Hne.
    apply elem_of_cons in Hq as [->|Hq].
    + split; apply (bool_decide_unpack _); by vm_compute.
    + apply list_elem_of_singleton in Hq as ->. done.
  - intros Hok.
    eapply (dm_guards_pass_iff Scene.dm _
              {| p_id := Sample.bob; p_blocked := [] |} Sample.bob)
      with (q := {| p_id := Sample.alice; p_blocked := [Sample.bob] |});
      [done|apply (bool_decide_unpack _); by vm_compute
      |by right; left|done|exact Hok|by left|done|by left].
Defined.

End dm_guards.

Section update_properties.
Implicit Types (st : State) (u U : UserId) (s sid : SocketId).
Implicit Types (m msg : Message).



End update_properties.

Section ack_properties.
Implicit Types (st : State) (u U : UserId) (s sid : SocketId).
Implicit Types (m msg : Message) (a : Ack).

Lemma apply_ack_same_message a u m :
  msg_id (apply_ack a u m) = msg_id m
  ∧ msg_chat (apply_ack a u m) = msg_chat m.
Proof.
  destruct a; simpl; unfold mark_delivered, mark_read;
    repeat case_match; done.
Qed.



Lemma apply_ack_idem a u m :
  apply_ack a u (apply_ack a u m) = apply_ack a u m.
Proof.
  assert (∀ (x : string) l, bool_decide (x ∈ l ++ [x]) = true) as Hlast.
  { intros x l. apply bool_decide_eq_true. set_solver. }
  destruct a; simpl; unfold mark_delivered, mark_read.
  - destruct (bool_decide (u ∈ msg_deliveredTo m)) eqn:Hin.
    + destruct (decide (msg_status m ≠ Read)) as [Hs|Hs]; simpl.
      * rewrite Hin. by rewrite decide_True.
      * rewrite Hin. by rewrite decide_False.
    + simpl. destruct (decide (msg_status m ≠ Read)) as [Hs|Hs]; simpl.
      * rewrite Hlast. by rewrite decide_True.
      * rewrite Hlast. simpl. by rewrite decide_False.
  - destruct (bool_decide (u ∈ msg_readBy m)) eqn:Hin; simpl.
    + by rewrite Hin.
    + by rewrite Hlast.
Qed.

Lemma set_store_same st : set_store (store st) st = st.
Proof. by destruct st. Qed.

Lemma save_message_twice id m m' db :
  save_message id m' (save_message id m db) = save_message id m' db.
Proof. unfold save_message, set_messages. simpl. by rewrite insert_insert_eq. Qed.

Lemma save_message_same id m db :
  messages db !! id = Some m → save_message id m db = db.
Proof.
  intros Hm. unfold save_message, set_messages.
  rewrite insert_id by done. by destruct db.
Qed.

Lemma set_store_twice db db' st :
  set_store db' (set_store db st) = set_store db' st.
Proof. done. Qed.

Lemma on_message_ack_idem (change : Message → Message) id st :
  (∀ m, change (change m) = change m) →
  (on_message_ack change id (on_message_ack change id st).1).1
    = (on_message_ack change id st).1.
Proof.
  intros Hidem. unfold on_message_ack at 2 3.
  destruct (messages (store st) !! id) as [m|] eqn:Hm; simpl.
  - unfold on_message_ack. simpl. rewrite lookup_insert_eq. simpl.
    rewrite Hidem. by rewrite save_message_twice.
  - unfold on_message_ack. by rewrite Hm.
Qed.

(** X16 — acknowledgements go to the viewers only.  For a stored message,
    [message:delivered] and [message:read] emit nothing but
    [message:update] for that message, once to each socket that is viewing
    the chat of the message and to no other socket: a device of a
    participant that is not viewing the chat is not told. *)
Theorem ack_notifies_viewers_only (st : State) (U : UserId)
    (sid s : SocketId) (id : MessageId) (m : Message) (i : Input) :
  sockets st !! sid = Some U →
  messages (store st) !! id = Some m →
  i = MessageDelivered sid id ∨ i = MessageRead sid id →
  let evs := (handle i st).2 in
  received is_any s evs = received (is_message_update (msg_id m)) s evs
  ∧ received is_any s evs
    = if decide (s ∈ room_of (rooms st) (chat_room (msg_chat m)))
      then 1 else 0.
Proof.
  intros Hsid Hm Hi evs.
  assert (∃ a, evs = io_to_room (rooms st) (chat_room (msg_chat m))
                       (MessageUpdate
                          (hydrateMessageForClient
                             (save_message id (apply_ack a U m) (store st))
                             (apply_ack a U m)))) as [a ->].
  { subst evs. destruct Hi as [-> | ->]; simpl; unfold with_socket;
      rewrite Hsid;
      unfold on_message_delivered, on_message_read, on_message_ack;
      rewrite Hm; simpl.
    - exists AckDelivered.
      destruct (apply_ack_same_message AckDelivered U m) as [_ Hc].
      simpl in Hc. by rewrite Hc.
    - exists AckRead.
      destruct (apply_ack_same_message AckRead U m) as [_ Hc].
      simpl in Hc. by rewrite Hc. }
  unfold io_to_room. rewrite !received_emit_each. simpl.
  destruct (apply_ack_same_message a U m) as [-> _].
  rewrite bool_decide_eq_true_2 by done. unfold is_any.
  split; repeat case_decide; naive_solver.
Qed.

Lemma ack_notifies_viewers_only_witness :
  received is_any "s2" (handle (MessageRead "s1" "m1") Sample.in_call).2 = 1
  ∧ received is_any "s4" (handle (MessageRead "s1" "m1") Sample.in_call).2
    = 0.
Proof.
  assert (sockets Sample.in_call !! "s1" = Some Sample.alice) as Hsid
    by (by vm_compute).
  assert (messages (store Sample.in_call) !! "m1"
          = Some (Sample.text_message "m1" "team" Sample.bob "hello"
                    Sample.liked)) as Hm by (by vm_compute).
  split.
  - destruct (ack_notifies_viewers_only Sample.in_call Sample.alice "s1" "s2"
                "m1" _ (MessageRead "s1" "m1") Hsid Hm) as [_ ->];
      [by right|].
    by vm_compute.
  - destruct (ack_notifies_viewers_only Sample.in_call Sample.alice "s1" "s4"
                "m1" _ (MessageRead "s1" "m1") Hsid Hm) as [_ ->];
      [by right|].
    by vm_compute.
Defined.

(** X17 — an acknowledgement sent twice.  Sending [message:delivered], or
    [message:read], twice in a row from the same socket for the same
    message leaves the server in the state the first one produced.  (The state is the embedded one: the stamps
    [createdAt] and [updatedAt] that the schema keeps are not in it.) *)
Theorem ack_twice_same_state (st : State) (sid : SocketId)
    (id : MessageId) :
  run [MessageDelivered sid id; MessageDelivered sid id] st
    = run [MessageDelivered sid id] st
  ∧ run [MessageRead sid id; MessageRead sid id] st
    = run [MessageRead sid id] st.
Proof.
  unfold run. simpl. unfold with_socket.
  destruct (sockets st !! sid) as [U|] eqn:Hsid.
  - assert (∀ change, sockets (on_message_ack change id st).1 = sockets st)
      as Hsock.
    { intros change. unfold on_message_ack. by case_match. }
    unfold on_message_delivered, on_message_read.
    rewrite !Hsock, Hsid.
    split; apply on_message_ack_idem; intros m.
    + apply (apply_ack_idem AckDelivered).
    + apply (apply_ack_idem AckRead).
  - simpl. by rewrite Hsid.
Qed.



End ack_properties.

Section mutation_properties.
Implicit Types (st : State) (u U V : UserId) (s sid : SocketId).
Implicit Types (m msg : Message) (db : Store).

Lemma slice_to_length n (t : string) :
  String.length (slice_to n t) = n `min` String.length t.
Proof.
  revert t. induction n as [|n IH]; intros [|c t]; simpl; [done..|].
  by rewrite IH.
Qed.

Lemma slice_to_prefix n (t : string) : ∃ rest, t = slice_to n t +:+ rest.
Proof.
  revert t. induction n as [|n IH]; intros t.
  - exists t. by destruct t.
  - destruct t as [|c t]; [by exists EmptyString|].
    destruct (IH t) as [rest Hrest]. exists rest.
    change (String c t = String c (slice_to n t +:+ rest)). by f_equal.
Qed.

Lemma received_update_no_error st db msg s :
  received is_error s (emitMessageUpdate st db msg) = 0.
Proof.
  unfold emitMessageUpdate. rewrite received_emit_each.
  rewrite decide_False; [done|]. by intros [_ ?].
Qed.

Lemma message_edit_try_Ok U text now m :
  msg_sender m = U → msg_type m = TText → msg_deletedForAllAt m = None →
  message_edit_try U text now m
    = Ok (set_text (Some (slice_to 5000 (default EmptyString (truthy text))))
            (Some now) m).
Proof.
  intros Hs Ht Hd. unfold message_edit_try.
  rewrite (bool_decide_eq_true_2 (msg_sender m = U)) by done.
  rewrite (bool_decide_eq_true_2 (msg_type m = TText)) by done.
  rewrite (bool_decide_eq_false_2 (is_Some (msg_deletedForAllAt m)));
    [done|].
  rewrite Hd. by intros [? ?].
Qed.

Lemma message_edit_try_Throw U text now m :
  ¬ (msg_sender m = U ∧ msg_type m = TText ∧ msg_deletedForAllAt m = None) →
  ∃ message, message_edit_try U text now m = Throw message
             ∧ truthy (Some message) = Some message.
Proof.
  intros Hno. unfold message_edit_try.
  destruct (decide (msg_sender m = U)) as [Hs|Hs].
  2: { rewrite (bool_decide_eq_false_2 (msg_sender m = U)) by done.
       by eexists. }
  rewrite (bool_decide_eq_true_2 (msg_sender m = U)) by done.
  destruct (decide (msg_type m = TText)) as [Ht|Ht].
  2: { rewrite (bool_decide_eq_false_2 (msg_type m = TText)) by done.
       by eexists. }
  rewrite (bool_decide_eq_true_2 (msg_type m = TText)) by done.
  rewrite (bool_decide_eq_true_2 (is_Some (msg_deletedForAllAt m)));
    [by eexists|].
  destruct (msg_deletedForAllAt m); [by eexists|]. by destruct Hno.
Qed.

(** X19 — who may edit, and how much.  [message:edit] of a stored message
    goes through exactly when the requester is its sender, it is a text
    message and it was not deleted for everyone.  Then the stored text is
    the submitted text cut after its first 5000 code units, the time of the
    edit is recorded, nothing else of the message changes and no error is
    emitted.  Otherwise the state is unchanged and the only event is one
    [error] for [message:edit] to the requesting socket. *)
Theorem edit_outcome (st : State) (U : UserId) (sid : SocketId)
    (id : MessageId) (text : option string) (now : N) (m : Message) :
  messages (store st) !! id = Some m →
  let r := on_message_edit U sid id text now st in
  let submitted := default EmptyString (truthy text) in
  if decide (msg_sender m = U ∧ msg_type m = TText
             ∧ msg_deletedForAllAt m = None)
  then ∃ t, messages (store r.1) !! id = Some (set_text (Some t) (Some now) m)
            ∧ String.length t = 5000 `min` String.length submitted
            ∧ (∃ rest, submitted = t +:+ rest)
            ∧ ∀ s, received is_error s r.2 = 0
  else r.1 = st
       ∧ ∃ message, r.2 = [(sid, ErrorEvent "message:edit" message)].
Proof.
  intros Hm r submitted. subst r. unfold on_message_edit. rewrite Hm.
  case_decide as Hc.
  - destruct Hc as (Hs & Ht & Hd).
    rewrite message_edit_try_Ok by done.
    exists (slice_to 5000 submitted). split_and!.
    + cbn [fst store set_store save_message messages set_messages].
      by rewrite lookup_insert_eq.
    + apply slice_to_length.
    + apply slice_to_prefix.
    + intros s. cbn [snd]. apply received_update_no_error.
  - destruct (message_edit_try_Throw U text now m Hc) as (message & -> & _).
    split; [done|]. by eexists.
Qed.

Lemma edit_outcome_witness :
  (on_message_edit Sample.alice "s1" "m1" (Some "hi") 9%N Sample.st).1
    = Sample.st
  ∧ ∃ t, messages
           (store (on_message_edit Sample.bob "s2" "m1" (Some "hi") 9%N
                     Sample.st).1) !! "m1"
         = Some (set_text (Some t) (Some 9%N)
                   (Sample.text_message "m1" "team" Sample.bob "hello"
                      Sample.liked))
         ∧ String.length t = 2.
Proof.
  assert (messages (store Sample.st) !! "m1"
          = Some (Sample.text_message "m1" "team" Sample.bob "hello"
                    Sample.liked)) as Hm by (by vm_compute).
  split.
  - pose proof (edit_outcome Sample.st Sample.alice "s1" "m1" (Some "hi")
                  9%N _ Hm) as H.
    rewrite decide_False in H; [by destruct H|].
    intros [Hs _]. revert Hs. apply (bool_decide_unpack _). by vm_compute.
  - pose proof (edit_outcome Sample.st Sample.bob "s2" "m1" (Some "hi")
                  9%N _ Hm) as H.
    rewrite decide_True in H by done.
    destruct H as (t & Ht & Hlen & _). exists t. split; [exact Ht|].
    rewrite Hlen. by vm_compute.
Defined.

Lemma is_group_admin_true db chatId U :
  is_group_admin db chatId U = true
  ↔ ∃ chat, chats db !! chatId = Some chat ∧ chat_isGroup chat = true
            ∧ U ∈ chat_admins chat.
Proof.
  unfold is_group_admin. destruct (chats db !! chatId) as [chat|].
  - rewrite andb_true_iff, bool_decide_eq_true. split.
    + intros [? ?]. by exists chat.
    + by intros (chat' & [= <-] & ? & ?).
  - split; [done|]. by intros (? & ? & _).
Qed.

Lemma delete_for_everyone_try_Ok db U now m :
  msg_sender m = U ∨ is_group_admin db (msg_chat m) U = true →
  delete_for_everyone_try db U now m
    = Ok (if decide (is_Some (msg_deletedForAllAt m)) then m
          else tombstone now m).
Proof.
  intros Hcan. unfold delete_for_everyone_try.
  assert (bool_decide (msg_sender m = U)
          || is_group_admin db (msg_chat m) U = true) as ->; [|done].
  apply orb_true_iff. rewrite bool_decide_eq_true. done.
Qed.

Lemma delete_for_everyone_try_Throw db U now m :
  ¬ (msg_sender m = U ∨ is_group_admin db (msg_chat m) U = true) →
  delete_for_everyone_try db U now m = Throw "Not allowed".
Proof.
  intros Hcan. unfold delete_for_everyone_try.
  assert (bool_decide (msg_sender m = U)
          || is_group_admin db (msg_chat m) U = false) as ->; [|done].
  apply orb_false_iff. rewrite bool_decide_eq_false.
  split; [tauto|]. destruct (is_group_admin _ _ _); [|done]. tauto.
Qed.

(** X20 — who may delete for everyone.  [message:delete] with
    [forEveryone] of a stored message is allowed to its sender, and in a
    group to the admins of the group; the chat of a direct conversation
    gives nobody else the right.  When allowed, no error is emitted, the
    stored message is marked deleted and every other stored message is
    untouched; when not, the state is unchanged and the only event is the
    error "Not allowed" to the requesting socket. *)
Theorem delete_for_everyone_gate (st : State) (U : UserId) (sid : SocketId)
    (id : MessageId) (now : N) (m : Message) :
  messages (store st) !! id = Some m →
  let r := on_message_delete U sid id true now st in
  let allowed :=
    msg_sender m = U
    ∨ ∃ chat, chats (store st) !! msg_chat m = Some chat
              ∧ chat_isGroup chat = true ∧ U ∈ chat_admins chat in
  (allowed →
     (∀ s, received is_error s r.2 = 0)
     ∧ (∃ m', messages (store r.1) !! id = Some m'
              ∧ is_Some (msg_deletedForAllAt m'))
     ∧ ∀ id', id' ≠ id →
         messages (store r.1) !! id' = messages (store st) !! id')
  ∧ (¬ allowed →
       r = (st, [(sid, ErrorEvent "message:delete" "Not allowed")])).
Proof.
  intros Hm r allowed. subst r allowed. unfold on_message_delete.
  rewrite Hm. rewrite <-is_group_admin_true. split.
  - intros Hcan. rewrite delete_for_everyone_try_Ok by done.
    cbn [fst snd store set_store save_message messages set_messages].
    split_and!.
    + intros s. apply received_update_no_error.
    + rewrite lookup_insert_eq. eexists. split; [done|].
      case_decide; [done|]. by eexists.
    + intros id' Hne. by rewrite lookup_insert_ne.
  - intros Hcan. by rewrite delete_for_everyone_try_Throw.
Qed.

Lemma delete_for_everyone_gate_witness :
  (∀ s,
     received is_error s
       (on_message_delete Sample.alice "s1" "m1" true 9%N Sample.st).2 = 0)
  ∧ on_message_delete Sample.carol "s3" "m1" true 9%N Sample.st
    = (Sample.st, [("s3", ErrorEvent "message:delete" "Not allowed")]).
Proof.
  assert (messages (store Sample.st) !! "m1"
          = Some (Sample.text_message "m1" "team" Sample.bob "hello"
                    Sample.liked)) as Hm by (by vm_compute).
  split.
  - apply (delete_for_everyone_gate Sample.st Sample.alice "s1" "m1" 9%N _
             Hm).
    right. eexists. split_and!; [by vm_compute|done|].
    apply (bool_decide_unpack _). by vm_compute.
  - apply (delete_for_everyone_gate Sample.st Sample.carol "s3" "m1" 9%N _
             Hm).
    intros [Hs|(chat & Hchat & _ & Hin)].
    + revert Hs. apply (bool_decide_unpack _). by vm_compute.
    + vm_compute in Hchat. injection Hchat as <-.
      revert Hin. apply (bool_decide_unpack _). by vm_compute.
Defined.

(** X21 — a message deleted for everyone stays so.  After an allowed
    [message:delete] with [forEveryone] of a message not deleted before,
    the stored message carries the time of the deletion, an empty text, an
    empty media address and name and no media size, and its preview in the
    chat list names the kind of the message at most, never its text or its
    file name.  From then on a further deletion for everyone by whomever
    leaves the state as it is, and an edit by whomever is answered by one
    error to the requesting socket and leaves the state as it is.  (The state is the embedded one: the stamps
    [createdAt] and [updatedAt] that the schema keeps are not in it.) *)
Theorem deleted_for_everyone_is_final (st : State) (U : UserId)
    (sid : SocketId) (id : MessageId) (now : N) (m : Message) :
  messages (store st) !! id = Some m →
  msg_deletedForAllAt m = None →
  msg_sender m = U ∨ is_group_admin (store st) (msg_chat m) U = true →
  let st1 := (on_message_delete U sid id true now st).1 in
  ∃ m1, messages (store st1) !! id = Some m1
    ∧ msg_deletedForAllAt m1 = Some now
    ∧ msg_text m1 = Some EmptyString
    ∧ msg_mediaUrl m1 = Some EmptyString
    ∧ msg_mediaName m1 = Some EmptyString
    ∧ msg_mediaSize m1 = None
    ∧ previewFor (Some m1)
      = match msg_type m with
        | TText => EmptyString
        | TImage => "Photo"
        | TVideo => "Video"
        | TAudio => "Audio"
        | TFile => "File"
        end
    ∧ (∀ V sid' now',
         (on_message_delete V sid' id true now' st1).1 = st1)
    ∧ ∀ V sid' text now',
        (on_message_edit V sid' id text now' st1).1 = st1
        ∧ received is_error sid'
            (on_message_edit V sid' id text now' st1).2 = 1.
Proof.
  intros Hm Hnot Hcan st1.
  assert (st1 = set_store (save_message id (tombstone now m) (store st)) st)
    as Hst1.
  { subst st1. unfold on_message_delete. rewrite Hm.
    rewrite delete_for_everyone_try_Ok by done.
    rewrite decide_False; [done|]. rewrite Hnot. by intros [? ?]. }
  assert (messages (store st1) !! id = Some (tombstone now m)) as Hm1.
  { rewrite Hst1.
    cbn [store set_store save_message messages set_messages].
    by rewrite lookup_insert_eq. }
  exists (tombstone now m). split_and!; try done.
  - intros V sid' now'. unfold on_message_delete. rewrite Hm1.
    destruct (decide (msg_sender (tombstone now m) = V
                      ∨ is_group_admin (store st1)
                          (msg_chat (tombstone now m)) V = true))
      as [Hc|Hc].
    + rewrite delete_for_everyone_try_Ok by done.
      rewrite decide_True by (by eexists).
      cbn [fst]. rewrite save_message_same by done.
      apply set_store_same.
    + by rewrite delete_for_everyone_try_Throw.
  - intros V sid' text now'. unfold on_message_edit. rewrite Hm1.
    destruct (message_edit_try_Throw V text now' (tombstone now m))
      as (message & -> & _); [by intros (_ & _ & ?)|].
    split; [done|]. cbn [snd]. rewrite received_io_to_sid.
    by rewrite decide_True.
Qed.

Lemma deleted_for_everyone_is_final_witness :
  ∃ m1,
    messages
      (store (on_message_delete Sample.bob "s2" "m1" true 9%N Sample.st).1)
      !! "m1" = Some m1
    ∧ msg_text m1 = Some EmptyString
    ∧ previewFor (Some m1) = EmptyString.
Proof.
  destruct (deleted_for_everyone_is_final Sample.st Sample.bob "s2" "m1" 9%N
              (Sample.text_message "m1" "team" Sample.bob "hello"
                 Sample.liked))
    as (m1 & Hm1 & _ & Htext & _ & _ & _ & Hpreview & _);
    [by vm_compute|done|by left|].
  exists m1. split_and!; [exact Hm1|exact Htext|exact Hpreview].
Defined.

Lemma set_deletedFor_same m : set_deletedFor (msg_deletedFor m) m = m.
Proof. by destruct m. Qed.

(** X22 — hiding a message for oneself.  [message:delete] without
    [forEveryone] of a stored message adds the requester to [deletedFor]
    unless already there, keeps the list free of duplicates, changes no
    other field of the message, and tells the requesting socket alone, with
    one [message:update]; asked again, it leaves the state as it is.  (The state is the embedded one: the stamps
    [createdAt] and [updatedAt] that the schema keeps are not in it.) *)
Theorem delete_for_self (st : State) (U : UserId) (sid : SocketId)
    (id : MessageId) (now : N) (m : Message) :
  messages (store st) !! id = Some m →
  let r := on_message_delete U sid id false now st in
  ∃ m', messages (store r.1) !! id = Some m'
    ∧ m' = set_deletedFor (msg_deletedFor m') m
    ∧ (∀ u, u ∈ msg_deletedFor m' ↔ u = U ∨ u ∈ msg_deletedFor m)
    ∧ (NoDup (msg_deletedFor m) → NoDup (msg_deletedFor m'))
    ∧ r.2 = [(sid, MessageUpdate (hydrateMessageForClient (store r.1) m'))]
    ∧ ∀ sid' now', (on_message_delete U sid' id false now' r.1).1 = r.1.
Proof.
  intros Hm r.
  set (m' := if bool_decide (U ∈ msg_deletedFor m) then m
             else set_deletedFor (msg_deletedFor m ++ [U]) m).
  assert (r = (set_store (save_message id m' (store st)) st,
               [(sid, MessageUpdate
                        (hydrateMessageForClient
                           (save_message id m' (store st)) m'))])) as ->.
  { subst r m'. unfold on_message_delete. rewrite Hm.
    destruct (bool_decide (U ∈ msg_deletedFor m)) eqn:Hin; [|done].
    by rewrite save_message_same. }
  cbn [fst snd store set_store].
  assert (messages (save_message id m' (store st)) !! id = Some m') as Hm'.
  { unfold save_message. simpl. by rewrite lookup_insert_eq. }
  assert (∀ u, u ∈ msg_deletedFor m' ↔ u = U ∨ u ∈ msg_deletedFor m) as Hin.
  { intros u. subst m'. case_bool_decide as HU; simpl.
    - split; [by right|]. by intros [->|?].
    - rewrite elem_of_app, list_elem_of_singleton. tauto. }
  exists m'. split_and!; [done| |done| |done|].
  - subst m'. case_bool_decide; simpl; [|done].
    by rewrite set_deletedFor_same.
  - intros Hnd. subst m'. case_bool_decide as HU; simpl; [done|].
    apply NoDup_app. split_and!; [done| |apply NoDup_singleton].
    by intros x Hx ->%list_elem_of_singleton.
  - intros sid' now'. unfold on_message_delete.
    cbn [store set_store]. rewrite Hm'.
    rewrite bool_decide_eq_true_2 by (apply Hin; by left).
    done.
Qed.

Lemma delete_for_self_witness :
  ∃ m', (on_message_delete Sample.alice "s1" "m1" false 9%N Sample.in_call).2
        = [("s1", MessageUpdate
                    (hydrateMessageForClient
                       (store (on_message_delete Sample.alice "s1" "m1"
                                 false 9%N Sample.in_call).1) m'))]
        ∧ ∀ u, u ∈ msg_deletedFor m' ↔ u = Sample.alice ∨ u ∈ [].
Proof.
  destruct (delete_for_self Sample.in_call Sample.alice "s1" "m1" 9%N
              (Sample.text_message "m1" "team" Sample.bob "hello"
                 Sample.liked))
    as (m' & _ & _ & Hin & _ & Hevs & _); [by vm_compute|].
  exists m'. split; [exact Hevs|exact Hin].
Defined.

Lemma set_of_array_from (acc l : list string) :
  NoDup acc →
  let out := foldl (λ set x, if decide (x ∈ set) then set else set ++ [x])
               acc l in
  NoDup out ∧ ∀ x, x ∈ out ↔ x ∈ acc ∨ x ∈ l.
Proof.
  revert acc. induction l as [|y l IH]; intros acc Hnd; simpl.
  - split; [done|]. intros x. set_solver.
  - case_decide as Hy.
    + destruct (IH acc Hnd) as [Hnd' Hin]. split; [done|].
      intros x. rewrite Hin. set_solver.
    + destruct (IH (acc ++ [y])) as [Hnd' Hin].
      * apply NoDup_app. split_and!; [done| |apply NoDup_singleton].
        by intros x Hx ->%list_elem_of_singleton.
      * split; [done|]. intros x. rewrite Hin. set_solver.
Qed.

Lemma set_of_array_spec (l : list string) :
  NoDup (set_of_array l) ∧ ∀ x, x ∈ set_of_array l ↔ x ∈ l.
Proof.
  destruct (set_of_array_from [] l (NoDup_nil_2)) as [Hnd Hin].
  split; [done|]. intros x. unfold set_of_array. rewrite Hin. set_solver.
Qed.

Lemma set_of_array_from_NoDup (acc l : list string) :
  NoDup (acc ++ l) →
  foldl (λ set x, if decide (x ∈ set) then set else set ++ [x]) acc l
    = acc ++ l.
Proof.
  revert acc. induction l as [|y l IH]; intros acc Hnd; simpl.
  - by rewrite app_nil_r.
  - rewrite decide_False.
    + rewrite IH; rewrite <-app_assoc; done.
    + apply NoDup_app in Hnd as (_ & Hdis & _). intros Hy.
      apply (Hdis y Hy). by left.
Qed.

Lemma set_of_array_NoDup (l : list string) : NoDup l → set_of_array l = l.
Proof. intros Hnd. by apply (set_of_array_from_NoDup [] l). Qed.

Lemma toggle_star_spec U (star : bool) (l : list string) :
  NoDup (toggle_star U star l)
  ∧ ∀ u, u ∈ toggle_star U star l
         ↔ if star then u = U ∨ u ∈ l else u ≠ U ∧ u ∈ l.
Proof.
  destruct (set_of_array_spec l) as [Hnd Hin].
  unfold toggle_star. destruct star.
  - unfold set_add. case_decide as HU.
    + split; [done|]. intros u. rewrite Hin. split; [by right|].
      intros [->|?]; [by apply Hin|done].
    + split.
      * apply NoDup_app. split_and!; [done| |apply NoDup_singleton].
        by intros x Hx ->%list_elem_of_singleton.
      * intros u. rewrite elem_of_app, list_elem_of_singleton, Hin. tauto.
  - unfold set_delete. split; [by apply NoDup_filter|].
    intros u. rewrite list_elem_of_filter, Hin. done.
Qed.

Lemma filter_all (P : string → Prop) `{!∀ x, Decision (P x)}
    (l : list string) :
  (∀ x, x ∈ l → P x) → filter P l = l.
Proof.
  induction l as [|y l IH]; intros Hall; [done|].
  rewrite filter_cons, decide_True by (apply Hall; by left).
  f_equal. apply IH. intros x Hx. apply Hall. by right.
Qed.

Lemma toggle_star_idem U (star : bool) (l : list string) :
  toggle_star U star (toggle_star U star l) = toggle_star U star l.
Proof.
  destruct (toggle_star_spec U star l) as [Hnd Hin].
  unfold toggle_star at 1. rewrite set_of_array_NoDup by done.
  destruct star.
  - unfold set_add. rewrite decide_True; [done|]. apply Hin. by left.
  - unfold set_delete. apply filter_all. intros u Hu%Hin. tauto.
Qed.

Lemma set_starredBy_same m : set_starredBy (msg_starredBy m) m = m.
Proof. by destruct m. Qed.

(** X23 — starring is a set update.  [message:star] of a stored message
    leaves in [starredBy], each once, the users that were there before and
    the requester when [star] is set, and the users that were there before
    except the requester when it is not; no other field of the message
    changes, and the same request again leaves the state as it is.  (The state is the embedded one: the stamps
    [createdAt] and [updatedAt] that the schema keeps are not in it.) *)
Theorem star_outcome (st : State) (U : UserId) (id : MessageId)
    (star : bool) (m : Message) :
  messages (store st) !! id = Some m →
  let r := on_message_star U id star st in
  ∃ m', messages (store r.1) !! id = Some m'
    ∧ m' = set_starredBy (msg_starredBy m') m
    ∧ NoDup (msg_starredBy m')
    ∧ (∀ u, u ∈ msg_starredBy m'
            ↔ if star then u = U ∨ u ∈ msg_starredBy m
              else u ≠ U ∧ u ∈ msg_starredBy m)
    ∧ (on_message_star U id star r.1).1 = r.1.
Proof.
  intros Hm r.
  set (m' := set_starredBy (toggle_star U star (msg_starredBy m)) m).
  assert (r.1 = set_store (save_message id m' (store st)) st) as ->.
  { subst r m'. unfold on_message_star. by rewrite Hm. }
  cbn [store set_store].
  assert (messages (save_message id m' (store st)) !! id = Some m') as Hm'.
  { unfold save_message. simpl. by rewrite lookup_insert_eq. }
  destruct (toggle_star_spec U star (msg_starredBy m)) as [Hnd Hin].
  exists m'. split_and!; [done..|].
  unfold on_message_star. cbn [store set_store]. rewrite Hm'. cbn [fst].
  subst m'. cbn [msg_starredBy set_starredBy]. rewrite toggle_star_idem.
  by rewrite save_message_twice.
Qed.

Lemma star_outcome_witness :
  ∃ m', messages
          (store (on_message_star Sample.alice "m1" true Sample.st).1) !! "m1"
        = Some m'
        ∧ Sample.alice ∈ msg_starredBy m'
        ∧ (on_message_star Sample.alice "m1" true
             (on_message_star Sample.alice "m1" true Sample.st).1).1
          = (on_message_star Sample.alice "m1" true Sample.st).1.
Proof.
  destruct (star_outcome Sample.st Sample.alice "m1" true
              (Sample.text_message "m1" "team" Sample.bob "hello"
                 Sample.liked))
    as (m' & Hm' & _ & _ & Hin & Hagain); [by vm_compute|].
  exists m'. split_and!; [exact Hm'| |exact Hagain].
  apply Hin. by left.
Defined.

Lemma may_pin_true db chatId U :
  may_pin db chatId U = true
  ↔ ∀ chat, chats db !! chatId = Some chat → chat_isGroup chat = true →
            U ∈ chat_admins chat.
Proof.
  unfold may_pin. destruct (chats db !! chatId) as [chat|].
  - destruct (chat_isGroup chat) eqn:Hg.
    + rewrite bool_decide_eq_true. split.
      * by intros ? chat' [= <-] _.
      * intros Hall. by apply (Hall chat).
    + split; [|done]. intros _ chat' [= <-]. by rewrite Hg.
  - split; [|done]. by intros _ chat' ?.
Qed.

Lemma set_pinned_back now U m :
  msg_pinnedAt m = None → msg_pinnedBy m = None →
  set_pinned None None (set_pinned (Some now) (Some U) m) = m.
Proof. destruct m. simpl. by intros -> ->. Qed.

(** X24 — pinning.  [message:pin] of a stored message is open to
    everybody unless the chat of the message is a group, where it is
    reserved to the admins of the group.  When the requester may pin, a pin
    records the time and the requester on the message, and a following
    unpin by the same requester brings a state where the message was not
    pinned back to what it was; when not, the state is unchanged and the
    only event is the error "Admins only" to the requesting socket.  (The state is the embedded one: the stamps
    [createdAt] and [updatedAt] that the schema keeps are not in it.) *)
Theorem pin_outcome (st : State) (U : UserId) (sid : SocketId)
    (id : MessageId) (now now' : N) (m : Message) :
  messages (store st) !! id = Some m →
  msg_pinnedAt m = None →
  msg_pinnedBy m = None →
  let r := on_message_pin U sid id true now st in
  let allowed :=
    ∀ chat, chats (store st) !! msg_chat m = Some chat →
            chat_isGroup chat = true → U ∈ chat_admins chat in
  (allowed →
     (∃ m', messages (store r.1) !! id = Some m'
            ∧ msg_pinnedAt m' = Some now ∧ msg_pinnedBy m' = Some U)
     ∧ (∀ s, received is_error s r.2 = 0)
     ∧ (on_message_pin U sid id false now' r.1).1 = st)
  ∧ (¬ allowed → r = (st, [(sid, ErrorEvent "message:pin" "Admins only")])).
Proof.
  intros Hm Hat Hby r allowed. subst r allowed.
  rewrite <-may_pin_true.
  assert (on_message_pin U sid id true now st
          = if may_pin (store st) (msg_chat m) U
            then let msg' := set_pinned (Some now) (Some U) m in
                 let db := save_message id msg' (store st) in
                 (set_store db st, emitMessageUpdate st db msg')
            else (st, [(sid, ErrorEvent "message:pin" "Admins only")]))
    as ->.
  { unfold on_message_pin. by rewrite Hm. }
  destruct (may_pin (store st) (msg_chat m) U) eqn:Hmay.
  - split; [intros _|done].
    set (m' := set_pinned (Some now) (Some U) m).
    cbn [fst snd store set_store].
    assert (messages (save_message id m' (store st)) !! id = Some m') as Hm'.
    { unfold save_message. simpl. by rewrite lookup_insert_eq. }
    split_and!.
    + by exists m'.
    + intros s. apply received_update_no_error.
    + unfold on_message_pin. cbn [store set_store]. rewrite Hm'.
      change (may_pin (save_message id m' (store st)) (msg_chat m') U)
        with (may_pin (store st) (msg_chat m) U).
      rewrite Hmay. cbn [fst]. subst m'.
      rewrite set_pinned_back by done.
      rewrite save_message_twice, save_message_same by done.
      rewrite set_store_twice. apply set_store_same.
  - split; [done|]. intros _. done.
Qed.

Lemma pin_outcome_witness :
  on_message_pin Sample.bob "s2" "m1" true 9%N Sample.st
    = (Sample.st, [("s2", ErrorEvent "message:pin" "Admins only")])
  ∧ (on_message_pin Sample.alice "s1" "m1" false 10%N
       (on_message_pin Sample.alice "s1" "m1" true 9%N Sample.st).1).1
    = Sample.st.
Proof.
  assert (messages (store Sample.st) !! "m1"
          = Some (Sample.text_message "m1" "team" Sample.bob "hello"
                    Sample.liked)) as Hm by (by vm_compute).
  split.
  - apply (pin_outcome Sample.st Sample.bob "s2" "m1" 9%N 0%N _ Hm);
      [done..|].
    intros Hall.
    assert (Sample.bob ∈ [Sample.alice]) as Hin.
    { eapply (Hall {| chat_isGroup := true;
                      chat_participants := [Sample.alice; Sample.bob];
                      chat_admins := [Sample.alice];
                      chat_settings :=
                        Some {| onlyAdminsCanMessage := false;
                                onlyAdminsCanEditInfo := true;
                                isPublic := false |};
                      chat_lastMessageAt := None |}); by vm_compute. }
    revert Hin. apply (bool_decide_unpack _). by vm_compute.
  - apply (pin_outcome Sample.st Sample.alice "s1" "m1" 9%N 10%N _ Hm);
      [done..|].
    intros chat Hchat _. vm_compute in Hchat. injection Hchat as <-.
    by left.
Defined.

End mutation_properties.

Section signal_properties.
Implicit Types (st : State) (u U : UserId) (s sid : SocketId).
Implicit Types (select : SignalEvent → bool).


Lemma signalled_signal_each select s (target : gset string) ev :
  signalled select s (signal_each target ev)
    = if decide (s ∈ target ∧ select ev = true) then 1 else 0.
Proof.
  unfold signalled, signal_each.
  assert (∀ l : list string, NoDup l →
            length (filter (λ e : string * SignalEvent,
                              e.1 = s ∧ select e.2 = true)
                      ((λ rsid, (rsid, ev)) <$> l))
            = if decide (s ∈ l ∧ select ev = true) then 1 else 0) as Hcount.
  { intros l Hnd. induction Hnd as [|x l Hx Hnd IH].
    - rewrite decide_False; [done|]. intros [Hin _].
      by apply not_elem_of_nil in Hin.
    - rewrite fmap_cons, filter_cons. simpl.
      destruct (decide (x = s ∧ select ev = true)) as [[-> Hsel]|Hno].
      + simpl. rewrite IH. rewrite decide_False by (by intros [? _]).
        rewrite decide_True; [done|]. split; [by left|done].
      + rewrite IH.
        destruct (decide (s ∈ l ∧ select ev = true)) as [[Hin Hsel]|Hn].
        * rewrite decide_True; [done|]. split; [by right|done].
        * rewrite decide_False; [done|].
          intros [[->|Hin]%elem_of_cons Hsel]; [by apply Hno|by apply Hn]. }
  rewrite Hcount by apply NoDup_elements.
  destruct (decide (s ∈ target ∧ select ev = true)) as [[Hin Hsel]|Hn].
  - rewrite decide_True; [done|]. split; [by apply elem_of_elements|done].
  - rewrite decide_False; [done|].
    intros [Hin%elem_of_elements Hsel]. by apply Hn.
Qed.

(** X25 — typing follows the room.  A [typing] event is relayed with the
    user of the sending socket and the truth value of the flag, to the
    sockets in the room of the chat other than the sending one, once each:
    another connected socket receives it after its [chat:join] for the
    chat, and receives none after its [chat:leave] or its disconnection;
    the sending socket never receives its own.  [typing:start] and
    [typing:stop] are that relay with the flag set and cleared. *)
Theorem typing_follows_the_room (st : State) (U : UserId)
    (sid s : SocketId) (chatId : ChatId) (typing : bool) (now : N) :
  s ≠ sid →
  is_Some (sockets st !! s) →
  signalled is_typing s
    (on_typing U sid chatId typing (handle (ChatJoin s chatId) st).1) = 1
  ∧ signalled is_typing s
      (on_typing U sid chatId typing (handle (ChatLeave s chatId) st).1) = 0
  ∧ signalled is_typing s
      (on_typing U sid chatId typing (handle (Disconnected s now) st).1) = 0
  ∧ signalled is_typing sid (on_typing U sid chatId typing st) = 0
  ∧ (∀ s' ev, (s', ev) ∈ on_typing U sid chatId typing st →
              ev = Typing chatId U typing)
  ∧ on_typing_start U sid chatId st = on_typing U sid chatId true st
  ∧ on_typing_stop U sid chatId st = on_typing U sid chatId false st.
Proof.
  intros Hne [u Hs]. unfold on_typing. rewrite !signalled_signal_each.
  simpl. unfold with_socket. rewrite Hs. split_and!.
  - rewrite decide_True; [done|]. split; [|done].
    simpl. rewrite room_of_join. rewrite decide_True by done. set_solver.
  - rewrite decide_False; [done|]. intros [Hin _]. revert Hin.
    simpl. rewrite room_of_leave. rewrite decide_True by done. set_solver.
  - rewrite decide_False; [done|]. intros [Hin _]. revert Hin.
    destruct (on_disconnect_state u s now st) as (_ & _ & -> & _).
    rewrite room_of_leave_all. set_solver.
  - rewrite decide_False; [done|]. intros [Hin _]. set_solver.
  - intros s' ev Hin. unfold signal_each in Hin.
    by apply list_elem_of_fmap in Hin as (x & [= _ ->] & _).
  - done.
  - done.
Qed.

Lemma typing_follows_the_room_witness :
  signalled is_typing "s1"
    (on_typing Sample.bob "s2" "team" true
       (handle (ChatJoin "s1" "team") Sample.st).1) = 1
  ∧ signalled is_typing "s2" (on_typing Sample.bob "s2" "team" true Sample.st)
    = 0.
Proof.
  destruct (typing_follows_the_room Sample.st Sample.bob "s2" "s1" "team"
              true 0%N) as (Hjoin & _ & _ & Hself & _).
  - done.
  - apply (bool_decide_unpack _). by vm_compute.
  - split; [exact Hjoin|exact Hself].
Defined.



End signal_properties.

Section forward_properties.
Implicit Types (st : State) (u U : UserId) (s sid : SocketId).

(** X27 — what a forward copies.  [message:forward] of a stored message
    to an existing chat goes through exactly when the requester is listed
    among the participants of the target chat; the chat of the source
    message is not looked at.  The stored copy belongs to the requester and
    the target chat, points to the source, has the type, the media address,
    name, size and duration of the source, its text only when the source is
    a text message, and none of its reactions, reply or delivery marks;
    the chats are left as they were.  Otherwise the state is unchanged and
    the only event is one error to the requesting socket. *)
Theorem forward_outcome (st : State) (U : UserId) (sid : SocketId)
    (id newId : MessageId) (toChatId : ChatId) (src : Message)
    (target : Chat) :
  sockets st !! sid = Some U →
  messages (store st) !! id = Some src →
  chats (store st) !! toChatId = Some target →
  let r := handle (MessageForward sid id toChatId newId) st in
  if decide (U ∈ chat_participants target)
  then messages (store r.1) !! newId
       = Some (new_message newId toChatId U (msg_type src)
                 (if decide (msg_type src = TText) then msg_text src
                  else None)
                 (msg_mediaUrl src) (msg_mediaName src) (msg_mediaSize src)
                 (msg_mediaDuration src) None (Some (msg_id src)))
       ∧ chats (store r.1) = chats (store st)
       ∧ (∀ id', id' ≠ newId →
            messages (store r.1) !! id' = messages (store st) !! id')
       ∧ ∀ s, received is_error s r.2 = 0
  else r = (st, [(sid, ErrorEvent "message:forward"
                         "Not a participant of target chat")]).
Proof.
  intros Hsid Hsrc Htarget r. subst r. simpl. unfold with_socket.
  rewrite Hsid. unfold on_message_forward, message_forward_try.
  rewrite Hsrc, Htarget. simpl.
  case_decide as Hin.
  - rewrite bool_decide_eq_true_2 by done. simpl. split_and!.
    + by rewrite lookup_insert_eq.
    + done.
    + intros id' Hne. by rewrite lookup_insert_ne.
    + intros s.
      match goal with
      | |- received ?f ?s (?e :: ?l) = _ =>
          change (received f s (e :: l))
            with (received f s (io_to_sid sid e.2 ++ l))
      end.
      rewrite received_app, received_io_to_sid, received_emit_each. simpl.
      rewrite !decide_False; [done|by intros [_ ?]|by intros [_ ?]].
  - by rewrite bool_decide_eq_false_2.
Qed.

Lemma forward_outcome_witness :
  handle (MessageForward "s3" "m1" "dm" "m2") Sample.st
    = (Sample.st, [("s3", ErrorEvent "message:forward"
                            "Not a participant of target chat")])
  ∧ (msg_forwardOf <$>
       messages (store (handle (MessageForward "s1" "m1" "dm" "m2")
                          Sample.st).1) !! "m2") = Some (Some "m1").
Proof.
  assert (messages (store Sample.st) !! "m1"
          = Some (Sample.text_message "m1" "team" Sample.bob "hello"
                    Sample.liked)) as Hm by (by vm_compute).
  assert (chats (store Sample.st) !! "dm" = Some Scene.dm) as Hc
    by (by vm_compute).
  split.
  - pose proof (forward_outcome Sample.st Sample.carol "s3" "m1" "m2" "dm"
                  _ _ eq_refl Hm Hc) as H.
    rewrite decide_False in H; [exact H|].
    apply (bool_decide_unpack _). by vm_compute.
  - pose proof (forward_outcome Sample.st Sample.alice "s1" "m1" "m2" "dm"
                  _ _ eq_refl Hm Hc) as H.
    rewrite decide_True in H by (by left).
    destruct H as (-> & _). done.
Defined.

End forward_properties.

(** ** The server between the awaits of its handlers *)

Section server_invariant.
Implicit Types (sv : Server) (st : State) (u userId : UserId).
Implicit Types (s sid : SocketId) (i : Input) (a : Step).

(** The handlers of the gateway are the two halves one after the other. *)
Lemma connection_in_two_halves userId sid now st :
  on_connection userId sid now st
    = connect_end userId now (connect_begin userId sid st).
Proof. done. Qed.

Lemma disconnection_in_two_halves userId sid now st :
  on_disconnect userId sid now st
    = disconnect_end userId now (disconnect_begin userId sid st).
Proof. done. Qed.

Lemma elem_of_all_joined (rooms : gmap string (gset string)) s :
  s ∈ all_joined rooms ↔ ∃ name, s ∈ room_of rooms name.
Proof.
  unfold all_joined. rewrite elem_of_union_list. split.
  - intros (X & HX & Hs). apply list_elem_of_fmap in HX as ([name X'] & -> & Hin).
    apply elem_of_map_to_list in Hin. exists name. unfold room_of.
    by rewrite Hin.
  - intros (name & Hs). unfold room_of in Hs.
    destruct (rooms !! name) as [X|] eqn:Hname; simpl in Hs; [|set_solver].
    exists X. split; [|done]. apply list_elem_of_fmap. exists (name, X).
    split; [done|]. by apply elem_of_map_to_list.
Qed.

Lemma elem_of_all_registered (reg : gmap string (gset string)) s :
  s ∈ all_registered reg ↔ ∃ u, s ∈ Presence.sessionsOf reg u.
Proof.
  unfold all_registered. rewrite elem_of_union_list. split.
  - intros (X & HX & Hs). apply list_elem_of_fmap in HX as ([u X'] & -> & Hin).
    apply elem_of_map_to_list in Hin. exists u. unfold Presence.sessionsOf.
    by rewrite Hin.
  - intros (u & Hs). unfold Presence.sessionsOf in Hs.
    destruct (reg !! u) as [X|] eqn:Hu; simpl in Hs; [|set_solver].
    exists X. split; [|done]. apply list_elem_of_fmap. exists (u, X).
    split; [done|]. by apply elem_of_map_to_list.
Qed.

Lemma heard_socket sv i sid :
  heard sv i = true → input_socket i = Some sid → connecting sv !! sid = None.
Proof.
  unfold heard. intros Hheard Hsid.
  destruct i; simpl in *; try done; injection Hsid as ->;
    apply bool_decide_eq_true in Hheard; try done.
  by destruct Hheard as (_ & ? & _).
Qed.

Lemma heard_connection sv userId sid now :
  heard sv (Connection userId sid now) = true → fresh sv sid.
Proof. unfold heard. by intros ?%bool_decide_eq_true. Qed.

Lemma handle_registry_change i st : registry_change i st (handle i st).1.
Proof.
  destruct i; simpl; unfold with_socket;
    try (destruct (sockets st !! sid) as [userId|] eqn:Hsid;
         [|by apply change_none]).
  - case_decide as Hcon; [by apply change_none|].
    apply (change_connect _ _ _ userId sid now); try done.
    by apply eq_None_not_Some.
  - by apply (change_disconnect _ _ _ userId sid).
  - by apply (change_join _ _ _ sid (chat_room chatId)).
  - by apply (change_leave _ _ _ sid (chat_room chatId)).
  - destruct (on_message_send_registries userId sid p newId now st)
      as (? & ? & ? & _). by apply change_none.
  - unfold on_message_delivered.
    destruct (on_message_ack_registries (mark_delivered userId) messageId st)
      as (? & ? & ? & _). by apply change_none.
  - unfold on_message_read.
    destruct (on_message_ack_registries (mark_read userId) messageId st)
      as (? & ? & ? & _). by apply change_none.
  - destruct (on_message_react_registries userId messageId emoji now st)
      as (? & ? & ? & _). by apply change_none.
  - destruct (on_message_forward_registries userId sid messageId toChatId
                newId st) as (? & ? & ? & _). by apply change_none.
  - unfold on_call_start, call_start_try, getChatParticipants.
    destruct (chats (store st) !! chatId) as [chat|]; simpl;
      [|by apply change_none].
    destruct (bool_decide (userId ∈ chat_participants chat)); simpl;
      [|by apply change_none].
    by apply (change_join _ _ _ sid (call_room (makeId now rnd))).
  - unfold on_call_accept, call_accept_try.
    destruct (activeCalls st !! callId) as [c|]; simpl;
      [|by apply change_none].
    by apply (change_join _ _ _ sid (call_room callId)).
  - rewrite on_call_reject_state. by apply change_none.
  - unfold on_call_leave.
    destruct (activeCalls st !! callId) as [c|]; simpl;
      [|by apply change_none].
    case_decide; simpl; by apply (change_leave _ _ _ sid (call_room callId)).
  - unfold on_call_end.
    destruct (activeCalls st !! callId) as [c|]; simpl;
      [|by apply change_none].
    case_decide; by apply change_none.
  - rewrite on_call_signal_state. by apply change_none.
  - by apply change_none.
Qed.

(** What [call:start] does when it resumes, for whatever user and socket
    it was started. *)
Lemma on_call_start_change userId sid chatId kind now rnd createdAt st :
  let st' := (on_call_start userId sid chatId kind now rnd createdAt st).1 in
  sockets st' = sockets st ∧ onlineUsers st' = onlineUsers st
  ∧ (rooms st' = rooms st
     ∨ rooms st' = socket_join sid (call_room (makeId now rnd)) (rooms st)).
Proof.
  unfold on_call_start, call_start_try, getChatParticipants.
  destruct (chats (store st) !! chatId) as [chat|]; simpl; [|by eauto].
  destruct (bool_decide (userId ∈ chat_participants chat)); simpl; by eauto.
Qed.

Lemma on_call_start_keyed userId sid chatId kind now rnd createdAt st :
  calls_keyed st →
  calls_keyed (on_call_start userId sid chatId kind now rnd createdAt st).1.
Proof.
  intros Hok. unfold on_call_start, call_start_try, getChatParticipants.
  destruct (chats (store st) !! chatId) as [chat|]; simpl; [|done].
  destruct (bool_decide (userId ∈ chat_participants chat)); simpl; [|done].
  intros id c. simpl. rewrite lookup_insert.
  case_decide; [by intros [= <-]|apply Hok].
Qed.

(** *** A connected socket is registered *)

Lemma covers_change i st st' :
  registry_change i st st' →
  (∀ s u, sockets st !! s = Some u →
          s ∈ Presence.sessionsOf (onlineUsers st) u) →
  ∀ s u, sockets st' !! s = Some u →
         s ∈ Presence.sessionsOf (onlineUsers st') u.
Proof.
  intros Hchange Hcov s u.
  destruct Hchange as [Hs Ho _|? ? _ _ Hs Ho _|? ? Hs Ho _
                      |u0 sid ? _ _ Hs Ho _|u0 sid Hsid Hs Ho _];
    rewrite Hs, Ho; try apply Hcov.
  - rewrite sessionsOf_register, lookup_insert.
    case_decide as Hsd.
    + intros [= <-]. subst. rewrite decide_True by done. set_solver.
    + intros Hsu%Hcov. case_decide; [subst; set_solver|done].
  - rewrite sessionsOf_unregister, lookup_delete.
    case_decide as Hsd; [done|].
    intros Hsu%Hcov. case_decide; [subst; set_solver|done].
Qed.

(** *** The sockets in the rooms *)

Lemma joined_heard_change (conn : gmap string string) i st st' :
  registry_change i st st' →
  (∀ sid, input_socket i = Some sid → conn !! sid = None) →
  (∀ name s, s ∈ room_of (rooms st) name → conn !! s = None) →
  ∀ name s, s ∈ room_of (rooms st') name → conn !! s = None.
Proof.
  intros Hchange Hheard Hrooms name s.
  destruct Hchange as [_ _ Hr|sid name' Hi _ _ _ Hr|sid name' _ _ Hr
                      |u0 sid ? _ _ _ _ Hr|u0 sid _ _ _ Hr];
    rewrite Hr.
  - apply Hrooms.
  - rewrite room_of_join. case_decide; [|apply Hrooms].
    intros [Hin| ->%elem_of_singleton]%elem_of_union; [by eapply Hrooms|].
    by apply Hheard.
  - rewrite room_of_leave. case_decide; [|apply Hrooms].
    intros [Hin _]%elem_of_difference. by eapply Hrooms.
  - apply Hrooms.
  - rewrite room_of_leave_all.
    intros [Hin _]%elem_of_difference. by eapply Hrooms.
Qed.

Lemma chat_rooms_change i st st' :
  registry_change i st st' →
  (∀ chatId s, s ∈ room_of (rooms st) (chat_room chatId) →
               is_Some (sockets st !! s)) →
  ∀ chatId s, s ∈ room_of (rooms st') (chat_room chatId) →
              is_Some (sockets st' !! s).
Proof.
  intros Hchange Hrooms chatId s.
  destruct Hchange as [Hs _ Hr|sid name' _ Hsid Hs _ Hr|sid name' Hs _ Hr
                      |u0 sid ? _ _ Hs _ Hr|u0 sid _ Hs _ Hr];
    rewrite Hs, Hr.
  - apply Hrooms.
  - rewrite room_of_join. case_decide; [|apply Hrooms].
    intros [Hin| ->%elem_of_singleton]%elem_of_union; [|done].
    subst name'. by eapply Hrooms.
  - rewrite room_of_leave. case_decide; [|apply Hrooms].
    intros [Hin _]%elem_of_difference. subst name'. by eapply Hrooms.
  - intros Hin%Hrooms. rewrite lookup_insert. by case_decide.
  - rewrite room_of_leave_all.
    intros [Hin%Hrooms Hne%not_elem_of_singleton]%elem_of_difference.
    by rewrite lookup_delete_ne.
Qed.

(** *** The table of calls *)

Section excused.
Context (P : UserId → Prop).

Ltac member_cases Hmem u Hu s Hs Hsock :=
  destruct (Hmem u Hu) as [(s & Hs & Hsock)|[?|?]];
  [left|by right; left|by right; right].

Lemma calls_ok_upto_same st st' :
  same_registries st st' → calls_ok_upto P st → calls_ok_upto P st'.
Proof.
  intros (Hs & _ & Hr & Hc) Hok id c. rewrite Hc, Hr, Hs. apply Hok.
Qed.

Lemma calls_ok_upto_more_sockets st sid userId :
  sockets st !! sid = None →
  calls_ok_upto P st →
  calls_ok_upto P (set_sockets (<[sid := userId]> (sockets st)) st).
Proof.
  intros Hfresh Hok id c Hc. simpl in *.
  destruct (Hok id c Hc) as [Hhost Hmem]. split; [done|].
  intros u Hu. member_cases Hmem u Hu s Hs Hsock.
  exists s. split; [done|].
  rewrite lookup_insert_ne; [done|]. intros ->. congruence.
Qed.

Lemma calls_ok_upto_close st userId sid :
  sockets st !! sid = Some userId →
  P userId →
  calls_ok_upto P st →
  calls_ok_upto P (transport_close sid st).
Proof.
  intros Hsid HP Hok id c Hc. simpl in *.
  destruct (Hok id c Hc) as [Hhost Hmem]. split; [done|].
  intros u Hu.
  destruct (Hmem u Hu) as [(s & Hs & Hsock)|[?|?]];
    [|by right; left|by right; right].
  destruct (decide (s = sid)) as [->|Hne].
  - right. left. assert (u = userId) as -> by congruence. done.
  - left. exists s. rewrite room_of_leave_all, lookup_delete_ne by done.
    split; [set_solver|done].
Qed.

Lemma calls_ok_upto_disconnect userId sid now st :
  sockets st !! sid = Some userId →
  calls_ok_upto P st → calls_ok_upto P (on_disconnect userId sid now st).1.
Proof.
  intros Hsid Hok id c'.
  destruct (on_disconnect_state userId sid now st) as (-> & _ & -> & ->).
  rewrite lookup_omap.
  destruct (activeCalls st !! id) as [c|] eqn:Hc; simpl; [|done].
  destruct (Hok id c Hc) as [Hhost Hmem].
  assert (∀ u, u ∈ call_members c → u ≠ userId →
            (∃ s, s ∈ room_of (leave_all sid (rooms st)) (call_room id)
                  ∧ delete sid (sockets st) !! s = Some u)
            ∨ P u ∨ u = call_host c) as Hkeep.
  { intros u Hu Hne. member_cases Hmem u Hu s Hs Hsock.
    assert (s ≠ sid) by (intros ->; congruence).
    exists s. rewrite room_of_leave_all, lookup_delete_ne by done.
    split; [set_solver|done]. }
  unfold sweep_call. case_decide as Hin.
  - case_decide as Hend; [done|]. intros [= <-]. simpl in *.
    split.
    + apply elem_of_difference. split; [done|].
      rewrite elem_of_singleton. intros Hh. apply Hend. by left.
    + intros u [Hu Hne%not_elem_of_singleton]%elem_of_difference.
      by apply Hkeep.
  - intros [= <-]. split; [done|].
    intros u Hu. apply Hkeep; [done|]. by intros ->.
Qed.

Lemma calls_ok_upto_chat_room st (X : gset string) chatId :
  calls_ok_upto P st →
  calls_ok_upto P (set_rooms (<[chat_room chatId := X]> (rooms st)) st).
Proof.
  intros Hok id c Hc. simpl in *.
  destruct (Hok id c Hc) as [Hhost Hmem]. split; [done|].
  intros u Hu. member_cases Hmem u Hu s Hs Hsock.
  exists s. split; [|done]. unfold room_of in *.
  rewrite lookup_insert_ne; [done|]. apply chat_room_ne_call_room.
Qed.

(** The call is entered whether or not the socket is still connected: its
    host is its only member. *)
Lemma calls_ok_upto_call_start userId sid chatId kind now rnd createdAt st :
  calls_ok_upto P st →
  calls_ok_upto P
    (on_call_start userId sid chatId kind now rnd createdAt st).1.
Proof.
  intros Hok. unfold on_call_start, call_start_try, getChatParticipants.
  destruct (chats (store st) !! chatId) as [chat|]; simpl; [|done].
  destruct (bool_decide (userId ∈ chat_participants chat)); simpl; [|done].
  intros id c. simpl. rewrite lookup_insert.
  case_decide as Hid.
  - intros [= <-]. simpl. split; [set_solver|].
    intros u ->%elem_of_singleton. by right; right.
  - intros Hc. destruct (Hok id c Hc) as [Hhost Hmem]. split; [done|].
    intros u Hu. member_cases Hmem u Hu s Hs Hsock.
    exists s. split; [|done]. rewrite room_of_join.
    case_decide; [set_solver|done].
Qed.

Lemma calls_ok_upto_call_accept userId sid callId st :
  sockets st !! sid = Some userId →
  calls_ok_upto P st → calls_ok_upto P (on_call_accept userId sid callId st).1.
Proof.
  intros Hsid Hok. unfold on_call_accept, call_accept_try.
  destruct (activeCalls st !! callId) as [c0|] eqn:Hc0; simpl; [|done].
  destruct (Hok callId c0 Hc0) as [Hhost Hmem].
  intros id c. simpl. rewrite lookup_insert, room_of_join.
  case_decide as Hid.
  - intros [= <-]. simpl. subst id. rewrite decide_True by done.
    split; [set_solver|].
    intros u [Hu| ->%elem_of_singleton]%elem_of_union.
    + member_cases Hmem u Hu s Hs Hsock.
      exists s. split; [set_solver|done].
    + left. exists sid. split; [set_solver|done].
  - intros Hc. rewrite decide_False by (by intros ?%call_room_inj).
    by apply Hok.
Qed.

Lemma calls_ok_upto_call_leave userId sid callId st :
  sockets st !! sid = Some userId →
  calls_ok_upto P st → calls_ok_upto P (on_call_leave userId sid callId st).1.
Proof.
  intros Hsid Hok. unfold on_call_leave.
  destruct (activeCalls st !! callId) as [c0|] eqn:Hc0; simpl; [|done].
  destruct (Hok callId c0 Hc0) as [Hhost Hmem].
  case_decide as Hend; intros id c; simpl.
  - rewrite lookup_delete, room_of_leave.
    case_decide as Hid; [done|]. rewrite lookup_insert_ne by done.
    intros Hc. rewrite decide_False by (by intros ?%call_room_inj).
    by apply Hok.
  - rewrite lookup_insert, room_of_leave.
    case_decide as Hid.
    + intros [= <-]. simpl. subst id. rewrite decide_True by done.
      split.
      * apply elem_of_difference. split; [done|].
        rewrite elem_of_singleton. intros Hh. apply Hend. by left.
      * intros u [Hu Hne%not_elem_of_singleton]%elem_of_difference.
        member_cases Hmem u Hu s Hs Hsock.
        assert (s ≠ sid) by (intros ->; congruence).
        exists s. split; [set_solver|done].
    + intros Hc. rewrite decide_False by (by intros ?%call_room_inj).
      by apply Hok.
Qed.

Lemma calls_ok_upto_call_end userId callId st :
  calls_ok_upto P st → calls_ok_upto P (on_call_end userId callId st).1.
Proof.
  intros Hok. unfold on_call_end.
  destruct (activeCalls st !! callId) as [c0|] eqn:Hc0; simpl; [|done].
  case_decide; [done|]. intros id c. simpl. rewrite lookup_delete.
  case_decide; [done|]. by apply Hok.
Qed.

Lemma calls_ok_upto_handle i st :
  calls_ok_upto P st → calls_ok_upto P (handle i st).1.
Proof.
  intros Hok. destruct i; simpl; unfold with_socket;
    try (destruct (sockets st !! sid) as [userId|] eqn:Hsid; [|done]).
  - case_decide as Hcon; [done|].
    apply eq_None_not_Some in Hcon.
    apply (calls_ok_upto_more_sockets st sid userId Hcon) in Hok.
    intros id c Hc. by apply Hok.
  - by apply calls_ok_upto_disconnect.
  - by apply calls_ok_upto_chat_room.
  - by apply calls_ok_upto_chat_room.
  - eapply calls_ok_upto_same; [apply on_message_send_registries|done].
  - eapply calls_ok_upto_same; [apply on_message_ack_registries|done].
  - eapply calls_ok_upto_same; [apply on_message_ack_registries|done].
  - eapply calls_ok_upto_same; [apply on_message_react_registries|done].
  - eapply calls_ok_upto_same; [apply on_message_forward_registries|done].
  - by apply calls_ok_upto_call_start.
  - by apply calls_ok_upto_call_accept.
  - by rewrite on_call_reject_state.
  - by apply calls_ok_upto_call_leave.
  - by apply calls_ok_upto_call_end.
  - by rewrite on_call_signal_state.
  - eapply calls_ok_upto_same; [apply same_registries_set_store|done].
Qed.

End excused.

Lemma calls_ok_upto_weaken (P Q : UserId → Prop) st :
  (∀ u, P u → Q u) → calls_ok_upto P st → calls_ok_upto Q st.
Proof.
  intros HPQ Hok id c Hc. destruct (Hok id c Hc) as [Hhost Hmem].
  split; [done|]. intros u Hu.
  destruct (Hmem u Hu) as [?|[?|?]]; [by left|right; left; eauto|by right; right].
Qed.

Lemma elem_of_delete_other {A : Type} (l : list A) k (x y : A) :
  l !! k = Some y → x ∈ l → x ≠ y → x ∈ delete k l.
Proof.
  intros Hk [j Hj]%list_elem_of_lookup Hne.
  apply list_elem_of_lookup.
  destruct (decide (j < k)) as [Hlt|Hge].
  - exists j. by rewrite list_lookup_delete_lt.
  - assert (j ≠ k) by (intros ->; congruence).
    exists (j - 1). rewrite list_lookup_delete_ge by lia.
    by replace (S (j - 1)) with j by lia.
Qed.

(** *** The invariant of the server *)

Lemma server_ok_initial db : server_ok (server_initial db).
Proof.
  split_and!; simpl.
  - intros s u. by rewrite lookup_empty.
  - done.
  - intros chatId s. unfold room_of. rewrite lookup_empty. set_solver.
  - intros u s Hin. by apply not_elem_of_nil in Hin.
  - intros id c. simpl. by rewrite lookup_empty.
  - intros id c. simpl. by rewrite lookup_empty.
Qed.

Lemma server_ok_step a sv : server_ok sv → server_ok (step a sv).1.
Proof.
  intros (Hcov & Hheard & Hchat & Hstart & Hkeyed & Hcalls).
  destruct a; simpl.
  - (* Connect *)
    case_decide as Hfresh; [|done].
    destruct Hfresh as (Hsock & Hconn & Hjoined & Hreg & Hstarting).
    split_and!; simpl.
    + intros s u. rewrite sessionsOf_register, lookup_insert.
      case_decide as Hsd.
      * intros [= <-]. subst. rewrite decide_True by done. set_solver.
      * intros Hsu%Hcov. case_decide; [subst; set_solver|done].
    + intros name s Hin.
      assert (s ≠ sid).
      { intros ->. apply Hjoined, elem_of_all_joined. by exists name. }
      rewrite lookup_insert_ne by done. by eapply Hheard.
    + intros chatId s Hin%Hchat. rewrite lookup_insert. by case_decide.
    + intros u s Hin.
      assert (s ≠ sid).
      { intros ->. apply Hstarting, list_elem_of_fmap. by exists (u, sid). }
      rewrite lookup_insert_ne by done. by eapply Hstart.
    + done.
    + by apply (calls_ok_upto_more_sockets _ (gateway sv) sid userId).
  - (* Ready *)
    destruct (connecting sv !! sid) as [userId|] eqn:Hconn; [|done].
    split_and!; simpl; [done| |done| |done|done].
    + intros name s Hin%Hheard. rewrite lookup_delete. by case_decide.
    + intros u s Hin%Hstart. rewrite lookup_delete. by case_decide.
  - (* Drop *)
    case_decide as Hconn; [|done].
    split_and!; simpl.
    + intros s u. rewrite lookup_delete. case_decide; [done|]. apply Hcov.
    + intros name s. rewrite room_of_leave_all.
      intros [Hin _]%elem_of_difference. by eapply Hheard.
    + intros chatId s. rewrite room_of_leave_all.
      intros [Hin%Hchat Hne%not_elem_of_singleton]%elem_of_difference.
      by rewrite lookup_delete_ne.
    + done.
    + done.
    + intros id c Hc. simpl in Hc. destruct (Hcalls id c Hc) as [Hhost Hmem].
      split; [done|]. intros u Hu. simpl.
      destruct (Hmem u Hu) as [(s & Hs & Hsock)|[?|?]];
        [left|by right; left|by right; right].
      assert (s ≠ sid).
      { intros ->. apply Hheard in Hs.
        rewrite Hs in Hconn. by destruct Hconn. }
      exists s. rewrite room_of_leave_all, lookup_delete_ne by done.
      split; [set_solver|done].
  - (* Listen *)
    destruct (heard sv i) eqn:Hi; [|done].
    pose proof (handle_registry_change i (gateway sv)) as Hchange.
    split_and!; simpl.
    + by eapply covers_change.
    + eapply joined_heard_change; [done| |done].
      intros sid. by apply heard_socket.
    + by eapply chat_rooms_change.
    + done.
    + by apply calls_keyed_handle.
    + by apply calls_ok_upto_handle.
  - (* StartBegin *)
    destruct (sockets (gateway sv) !! sid) as [userId|] eqn:Hsid; [|done].
    case_decide as Hconn; [|done].
    split_and!; simpl; [done..| |done|done].
    intros u s [Hin|[= -> ->]%list_elem_of_singleton]%elem_of_app;
      [by eapply Hstart|done].
  - (* StartEnd *)
    destruct (starting sv !! k) as [[userId sid]|] eqn:Hk; [|done].
    destruct (on_call_start_change userId sid chatId kind now rnd createdAt
                (gateway sv)) as (Hs & Ho & Hr).
    split_and!; simpl.
    + intros s u. rewrite Hs, Ho. apply Hcov.
    + intros name s. destruct Hr as [-> | ->]; [apply Hheard|].
      rewrite room_of_join. case_decide; [|apply Hheard].
      intros [Hin| ->%elem_of_singleton]%elem_of_union; [by eapply Hheard|].
      apply (Hstart userId). by eapply list_elem_of_lookup_2.
    + intros chatId' s. rewrite Hs. destruct Hr as [-> | ->]; [apply Hchat|].
      rewrite room_of_join.
      rewrite decide_False by (by intros ?%symmetry%chat_room_ne_call_room).
      apply Hchat.
    + intros u s Hin%list_elem_of_delete_inv. by eapply Hstart.
    + by apply on_call_start_keyed.
    + by apply calls_ok_upto_call_start.
  - (* Close *)
    destruct (sockets (gateway sv) !! sid) as [userId|] eqn:Hsid; [|done].
    case_decide as Hconn; [|done].
    split_and!; simpl.
    + intros s u. rewrite sessionsOf_unregister, lookup_delete.
      case_decide as Hsd; [done|].
      intros Hsu%Hcov. case_decide; [subst; set_solver|done].
    + intros name s. rewrite room_of_leave_all.
      intros [Hin _]%elem_of_difference. by eapply Hheard.
    + intros chatId s. rewrite room_of_leave_all.
      intros [Hin%Hchat Hne%not_elem_of_singleton]%elem_of_difference.
      by rewrite lookup_delete_ne.
    + done.
    + done.
    + apply (calls_ok_upto_close _ (gateway sv) userId sid Hsid);
        [set_solver|].
      eapply calls_ok_upto_weaken; [|done]. set_solver.
  - (* Sweep *)
    destruct (closing sv !! k) as [userId|] eqn:Hk; [|done].
    split_and!; simpl; [done..| |].
    + intros id c. simpl. rewrite lookup_omap.
      destruct (activeCalls (gateway sv) !! id) as [c0|] eqn:Hc0; simpl;
        [|done].
      unfold sweep_call. repeat case_decide; intros [= <-]; simpl;
        by apply Hkeyed.
    + intros id c'. simpl. rewrite lookup_omap.
      destruct (activeCalls (gateway sv) !! id) as [c|] eqn:Hc; simpl;
        [|done].
      destruct (Hcalls id c Hc) as [Hhost Hmem].
      assert (∀ u, u ∈ call_members c → u ≠ userId →
                (∃ s, s ∈ room_of (rooms (gateway sv)) (call_room id)
                      ∧ sockets (gateway sv) !! s = Some u)
                ∨ u ∈ delete k (closing sv) ∨ u = call_host c) as Hkeep.
      { intros u Hu Hne.
        destruct (Hmem u Hu) as [?|[Hcl|?]];
          [by left|right; left|by right; right].
        by eapply elem_of_delete_other. }
      unfold sweep_call. case_decide as Hin.
      * case_decide as Hend; [done|]. intros [= <-]. simpl in *. split.
        -- apply elem_of_difference. split; [done|].
           rewrite elem_of_singleton. intros Hh. apply Hend. by left.
        -- intros u [Hu Hne%not_elem_of_singleton]%elem_of_difference.
           by apply Hkeep.
      * intros [= <-]. split; [done|].
        intros u Hu. apply Hkeep; [done|]. by intros ->.
Qed.

Lemma server_reachable_ok sv : server_reachable sv → server_ok sv.
Proof.
  induction 1 as [db|a sv _ IH];
    [apply server_ok_initial|by apply server_ok_step].
Qed.

Lemma server_reachable_steps l sv :
  server_reachable sv → server_reachable (steps l sv).
Proof.
  revert sv. induction l as [|a l IH]; intros sv Hsv; [done|].
  simpl. apply IH. by constructor.
Qed.

(** The runs of the gateway where every listener runs in one piece are
    among the runs of the server. *)
Lemma reachable_server_reachable st :
  reachable st →
  server_reachable
    {| gateway := st; connecting := ∅; starting := []; closing := [] |}.
Proof.
  induction 1 as [db|i st Hst IH]; [apply server_reachable_initial|].
  apply (server_reachable_step (Listen i)) in IH. simpl in IH.
  destruct (heard _ i) eqn:Hi; [done|].
  assert ((handle i st).1 = st) as ->; [|done].
  destruct (reachable_registries_ok st Hst) as [Hpres Hrooms].
  destruct i; simpl in Hi; try done; try (by rewrite lookup_empty in Hi).
  simpl. case_decide as Hcon; [done|]. exfalso.
  apply bool_decide_eq_false in Hi. apply Hi.
  apply eq_None_not_Some in Hcon.
  split_and!; simpl; [done|done|..].
  - intros (name & Hin%Hrooms)%elem_of_all_joined.
    rewrite Hcon in Hin. by destruct Hin.
  - intros (u & Hin%Hpres)%elem_of_all_registered. congruence.
  - intros Hin. by apply not_elem_of_nil in Hin.
Qed.

End server_invariant.

Section server_properties.
Implicit Types (sv : Server) (st : State) (u userId : UserId).
Implicit Types (s sid : SocketId) (i : Input) (a : Step).

Lemma registered_is_online (reg : gmap string (gset string)) u s :
  s ∈ Presence.sessionsOf reg u → Presence.isOnline reg u = true.
Proof.
  unfold Presence.sessionsOf, Presence.isOnline. intros Hs.
  apply bool_decide_eq_true. destruct (reg !! u); [done|set_solver].
Qed.

(** X1 — a connected socket is registered.  At every moment of the
    server, the waits of the connection handler, of [call:start] and of
    the [disconnect] listener included, a connected socket is registered in
    [onlineUsers] under its user, who is therefore reported online, and a
    socket found in the room of a chat is connected and has its listeners
    attached.  (The converse of the first part does not hold: see X2.) *)
Theorem registry_covers_connections (sv : Server) (u : UserId)
    (s : SocketId) (chatId : ChatId) :
  server_reachable sv →
  let st := gateway sv in
  (sockets st !! s = Some u →
     s ∈ Presence.sessionsOf (onlineUsers st) u
     ∧ Presence.isOnline (onlineUsers st) u = true)
  ∧ (s ∈ room_of (rooms st) (chat_room chatId) →
       is_Some (sockets st !! s) ∧ connecting sv !! s = None).
Proof.
  intros Hreach st.
  destruct (server_reachable_ok sv Hreach) as (Hcov & Hheard & Hchat & _).
  split.
  - intros Hs%Hcov. split; [done|]. by eapply registered_is_online.
  - intros Hin. split; [by eapply Hchat|by eapply Hheard].
Qed.

Lemma registry_covers_connections_witness :
  sockets (gateway Run.bob_closing) !! "s1" = Some Sample.alice
  ∧ Presence.isOnline (onlineUsers (gateway Run.bob_closing)) Sample.alice
    = true
  ∧ "s1" ∈ room_of (rooms (gateway Run.bob_closing)) (chat_room "team")
  ∧ connecting Run.bob_closing !! "s1" = None.
Proof.
  assert (server_reachable Run.bob_closing) as Hreach
    by (apply server_reachable_steps; constructor).
  assert (sockets (gateway Run.bob_closing) !! "s1" = Some Sample.alice)
    as Hs by (by vm_compute).
  assert ("s1" ∈ room_of (rooms (gateway Run.bob_closing)) (chat_room "team"))
    as Hin by (apply (bool_decide_unpack _); by vm_compute).
  destruct (registry_covers_connections Run.bob_closing Sample.alice "s1"
              "team" Hreach) as [Hreg Hroom].
  split_and!; [done|by apply Hreg|done|by apply Hroom].
Defined.

Lemma ghost_step a sv u sid :
  sid ∈ Presence.sessionsOf (onlineUsers (gateway sv)) u →
  sockets (gateway sv) !! sid = None →
  sid ∈ Presence.sessionsOf (onlineUsers (gateway (step a sv).1)) u
  ∧ sockets (gateway (step a sv).1) !! sid = None.
Proof.
  intros Hreg Hgone.
  assert (∀ sid', fresh sv sid' → sid' ≠ sid) as Hfresh.
  { intros sid' (_ & _ & _ & Hno & _) ->. apply Hno.
    apply elem_of_all_registered. by exists u. }
  destruct a; simpl in *.
  - case_decide as Hf; [|done]. simpl. apply Hfresh in Hf.
    rewrite sessionsOf_register, lookup_insert_ne by done.
    split; [|done]. case_decide; [subst; set_solver|done].
  - by destruct (connecting sv !! sid0).
  - case_decide; [|done]. simpl. split; [done|].
    rewrite lookup_delete. by case_decide.
  - destruct (heard sv i) eqn:Hi; [|done]. simpl.
    destruct (handle_registry_change i (gateway sv))
      as [Hs Ho _|? ? _ _ Hs Ho _|? ? Hs Ho _
         |u0 sid' now Hcon _ Hs Ho _|u0 sid' Hsid Hs Ho _];
      rewrite Hs, Ho; try done.
    + subst i. apply heard_connection, Hfresh in Hi.
      rewrite sessionsOf_register, lookup_insert_ne by done.
      split; [|done]. case_decide; [subst; set_solver|done].
    + assert (sid' ≠ sid) by (intros ->; congruence).
      rewrite sessionsOf_unregister, lookup_delete_ne by done.
      split; [|done]. case_decide; [subst; set_solver|done].
  - destruct (sockets (gateway sv) !! sid0); [|done]. by case_decide.
  - destruct (starting sv !! k) as [[userId sid']|]; [|done]. simpl.
    destruct (on_call_start_change userId sid' chatId kind now rnd createdAt
                (gateway sv)) as (-> & -> & _). done.
  - destruct (sockets (gateway sv) !! sid0) as [userId|] eqn:Hsid; [|done].
    case_decide; [|done]. simpl.
    assert (sid0 ≠ sid) by (intros ->; congruence).
    rewrite sessionsOf_unregister, lookup_delete_ne by done.
    split; [|done]. case_decide; [subst; set_solver|done].
  - by destruct (closing sv !! k).
Qed.

(** X2 — a socket that closes while its connection handler waits stays
    registered.  Take a socket that is registered in [onlineUsers] for a
    user but is not connected: this is what the connection handler leaves
    when the socket closes during its wait, for the [disconnect] listener
    is attached only afterwards.  Whatever the server does from then on,
    the entry stays: the socket is still registered for the user and still
    not connected, and the user is still reported online, even after the
    last connected socket of the user has disconnected. *)
Theorem ghost_entry_persists (sv : Server) (u : UserId) (sid : SocketId)
    (later : list Step) :
  sid ∈ Presence.sessionsOf (onlineUsers (gateway sv)) u →
  sockets (gateway sv) !! sid = None →
  let sv' := steps later sv in
  sid ∈ Presence.sessionsOf (onlineUsers (gateway sv')) u
  ∧ sockets (gateway sv') !! sid = None
  ∧ Presence.isOnline (onlineUsers (gateway sv')) u = true.
Proof.
  intros Hreg Hgone sv'.
  assert (sid ∈ Presence.sessionsOf (onlineUsers (gateway sv')) u
          ∧ sockets (gateway sv') !! sid = None) as [Hreg' Hgone'].
  { subst sv'. revert sv Hreg Hgone.
    induction later as [|a later IH]; intros sv Hreg Hgone; [done|].
    simpl. destruct (ghost_step a sv u sid Hreg Hgone) as [? ?].
    by apply IH. }
  split_and!; [done..|]. by eapply registered_is_online.
Qed.

Lemma ghost_entry_persists_witness :
  server_reachable Run.ghost
  ∧ sockets (gateway Run.ghost) = ∅
  ∧ "s9" ∈ Presence.sessionsOf (onlineUsers (gateway Run.ghost)) Sample.alice
  ∧ sockets (gateway Run.after_ghost) = ∅
  ∧ Presence.isOnline (onlineUsers (gateway Run.after_ghost)) Sample.alice
    = true.
Proof.
  assert ("s9" ∈ Presence.sessionsOf (onlineUsers (gateway Run.ghost))
                   Sample.alice) as Hreg
    by (apply (bool_decide_unpack _); by vm_compute).
  split_and!.
  - apply server_reachable_steps. constructor.
  - by vm_compute.
  - done.
  - by vm_compute.
  - apply (ghost_entry_persists Run.ghost Sample.alice "s9"
             [ Connect Sample.alice "s1"; Ready "s1" 3%N; Close "s1";
               Sweep 0 4%N ] Hreg).
    by vm_compute.
Defined.

(** X4 — a disconnection is announced with the flag of the registry.
    When a waiting [disconnect] listener of a user resumes, every socket
    connected at that moment receives exactly one [presence:update] for the
    user, a socket that is not connected receives none, and the flag
    [online] of the event is what [onlineUsers] says at that moment; the
    sockets, the registry and the rooms are left as they are.  The flag is
    true whenever the user has a connected socket; it is also true with
    none, when an entry of the user was left behind (X2). *)
Theorem disconnection_announced (sv : Server) (k : nat) (U : UserId)
    (s : SocketId) (now : N) (online : bool) :
  server_reachable sv →
  closing sv !! k = Some U →
  let r := step (Sweep k now) sv in
  let flag := Presence.isOnline (onlineUsers (gateway sv)) U in
  received (is_presence U online) s r.2
    = (if decide (is_Some (sockets (gateway sv) !! s) ∧ online = flag)
       then 1 else 0)
  ∧ ((∃ s', sockets (gateway sv) !! s' = Some U) → flag = true)
  ∧ sockets (gateway r.1) = sockets (gateway sv)
  ∧ onlineUsers (gateway r.1) = onlineUsers (gateway sv)
  ∧ rooms (gateway r.1) = rooms (gateway sv)
  ∧ closing r.1 = delete k (closing sv).
Proof.
  intros Hreach Hk r flag. subst r flag. simpl. rewrite Hk. simpl.
  destruct (server_reachable_ok sv Hreach) as (Hcov & _).
  split_and!; [|by intros [s' Hs'%Hcov]; eapply registered_is_online|done..].
  unfold call_sweep. simpl.
  rewrite received_app, received_io_emit.
  rewrite sweep_no_presence, Nat.add_0_r.
  apply decide_ext. simpl. rewrite bool_decide_eq_true. naive_solver.
Qed.

Lemma disconnection_announced_witness :
  closing Run.bob_closing !! 0 = Some Sample.bob
  ∧ received (is_presence Sample.bob false) "s1"
      (step (Sweep 0 9%N) Run.bob_closing).2 = 1
  ∧ received (is_presence Sample.bob false) "s2"
      (step (Sweep 0 9%N) Run.bob_closing).2 = 0.
Proof.
  assert (server_reachable Run.bob_closing) as Hreach
    by (apply server_reachable_steps; constructor).
  assert (closing Run.bob_closing !! 0 = Some Sample.bob) as Hk
    by (by vm_compute).
  split_and!; [done|..].
  - destruct (disconnection_announced Run.bob_closing 0 Sample.bob "s1" 9%N
                false Hreach Hk) as (-> & _). by vm_compute.
  - destruct (disconnection_announced Run.bob_closing 0 Sample.bob "s2" 9%N
                false Hreach Hk) as (-> & _). by vm_compute.
Defined.

(** The flag of X4 with an entry left behind: Alice had the socket [s9]
    close during its connection wait; when her only connected socket [s1]
    disconnects later, its [presence:update] says she is online. *)
Lemma ghost_announced_online :
  (∀ s, sockets (gateway Run.after_ghost) !! s = None)
  ∧ closing (steps [ Connect Sample.alice "s1"; Ready "s1" 3%N;
                     Close "s1" ] Run.ghost) = [Sample.alice]
  ∧ Presence.isOnline
      (onlineUsers
         (gateway (steps [ Connect Sample.alice "s1"; Ready "s1" 3%N;
                           Close "s1" ] Run.ghost))) Sample.alice = true.
Proof. split_and!; [intros s|..]; by vm_compute. Qed.

(** X5 — the members of a call are accounted for.  At every moment of the
    server, an active call is filed under its own id and its host is one of
    its members (so no call is without members); every member other than
    the host has a connected socket with its listeners attached in the room
    of the call, and is then reported online, unless a [disconnect]
    listener of that member is waiting to sweep the calls.  (The host may
    have no socket left, when its [call:start] has resumed after its socket
    had closed.) *)
Theorem call_members_accounted_for (sv : Server) (id : CallId) (c : Call)
    (u : UserId) :
  server_reachable sv →
  activeCalls (gateway sv) !! id = Some c →
  let st := gateway sv in
  call_id c = id
  ∧ call_host c ∈ call_members c
  ∧ (u ∈ call_members c → u ≠ call_host c →
       (∃ s, s ∈ room_of (rooms st) (call_room id)
             ∧ sockets st !! s = Some u
             ∧ connecting sv !! s = None
             ∧ Presence.isOnline (onlineUsers st) u = true)
       ∨ u ∈ closing sv).
Proof.
  intros Hreach Hc st.
  destruct (server_reachable_ok sv Hreach)
    as (Hcov & Hheard & _ & _ & Hkeyed & Hcalls).
  destruct (Hcalls id c Hc) as [Hhost Hmem].
  split_and!; [by apply Hkeyed|done|].
  intros Hu Hne.
  destruct (Hmem u Hu) as [(s & Hs & Hsock)|[?|?]]; [left|by right|done].
  exists s. split_and!; [done..| |].
  - by eapply Hheard.
  - eapply registered_is_online. by apply Hcov.
Qed.

Lemma call_members_accounted_for_witness :
  (call_members <$> activeCalls (gateway Run.bob_closing) !! "call_7_abc")
    = Some {[ Sample.alice; Sample.bob ]}
  ∧ (∀ s, sockets (gateway Run.bob_closing) !! s ≠ Some Sample.bob)
  ∧ Sample.bob ∈ closing Run.bob_closing.
Proof.
  assert (server_reachable Run.bob_closing) as Hreach
    by (apply server_reachable_steps; constructor).
  assert (activeCalls (gateway Run.bob_closing) !! "call_7_abc"
          = Some Sample.the_call) as Hc by (by vm_compute).
  assert (∀ s, sockets (gateway Run.bob_closing) !! s ≠ Some Sample.bob)
    as Hnone.
  { assert (∀ m : gmap string string,
              m = {[ "s1" := Sample.alice ]} →
              ∀ s, m !! s ≠ Some Sample.bob) as Hone.
    { intros m -> s Hs. by apply lookup_singleton_Some in Hs as [_ [=]]. }
    apply Hone. by vm_compute. }
  split_and!; [by rewrite Hc|done|].
  destruct (call_members_accounted_for Run.bob_closing "call_7_abc"
              Sample.the_call Sample.bob Hreach Hc) as (_ & _ & Hmem).
  destruct Hmem as [(s & _ & Hs & _)|Hcl]; [| |by destruct (Hnone s)|done].
  - apply (bool_decide_unpack _). by vm_compute.
  - by vm_compute.
Defined.

(** A call without its host: Alice's [call:start] resumes after her socket
    has closed and its [disconnect] listener has swept the calls.  The call
    is entered all the same, no socket is connected, and no listener is
    waiting that would remove it. *)
Lemma orphan_call :
  server_reachable Run.orphan
  ∧ (call_host <$> activeCalls (gateway Run.orphan) !! "call_7_abc")
    = Some Sample.alice
  ∧ sockets (gateway Run.orphan) = ∅
  ∧ closing Run.orphan = []
  ∧ starting Run.orphan = []
  ∧ connecting Run.orphan = ∅.
Proof.
  split; [apply server_reachable_steps; constructor|].
  split_and!; by vm_compute.
Qed.

End server_properties.

(** ** Calls: the host leaves or disconnects *)

Section host_exit_properties.
Implicit Types (sv : Server) (st : State) (u userId : UserId).
Implicit Types (s sid : SocketId) (c : Call) (id callId : CallId).

(** The waiting [disconnect] listener of the host resumes. *)
Lemma host_sweep_ends st id c now :
  activeCalls st !! id = Some c →
  call_host c ∈ call_members c →
  let r := disconnect_end (call_host c) now st in
  activeCalls r.1 !! id = None
  ∧ ∀ s, received (is_call_ended id) s r.2
         = if decide (s ∈ room_of (rooms st) (call_room id)) then 1 else 0.
Proof.
  intros Hc Hhost. simpl. split.
  - rewrite lookup_omap, Hc. simpl. unfold sweep_call.
    rewrite decide_True by done. by rewrite decide_True by (by left).
  - intros s. unfold disconnect_end, call_sweep. simpl.
    rewrite received_app, received_presence, received_sweep, Hc.
    by rewrite sweep_events_ended by (done || by left).
Qed.

Lemma step_keeps_unknown id a sv :
  activeCalls (gateway sv) !! id = None → ¬ step_creates id a →
  activeCalls (gateway (step a sv).1) !! id = None.
Proof.
  intros Hid Hcr. destruct a; simpl in *.
  - by case_decide.
  - by destruct (connecting sv !! sid).
  - by case_decide.
  - destruct (heard sv i); [|done]. simpl. by apply handle_keeps_unknown.
  - destruct (sockets (gateway sv) !! sid); [|done]. by case_decide.
  - destruct (starting sv !! k) as [[userId sid]|]; [|done]. simpl.
    unfold on_call_start, call_start_try, getChatParticipants.
    destruct (chats (store (gateway sv)) !! chatId) as [chat|]; simpl;
      [|done].
    destruct (bool_decide (userId ∈ chat_participants chat)); simpl; [|done].
    by rewrite lookup_insert_ne.
  - destruct (sockets (gateway sv) !! sid); [|done]. by case_decide.
  - destruct (closing sv !! k); [|done]. simpl.
    by rewrite lookup_omap, Hid.
Qed.

Lemma steps_keep_unknown id later sv :
  activeCalls (gateway sv) !! id = None →
  Forall (λ a, ¬ step_creates id a) later →
  activeCalls (gateway (steps later sv)) !! id = None.
Proof.
  intros Hid Hall. revert sv Hid.
  induction Hall as [|a later Ha _ IH]; intros sv Hid; [done|].
  simpl. apply IH. by apply step_keeps_unknown.
Qed.

(** C4, as the code has it — the host leaves or disconnects.  At any
    moment of the server, take an active call.  When its host sends
    [call:leave] for it from a socket, or a socket of the host disconnects
    and its [disconnect] listener sweeps the calls, at once or after its
    wait, the call is removed from the table and [call:ended] for it is
    emitted once to the room of the call: every socket joined to the call
    at that moment, other than the one that left, receives it exactly once,
    and no other socket receives it.  A remaining member so receives one
    [call:ended] for each socket with which the member is joined to the
    call: more than one when the member accepted from several devices, and
    at least one unless a [disconnect] listener of the member is itself
    waiting.  Afterwards the id is unknown, and stays so through any later
    steps as long as [makeId()] does not return it again: accept is
    answered by "Call not found", and leave, end and signal with that id
    change nothing. *)
Theorem host_exit_ends_call (sv : Server) (id : CallId) (c : Call)
    (exit : Step) (gone : gset SocketId) :
  server_reachable sv →
  activeCalls (gateway sv) !! id = Some c →
  host_exit sv (call_host c) id exit gone →
  let st := gateway sv in
  let joined := room_of (rooms st) (call_room id) ∖ gone in
  let r := step exit sv in
  activeCalls (gateway r.1) !! id = None
  ∧ (∀ s, received (is_call_ended id) s r.2
          = if decide (s ∈ joined) then 1 else 0)
  ∧ (∀ u, received_by_user (is_call_ended id) st u r.2
          = size (sockets_of_user st u joined))
  ∧ (∀ u, u ∈ call_members c → u ≠ call_host c →
       1 ≤ size (sockets_of_user st u joined) ∨ u ∈ closing sv)
  ∧ (∀ later, Forall (λ a, ¬ step_creates id a) later →
       let st' := gateway (steps later r.1) in
       activeCalls st' !! id = None
       ∧ ∀ userId sid' toUserId data,
           on_call_accept userId sid' id st'
             = (st', [(sid', CallError "Call not found")])
           ∧ on_call_leave userId sid' id st' = (st', [])
           ∧ on_call_end userId id st' = (st', [])
           ∧ on_call_signal userId id toUserId data st' = (st', [])).
Proof.
  intros Hreach Hc Hexit st joined r.
  destruct (server_reachable_ok sv Hreach) as (_ & _ & _ & _ & _ & Hcalls).
  destruct (Hcalls id c Hc) as [Hhost Hmem].
  assert (activeCalls (gateway r.1) !! id = None
          ∧ ∀ s, received (is_call_ended id) s r.2
                 = if decide (s ∈ joined) then 1 else 0) as [Hgone Hrecv].
  { subst r joined st.
    destruct Hexit as [sid Hsid Hconn|sid now Hsid Hconn|k now Hk]; simpl.
    - rewrite bool_decide_eq_true_2 by done. simpl.
      unfold with_socket. rewrite Hsid. by apply host_leave_ends.
    - rewrite bool_decide_eq_true_2 by done. simpl.
      unfold with_socket. rewrite Hsid. by apply host_disconnect_ends.
    - rewrite Hk. simpl. rewrite difference_empty_L.
      by apply (host_sweep_ends (gateway sv) id c now). }
  split_and!; [done|done|..].
  - intros u. by apply received_by_user_exact.
  - intros u Hu Hne.
    destruct (Hmem u Hu) as [(s & Hs & Hsock)|[?|?]]; [left|by right|done].
    assert (s ∈ sockets_of_user st u joined) as Hin.
    { apply elem_of_filter. split; [done|].
      apply elem_of_difference. split; [done|].
      destruct Hexit as [sid Hsid _|sid now Hsid _|k now Hk];
        [| |set_solver];
        rewrite elem_of_singleton; intros ->; subst st; congruence. }
    destruct (size (sockets_of_user st u joined)) eqn:Hsize; [|lia].
    apply size_zero_iff in Hsize. set_solver.
  - intros later Hlater st'.
    assert (activeCalls st' !! id = None) as Hst'
      by (by apply steps_keep_unknown).
    split; [done|]. intros userId sid' toUserId data. split_and!.
    + by apply on_call_accept_unknown.
    + by apply on_call_leave_unknown.
    + by apply on_call_end_unknown.
    + by apply on_call_signal_unknown.
Qed.

Lemma host_exit_ends_call_witness :
  server_reachable Run.in_call
  ∧ activeCalls (gateway Run.in_call) !! "call_7_abc" = Some Sample.the_call
  ∧ activeCalls
      (gateway (step (Listen (CallLeave "s1" "call_7_abc")) Run.in_call).1)
      !! "call_7_abc" = None
  ∧ received (is_call_ended "call_7_abc") "s2"
      (step (Listen (CallLeave "s1" "call_7_abc")) Run.in_call).2 = 1
  ∧ received_by_user (is_call_ended "call_7_abc") (gateway Run.in_call)
      Sample.bob
      (step (Listen (CallLeave "s1" "call_7_abc")) Run.in_call).2 = 1
  ∧ closing Run.alice_closing !! 0 = Some Sample.alice
  ∧ received (is_call_ended "call_7_abc") "s2"
      (step (Sweep 0 9%N) Run.alice_closing).2 = 1.
Proof.
  assert (server_reachable Run.in_call) as Hreach
    by (apply server_reachable_steps; constructor).
  assert (server_reachable Run.alice_closing) as Hreach'
    by (by apply server_reachable_steps).
  assert (activeCalls (gateway Run.in_call) !! "call_7_abc"
          = Some Sample.the_call) as Hc by (by vm_compute).
  assert (activeCalls (gateway Run.alice_closing) !! "call_7_abc"
          = Some Sample.the_call) as Hc' by (by vm_compute).
  assert (closing Run.alice_closing !! 0 = Some Sample.alice) as Hk
    by (by vm_compute).
  destruct (host_exit_ends_call Run.in_call "call_7_abc" Sample.the_call
              (Listen (CallLeave "s1" "call_7_abc")) {[ "s1" ]} Hreach Hc)
    as (Hgone & Hrecv & Huser & _).
  { apply exit_leave; by vm_compute. }
  destruct (host_exit_ends_call Run.alice_closing "call_7_abc"
              Sample.the_call (Sweep 0 9%N) ∅ Hreach' Hc')
    as (_ & Hrecv' & _).
  { by apply exit_sweep. }
  split_and!; [done..| | |done|].
  - rewrite Hrecv. by vm_compute.
  - rewrite Huser. by vm_compute.
  - rewrite Hrecv'. by vm_compute.
Defined.

(** C4, as stated, fails: Bob has accepted the call from two devices, [s2]
    and [s5]; when the host Alice leaves from [s1], or [s1] disconnects,
    each of the two sockets receives [call:ended], so Bob receives two, not
    exactly one. *)
Lemma member_with_two_devices_receives_two :
  reachable Run.two_devices
  ∧ (call_members <$> activeCalls Run.two_devices !! "call_7_abc")
    = Some {[ Sample.alice; Sample.bob ]}
  ∧ (call_host <$> activeCalls Run.two_devices !! "call_7_abc")
    = Some Sample.alice
  ∧ sockets Run.two_devices !! "s1" = Some Sample.alice
  ∧ sockets Run.two_devices !! "s2" = Some Sample.bob
  ∧ sockets Run.two_devices !! "s5" = Some Sample.bob
  ∧ received (is_call_ended "call_7_abc") "s2"
      (handle (CallLeave "s1" "call_7_abc") Run.two_devices).2 = 1
  ∧ received (is_call_ended "call_7_abc") "s5"
      (handle (CallLeave "s1" "call_7_abc") Run.two_devices).2 = 1
  ∧ received_by_user (is_call_ended "call_7_abc") Run.two_devices Sample.bob
      (handle (CallLeave "s1" "call_7_abc") Run.two_devices).2 = 2
  ∧ received_by_user (is_call_ended "call_7_abc") Run.two_devices Sample.bob
      (handle (Disconnected "s1" 9%N) Run.two_devices).2 = 2.
Proof.
  split.
  - unfold Run.two_devices, Sample.in_call, Sample.st.
    do 3 apply reachable_run. constructor.
  - split_and!; by vm_compute.
Qed.

End host_exit_properties.
